(** * dinero: exact monetary values over Python's [decimal]

    A shallow embedding of [dinero/_dinero.py].  The class [Dinero] stores a
    [Decimal] amount in major units next to a currency dictionary and does
    all of its arithmetic with the [decimal] module under the process-wide
    context returned by [getcontext()].

    The embedding has three layers.
    - [PyDecimal]: the part of [decimal] the class relies on, for finite
      numbers: construction from text and integers, [str], [normalize],
      [quantize], [+ - * / %], comparison, [int()] and the [",.Nf"] format.
      Every operation that reads the context takes the precision as an
      argument; the rounding mode is the default [ROUND_HALF_EVEN] and the
      default traps are armed.  [NaN], the infinities and the exponent
      limits [Emin]/[Emax] are outside the model.
    - [Py]: the exceptions the code can raise and a state monad over the
      context precision.  The state survives a raised exception, as the
      global context does.
    - [DineroModel]: the methods of [Dinero], one definition per method,
      under the names of the source.

    [Reading] gives the vocabulary of the statements, [PyDecimalFacts] and
    [DineroFacts] the lemmas, [Claims] the properties of the
    specification. *)

From Stdlib Require Import ZArith NArith Bool List String Ascii Lia.
Import ListNotations.

Local Open Scope Z_scope.

(* ------------------------------------------------------------------ *)
(** ** Finite decimals *)

Module PyDecimal.

(** [Decimal._sign], [Decimal._int] (read as a number: the digit string
    never has a redundant leading zero) and [Decimal._exp]. *)
Record decimal : Type := Dec { dsign : bool; dint : N; dexp : Z }.

Definition digit_char (n : N) : ascii := ascii_of_N (48 + n).

(** [str(n)] for a non-negative integer, most significant digit first. *)
Fixpoint digits_fuel (fuel : nat) (n : N) : string :=
  match fuel with
  | O => String (digit_char (n mod 10)) EmptyString
  | S f =>
      if (n <? 10)%N then String (digit_char n) EmptyString
      else digits_fuel f (n / 10) ++ String (digit_char (n mod 10)) EmptyString
  end.

Definition digits_of (n : N) : string := digits_fuel (N.to_nat (N.size n)) n.

(** [len(self._int)]. *)
Definition ndigits (n : N) : Z := Z.of_nat (String.length (digits_of n)).

Definition is_zero (d : decimal) : bool := (dint d =? 0)%N.

(** [Decimal.adjusted]. *)
Definition adjusted (d : decimal) : Z := dexp d + ndigits (dint d) - 1.

Definition pow10 (k : Z) : N := (10 ^ Z.to_N k)%N.

(** [Decimal(n)] and [Decimal(str(n))] for a Python [int]. *)
Definition of_int (z : Z) : decimal := Dec (z <? 0) (Z.abs_N z) 0.

(** *** Text to decimal

    The numeric-string grammar of [Decimal(str)]:
    [sign? (digits ('.' digits?)? | '.' digits) ([eE] sign? digits)?].
    Surrounding blanks, underscores between digits and the spellings of
    the non-finite values are not read. *)

Definition is_digit (c : ascii) : bool :=
  let n := N_of_ascii c in ((48 <=? n) && (n <=? 57))%N.

Definition digit_val (c : ascii) : N := (N_of_ascii c - 48)%N.

Fixpoint span_digits (l : list ascii) : list ascii * list ascii :=
  match l with
  | c :: r =>
      if is_digit c then let (ds, rest) := span_digits r in (c :: ds, rest)
      else ([], l)
  | [] => ([], [])
  end.

Definition digits_value (ds : list ascii) : N :=
  fold_left (fun acc c => (10 * acc + digit_val c)%N) ds 0%N.

Definition take_sign (l : list ascii) : bool * list ascii :=
  match l with
  | "-"%char :: r => (true, r)
  | "+"%char :: r => (false, r)
  | _ => (false, l)
  end.

Definition parse_exponent (l : list ascii) : option Z :=
  match l with
  | [] => Some 0
  | c :: r =>
      if (Ascii.eqb c "e" || Ascii.eqb c "E")%char then
        let (neg, r1) := take_sign r in
        let (ds, rest) := span_digits r1 in
        match ds, rest with
        | _ :: _, [] =>
            let v := Z.of_N (digits_value ds) in
            Some (if neg then - v else v)
        | _, _ => None
        end
      else None
  end.

Definition of_string (s : string) : option decimal :=
  let (neg, l1) := take_sign (list_ascii_of_string s) in
  let (ip, l2) := span_digits l1 in
  let '(fp, l3) :=
    match l2 with
    | "."%char :: r => span_digits r
    | _ => ([], l2)
    end in
  match ip ++ fp with
  | [] => None
  | _ :: _ =>
      match parse_exponent l3 with
      | Some e =>
          Some (Dec neg (digits_value (ip ++ fp))
                    (e - Z.of_nat (List.length fp)))
      | None => None
      end
  end.

(** *** Rounding *)

(** [Decimal._round_half_even], on the coefficient [c] with its last
    [drop] digits to be discarded: [1] to round away from zero, [0] when
    the discarded digits are all zero, [-1] to truncate. *)
Definition _round_half_even (c : N) (drop : Z) : Z :=
  let p := pow10 drop in
  let q := (c / p)%N in
  let r := (c mod p)%N in
  if (r =? 0)%N then 0
  else if ((2 * r =? p)%N && N.even q) then -1
  else if (p <=? 2 * r)%N then 1
  else -1.

Definition round_coeff (c : N) (drop : Z) : N :=
  let coeff := (c / pow10 drop)%N in
  if 0 <? _round_half_even c drop then (coeff + 1)%N else coeff.

(** [Decimal._rescale(exp, ROUND_HALF_EVEN)]. *)
Definition _rescale (d : decimal) (exp : Z) : decimal :=
  if is_zero d then Dec (dsign d) 0 exp
  else if exp <=? dexp d then
    Dec (dsign d) (dint d * pow10 (dexp d - exp)) exp
  else Dec (dsign d) (round_coeff (dint d) (exp - dexp d)) exp.

(** [Decimal._fix(context)]: round to at most [prec] significant digits. *)
Definition _fix (prec : Z) (d : decimal) : decimal :=
  if is_zero d then d
  else
    let exp_min := ndigits (dint d) + dexp d - prec in
    if dexp d <? exp_min then
      let coeff := round_coeff (dint d) (exp_min - dexp d) in
      if prec <? ndigits coeff then Dec (dsign d) (coeff / 10) (exp_min + 1)
      else Dec (dsign d) coeff exp_min
    else d.

(** The loop of [normalize]: drop trailing zeros of a non-zero
    coefficient. *)
Fixpoint strip_zeros (fuel : nat) (c : N) (exp : Z) : N * Z :=
  match fuel with
  | O => (c, exp)
  | S f =>
      if (c mod 10 =? 0)%N then strip_zeros f (c / 10) (exp + 1)
      else (c, exp)
  end.

(** [Decimal.normalize(context)]. *)
Definition normalize (prec : Z) (d : decimal) : decimal :=
  let dup := _fix prec d in
  if is_zero dup then Dec (dsign dup) 0 0
  else
    let (c, e) := strip_zeros (N.to_nat (N.size (dint dup))) (dint dup) (dexp dup) in
    Dec (dsign dup) c e.

(** The conditions of [decimal] that the code can meet; all but
    [DivisionByZero] are raised as [decimal.InvalidOperation]. *)
Inductive condition : Type :=
| ConversionSyntax
| QuantizeTooManyDigits
| DivisionImpossible
| DivisionUndefined
| RemainderByZero
| DivisionByZero.

(** [Decimal.quantize(exp, context)]. *)
Definition quantize (prec : Z) (d exp : decimal) : condition + decimal :=
  if is_zero d then inr (_fix prec (Dec (dsign d) 0 (dexp exp)))
  else if prec <? adjusted d - dexp exp + 1 then inl QuantizeTooManyDigits
  else
    let ans := _rescale d (dexp exp) in
    if prec <? ndigits (dint ans) then inl QuantizeTooManyDigits
    else inr (_fix prec ans).

(** *** Arithmetic *)

Definition signed (d : decimal) : Z :=
  if dsign d then - Z.of_N (dint d) else Z.of_N (dint d).

(** [Decimal.__add__]: the exact sum at the smaller exponent, then
    [_fix]. A zero sum is negative only when both operands are. *)
Definition add (prec : Z) (a b : decimal) : decimal :=
  let exp := Z.min (dexp a) (dexp b) in
  let s := signed a * Z.of_N (pow10 (dexp a - exp))
           + signed b * Z.of_N (pow10 (dexp b - exp)) in
  let sign :=
    if s =? 0 then
      (if is_zero a && is_zero b then dsign a && dsign b else false)
    else s <? 0 in
  _fix prec (Dec sign (Z.abs_N s) exp).

Definition copy_negate (d : decimal) : decimal :=
  Dec (negb (dsign d)) (dint d) (dexp d).

(** [Decimal.__sub__]. *)
Definition sub (prec : Z) (a b : decimal) : decimal :=
  add prec a (copy_negate b).

(** [Decimal.__mul__]. *)
Definition mul (prec : Z) (a b : decimal) : decimal :=
  _fix prec (Dec (xorb (dsign a) (dsign b)) (dint a * dint b) (dexp a + dexp b)).

(** The loop of [__truediv__] for an exact quotient: approach the ideal
    exponent. *)
Fixpoint strip_to (fuel : nat) (coeff : N) (exp ideal : Z) : N * Z :=
  match fuel with
  | O => (coeff, exp)
  | S f =>
      if (exp <? ideal) && (coeff mod 10 =? 0)%N
      then strip_to f (coeff / 10) (exp + 1) ideal
      else (coeff, exp)
  end.

(** [Decimal.__truediv__]. *)
Definition truediv (prec : Z) (a b : decimal) : condition + decimal :=
  let sign := xorb (dsign a) (dsign b) in
  if is_zero b then
    if is_zero a then inl DivisionUndefined else inl DivisionByZero
  else if is_zero a then inr (_fix prec (Dec sign 0 (dexp a - dexp b)))
  else
    let shift := ndigits (dint b) - ndigits (dint a) + prec + 1 in
    let exp := dexp a - dexp b - shift in
    let (coeff, remainder) :=
      if 0 <=? shift
      then N.div_eucl (dint a * pow10 shift) (dint b)
      else N.div_eucl (dint a) (dint b * pow10 (- shift)) in
    let (coeff', exp') :=
      if (remainder =? 0)%N then
        let ideal_exp := dexp a - dexp b in
        strip_to (Z.to_nat (ideal_exp - exp)) coeff exp ideal_exp
      else ((if (coeff mod 5 =? 0)%N then coeff + 1 else coeff)%N, exp) in
    inr (_fix prec (Dec sign coeff' exp')).

(** [Decimal.__mod__], through [Decimal._divide]. *)
Definition rem (prec : Z) (a b : decimal) : condition + decimal :=
  if is_zero b then
    if is_zero a then inl DivisionUndefined else inl RemainderByZero
  else
    let ideal_exp := Z.min (dexp a) (dexp b) in
    let expdiff := adjusted a - adjusted b in
    if is_zero a || (expdiff <=? -2) then
      inr (_fix prec (_rescale a ideal_exp))
    else if expdiff <=? prec then
      let op1 := (dint a * pow10 (dexp a - ideal_exp))%N in
      let op2 := (dint b * pow10 (dexp b - ideal_exp))%N in
      let (q, r) := N.div_eucl op1 op2 in
      if (q <? pow10 prec)%N then inr (_fix prec (Dec (dsign a) r ideal_exp))
      else inl DivisionImpossible
    else inl DivisionImpossible.

(** [Decimal._cmp]: numeric comparison, exact, context-free. *)
Definition cmp (a b : decimal) : comparison :=
  let exp := Z.min (dexp a) (dexp b) in
  Z.compare (signed a * Z.of_N (pow10 (dexp a - exp)))
            (signed b * Z.of_N (pow10 (dexp b - exp))).

Definition eqb (a b : decimal) : bool :=
  match cmp a b with Eq => true | _ => false end.
Definition ltb (a b : decimal) : bool :=
  match cmp a b with Lt => true | _ => false end.
Definition leb (a b : decimal) : bool :=
  match cmp a b with Gt => false | _ => true end.

(** [int(d)]: truncation towards zero. *)
Definition to_int (d : decimal) : Z :=
  let m :=
    if 0 <=? dexp d then (dint d * pow10 (dexp d))%N
    else (dint d / pow10 (- dexp d))%N in
  if dsign d then - Z.of_N m else Z.of_N m.

(** *** Text of a decimal *)

Definition zeros (k : Z) : string :=
  string_of_list_ascii (repeat "0"%char (Z.to_nat k)).

Definition str_len (s : string) : Z := Z.of_nat (String.length s).

(** [int[:k]] and [int[k:]] for [0 <= k <= len(int)]. *)
Definition take (k : Z) (s : string) : string :=
  String.substring 0 (Z.to_nat k) s.
Definition drop (k : Z) (s : string) : string :=
  String.substring (Z.to_nat k) (String.length s - Z.to_nat k) s.

(** ["%+d" % z]. *)
Definition signed_text (z : Z) : string :=
  ((if (z <? 0)%Z then "-" else "+") ++ digits_of (Z.abs_N z))%string.

(** [Decimal.__str__], with the default [capitals=1]. *)
Definition to_str (d : decimal) : string :=
  let sign := if dsign d then "-"%string else ""%string in
  let int := digits_of (dint d) in
  let leftdigits := dexp d + str_len int in
  let dotplace :=
    if (dexp d <=? 0) && (-6 <? leftdigits) then leftdigits else 1 in
  let (intpart, fracpart) :=
    if dotplace <=? 0 then
      ("0", "." ++ zeros (- dotplace) ++ int)%string
    else if str_len int <=? dotplace then
      (int ++ zeros (dotplace - str_len int), "")%string
    else (take dotplace int, "." ++ drop dotplace int)%string in
  let exp :=
    if leftdigits =? dotplace then ""%string
    else ("E" ++ signed_text (leftdigits - dotplace))%string in
  (sign ++ intpart ++ fracpart ++ exp)%string.

(** The [','] grouping of the integer part, on the reversed digits. *)
Fixpoint insert_sep (k : nat) (l : list ascii) : list ascii :=
  match l with
  | [] => []
  | c :: r =>
      match k with
      | O => ","%char :: c :: insert_sep 2 r
      | S k' => c :: insert_sep k' r
      end
  end.

Definition group_thousands (s : string) : string :=
  string_of_list_ascii (rev (insert_sep 3 (rev (list_ascii_of_string s)))).

(** [format(d, ",.{places}f")]. *)
Definition format_f (places : Z) (d : decimal) : string :=
  let r := _rescale d (- places) in
  let sign := if dsign r then "-"%string else ""%string in
  let int := digits_of (dint r) in
  let dotplace := dexp r + str_len int in
  let (intpart, fracpart) :=
    if dotplace <? 0 then ("0", zeros (- dotplace) ++ int)%string
    else if str_len int <? dotplace then
      (int ++ zeros (dotplace - str_len int), "")%string
    else
      ((if (dotplace =? 0)%Z then "0" else take dotplace int)%string,
       drop dotplace int) in
  let fracpart :=
    if (String.length fracpart =? 0)%nat then ""%string
    else ("." ++ fracpart)%string in
  (sign ++ group_thousands intpart ++ fracpart)%string.

End PyDecimal.

(* ------------------------------------------------------------------ *)
(** ** Exceptions and the decimal context *)

Module Py.

Inductive exn : Type :=
| InvalidOperationError                       (* dinero.exceptions *)
| DifferentCurrencyError                      (* dinero.exceptions *)
| ValueError
| TypeError
| DecimalException (c : PyDecimal.condition). (* decimal.InvalidOperation,
                                                 decimal.DivisionByZero *)

Inductive outcome (A : Type) : Type :=
| Return (a : A)
| Raise (e : exn).
Arguments Return {A} a.
Arguments Raise {A} e.

(** [getcontext().prec], the only part of the context the code writes. *)
Definition context : Type := Z.

(** The precision of a fresh interpreter. *)
Definition default_prec : context := 28.

Definition M (A : Type) : Type := context -> outcome A * context.

Definition ret {A} (a : A) : M A := fun p => (Return a, p).
Definition raise {A} (e : exn) : M A := fun p => (Raise e, p).
Definition bind {A B} (m : M A) (k : A -> M B) : M B :=
  fun p =>
    match m p with
    | (Return a, p') => k a p'
    | (Raise e, p') => (Raise e, p')
    end.
Definition get_prec : M Z := fun p => (Return p, p).
Definition set_prec (q : Z) : M unit := fun _ => (Return tt, q).

(** An operation of [decimal] that may signal. *)
Definition signal {A} (r : PyDecimal.condition + A) : M A :=
  match r with
  | inl c => raise (DecimalException c)
  | inr a => ret a
  end.

Definition check (b : bool) (e : exn) : M unit :=
  if b then ret tt else raise e.

End Py.

Declare Scope py_scope.
Delimit Scope py_scope with py.
Notation "x <- m ;; k" := (Py.bind m (fun x => k))
  (at level 61, m at next level, right associativity) : py_scope.
Notation "m ;;; k" := (Py.bind m (fun _ => k))
  (at level 61, right associativity) : py_scope.

(* ------------------------------------------------------------------ *)
(** ** The class [Dinero] *)

Module DineroModel.

Import PyDecimal Py.
Local Open Scope py_scope.

(** [dinero.types.Currency], a dictionary with these keys; ["symbol"] may
    be absent. *)
Record Currency : Type :=
  { code : string; base : Z; exponent : N; symbol_key : option string }.

Record Dinero : Type := { amount : decimal; currency : Currency }.

(** What a caller can pass where an amount or an operand is expected.  A
    [float] is given by its text [str(x)], which is all the class reads of
    it; [OOther] stands for lists, tuples, dictionaries, sets. *)
Inductive operand : Type :=
| OInt (z : Z)
| OFloat (repr : string)
| OStr (s : string)
| ODecimal (d : decimal)
| ODinero (x : Dinero)
| OOther.

Definition is_some {A} (o : option A) : bool :=
  match o with Some _ => true | None => false end.

(** Modelled from the spec: [dinero/_validators.py] is not among the
    sources.  [dinero_amount] accepts an integer, a float, a string that
    parses as a number, or a [Decimal], and raises [InvalidOperationError]
    otherwise. *)
Definition dinero_amount (x : operand) : M unit :=
  match x with
  | OInt _ | OFloat _ | ODecimal _ => ret tt
  | OStr s => check (is_some (of_string s)) InvalidOperationError
  | ODinero _ | OOther => raise InvalidOperationError
  end.

(** Modelled from the spec: the validator of the right operand of [+] and
    [-].  It also lets a [Dinero] through, which [__add__] then hands to
    [_get_instance]. *)
Definition addition_and_subtraction_amount (x : operand) : M unit :=
  match x with
  | ODinero _ => ret tt
  | _ => dinero_amount x
  end.

(** Modelled from the spec: the validator of the right operand of [*] and
    [/], the same constraint as [dinero_amount]. *)
Definition multiplication_and_division_amount (x : operand) : M unit :=
  dinero_amount x.

(** [amount if isinstance(amount, Decimal) else Decimal(str(amount))]. *)
Definition to_decimal (x : operand) : M decimal :=
  match x with
  | OInt z => ret (of_int z)
  | ODecimal d => ret d
  | OFloat s | OStr s =>
      match of_string s with
      | Some d => ret d
      | None => raise (DecimalException ConversionSyntax)
      end
  | ODinero _ | OOther => raise (DecimalException ConversionSyntax)
  end.

(** [Dinero.__init__] with [_internal=True]. *)
Definition __init__ (amt : operand) (cur : Currency) : M Dinero :=
  dinero_amount amt ;;;
  d <- to_decimal amt ;;
  ret {| amount := d; currency := cur |}.

Definition from_major (amt : operand) (cur : Currency) : M Dinero :=
  __init__ amt cur.

(** [Decimal(10**exponent)]. *)
Definition ten_to (e : N) : decimal := of_int (Z.of_N (10 ^ e)).

Definition from_minor (amt : operand) (cur : Currency) : M Dinero :=
  dinero_amount amt ;;;
  a <- to_decimal amt ;;
  p <- get_prec ;;
  r <- signal (rem p a (of_int 1)) ;;
  check (PyDecimal.eqb r (of_int 0)) ValueError ;;;
  major_amount <- signal (truediv p a (ten_to (exponent cur))) ;;
  __init__ (ODecimal major_amount) cur.

Definition from_fractional_minor (amt : operand) (cur : Currency) : M Dinero :=
  dinero_amount amt ;;;
  a <- to_decimal amt ;;
  p <- get_prec ;;
  major_amount <- signal (truediv p a (ten_to (exponent cur))) ;;
  __init__ (ODecimal major_amount) cur.

(** The properties. *)
Definition symbol (self : Dinero) : string :=
  match symbol_key (currency self) with Some s => s | None => "$"%string end.
Definition code_of (self : Dinero) : string := code (currency self).
Definition exponent_of (self : Dinero) : Z := Z.of_N (exponent (currency self)).
Definition precision (self : Dinero) : Z := base (currency self).

(** [Dinero._normalize]. [places] is [Decimal(f"1e-{self.exponent}")]. *)
Definition _normalize (self : Dinero) (quantize : bool) : M decimal :=
  set_prec (Z.max (precision self)
                  (str_len (to_str (amount self)) + exponent_of self)) ;;;
  p <- get_prec ;;
  let normalized_amount := normalize p (amount self) in
  if quantize then
    let places := Dec false 1 (- exponent_of self) in
    signal (PyDecimal.quantize p normalized_amount places)
  else ret normalized_amount.

Definition raw_amount (self : Dinero) : M decimal := _normalize self true.

Definition to_minor_units (self : Dinero) : M Z :=
  n <- _normalize self true ;;
  p <- get_prec ;;
  ret (to_int (mul p n (ten_to (exponent (currency self))))).

Definition _formatted_amount (self : Dinero) : M string :=
  n <- _normalize self true ;;
  ret (format_f (exponent_of self) n).

Definition format (self : Dinero) (with_symbol with_currency : bool) : M string :=
  let currency_symbol := if with_symbol then symbol self else ""%string in
  let currency_code :=
    if with_currency then (" " ++ code_of self)%string else ""%string in
  f <- _formatted_amount self ;;
  ret (currency_symbol ++ f ++ currency_code)%string.

Definition _get_instance (self : Dinero) (amt : operand) : M Dinero :=
  amount_obj <-
    match amt with
    | ODinero x => ret x
    | _ => from_major amt (currency self)
    end ;;
  check (String.eqb (code_of amount_obj) (code_of self)) DifferentCurrencyError ;;;
  ret amount_obj.

(** The operators.  Python evaluates the left operand of [+ - * /] first,
    so the precision in force for the operation is the one the right
    operand's [_normalize] has set. *)
Definition arith (op : Z -> decimal -> decimal -> M decimal)
    (self other_obj : Dinero) : M Dinero :=
  a <- _normalize self false ;;
  b <- _normalize other_obj false ;;
  p <- get_prec ;;
  total <- op p a b ;;
  from_major (ODecimal total) (currency self).

Definition __add__ (self : Dinero) (addend : operand) : M Dinero :=
  addition_and_subtraction_amount addend ;;;
  addend_obj <- _get_instance self addend ;;
  arith (fun p a b => ret (PyDecimal.add p a b)) self addend_obj.

Definition __radd__ (self : Dinero) (obj : operand) : M Dinero := ret self.

Definition __sub__ (self : Dinero) (subtrahend : operand) : M Dinero :=
  addition_and_subtraction_amount subtrahend ;;;
  subtrahend_obj <- _get_instance self subtrahend ;;
  arith (fun p a b => ret (PyDecimal.sub p a b)) self subtrahend_obj.

Definition __mul__ (self : Dinero) (multiplicand : operand) : M Dinero :=
  multiplication_and_division_amount multiplicand ;;;
  multiplicand_obj <- _get_instance self multiplicand ;;
  arith (fun p a b => ret (PyDecimal.mul p a b)) self multiplicand_obj.

Definition __truediv__ (self : Dinero) (divisor : operand) : M Dinero :=
  multiplication_and_division_amount divisor ;;;
  divisor_obj <- _get_instance self divisor ;;
  arith (fun p a b => signal (PyDecimal.truediv p a b)) self divisor_obj.

Definition is_dinero (x : operand) : bool :=
  match x with ODinero _ => true | _ => false end.

Definition __eq__ (self : Dinero) (amt : operand) : M bool :=
  check (is_dinero amt) InvalidOperationError ;;;
  o <- _get_instance self amt ;;
  num_2 <- _normalize o true ;;
  num_1 <- _normalize self true ;;
  ret (PyDecimal.eqb num_1 num_2).

(** [__lt__], [__le__], [__gt__] and [__ge__] share one body up to the
    comparison: [self] is normalized before the operand is resolved. *)
Definition ordering (rel : decimal -> decimal -> bool)
    (self : Dinero) (amt : operand) : M bool :=
  check (is_dinero amt) InvalidOperationError ;;;
  num_1 <- _normalize self true ;;
  o <- _get_instance self amt ;;
  num_2 <- _normalize o true ;;
  ret (rel num_1 num_2).

Definition __lt__ := ordering PyDecimal.ltb.
Definition __le__ := ordering PyDecimal.leb.
Definition __gt__ := ordering (fun a b => PyDecimal.ltb b a).
Definition __ge__ := ordering (fun a b => PyDecimal.leb b a).

(** The named methods call the operators. *)
Definition add := __add__.
Definition subtract := __sub__.
Definition multiply := __mul__.
Definition divide := __truediv__.
Definition equals_to := __eq__.
Definition less_than := __lt__.
Definition less_than_or_equal := __le__.
Definition greater_than := __gt__.
Definition greater_than_or_equal := __ge__.

(** *** The toolkit *)






(** The currencies the tests use, as [dinero.currencies] has them. *)
Definition USD : Currency :=
  {| code := "USD"; base := 10; exponent := 2; symbol_key := Some "$"%string |}.
Definition EUR : Currency :=
  {| code := "EUR"; base := 10; exponent := 2;
     symbol_key := Some (String (ascii_of_N 226)
                          (String (ascii_of_N 130)
                            (String (ascii_of_N 172) EmptyString))) |}.

Definition CLP : Currency :=
  {| code := "CLP"; base := 10; exponent := 0; symbol_key := Some "$"%string |}.

(** A currency dictionary whose base is not ten: ISO 4217 counts the
    ariary in fifths. *)
Definition MGA : Currency :=
  {| code := "MGA"; base := 5; exponent := 1; symbol_key := Some "Ar"%string |}.

(** The decimal a numeric operand stands for; [None] for what the
    validators reject. *)
Definition numeric_value (x : operand) : option decimal :=
  match x with
  | OInt z => Some (of_int z)
  | ODecimal d => Some d
  | OFloat s | OStr s => of_string s
  | ODinero _ | OOther => None
  end.

(** The precision [_normalize] installs for [self]. *)
Definition working_precision (self : Dinero) : Z :=
  Z.max (precision self) (str_len (to_str (amount self)) + exponent_of self).

(** Running a computation in the context of a fresh interpreter. *)
Definition run {A} (m : M A) : outcome A * context := m default_prec.

End DineroModel.

(* ------------------------------------------------------------------ *)
(** ** Numbers denoted by decimals

    The vocabulary in which the properties are stated. *)

Module Reading.

Import PyDecimal.

(** The coefficient of [(c, e)] written at the lower exponent [L]. *)
Definition up (L : Z) (c : N) (e : Z) : N := (c * pow10 (e - L))%N.

(** The integer part of [|d|]. *)
Definition int_part (d : decimal) : N :=
  let i := Z.min (dexp d) 0 in
  (dint d * pow10 (dexp d - i) / pow10 (- i))%N.

(** [d] is a whole number: its fractional digits are all zero. *)
Definition is_whole (d : decimal) : bool :=
  let i := Z.min (dexp d) 0 in
  ((dint d * pow10 (dexp d - i)) mod pow10 (- i) =? 0)%N.

(** [d] has at most [p] significant digits. *)
Definition significant (p : Z) (d : decimal) : Prop :=
  exists m j, 0 <= j /\ (m < pow10 p)%N /\ dint d = (m * pow10 j)%N.

(** The exact product [d * n]. *)
Definition scaled (d : decimal) (n : N) : decimal :=
  Dec (dsign d) (dint d * n) (dexp d).

(** [q] is exactly [x / n]. *)
Definition is_quotient (q x : decimal) (n : N) : Prop :=
  cmp (scaled q n) x = Eq.

End Reading.

(* ------------------------------------------------------------------ *)
(** ** Export and display *)

Module DineroOutput.

Import PyDecimal Py DineroModel.
Local Open Scope py_scope.

(** [{**self.currency, "symbol": self.symbol}]. *)
Definition currency_with_symbol (self : Dinero) : Currency :=
  {| code := code (currency self);
     base := base (currency self);
     exponent := exponent (currency self);
     symbol_key := Some (symbol self) |}.

(** The dictionary [{"amount": ..., "currency": {...}}]. *)
Record dict (A : Type) : Type := { d_amount : A; d_currency : Currency }.
Arguments d_amount {A} _.
Arguments d_currency {A} _.

Definition to_dict (self : Dinero) (amount_with_format : bool)
  : M (dict string) :=
  normalized_amount <- _normalize self true ;;
  amt <- (if amount_with_format then _formatted_amount self
          else ret (to_str normalized_amount)) ;;
  ret {| d_amount := amt; d_currency := currency_with_symbol self |}.

Definition to_db_dict (self : Dinero) : M (dict Z) :=
  m <- to_minor_units self ;;
  ret {| d_amount := m; d_currency := currency_with_symbol self |}.

Definition __str__ (self : Dinero) : M string := format self false false.

(** [text.replace(",", "")]. *)
Definition without_separators (text : string) : string :=
  string_of_list_ascii
    (filter (fun c => negb (Ascii.eqb c ","%char)) (list_ascii_of_string text)).

(** The amount counted in minor units, [amount * 10^exponent]: a whole
    number when the amount has no digit below the minor unit. *)
Definition minor_value (self : Dinero) : Z :=
  signed (amount self) * 10 ^ (dexp (amount self) + exponent_of self).

End DineroOutput.

(* ------------------------------------------------------------------ *)
(** ** Facts about the decimal layer *)

Module PyDecimalFacts.

Import PyDecimal Reading.

Lemma length_append (a b : string) :
  String.length (a ++ b) = (String.length a + String.length b)%nat.
Proof. induction a as [|c a IH]; simpl; [reflexivity | now rewrite IH]. Qed.

(** *** Powers of ten *)

Lemma pow10_0 : pow10 0 = 1%N.
Proof. reflexivity. Qed.

Lemma pow10_nonpos k : k <= 0 -> pow10 k = 1%N.
Proof.
  intros H. unfold pow10. replace (Z.to_N k) with 0%N by lia. reflexivity.
Qed.

Lemma pow10_neq0 k : pow10 k <> 0%N.
Proof. unfold pow10. apply N.pow_nonzero. discriminate. Qed.

Lemma pow10_pos k : (0 < pow10 k)%N.
Proof. pose proof (pow10_neq0 k). lia. Qed.

Lemma pow10_add a b :
  0 <= a -> 0 <= b -> pow10 (a + b) = (pow10 a * pow10 b)%N.
Proof.
  intros Ha Hb. unfold pow10. rewrite Z2N.inj_add by assumption.
  apply N.pow_add_r.
Qed.

Lemma pow10_succ a : 0 <= a -> pow10 (a + 1) = (10 * pow10 a)%N.
Proof.
  intros Ha. rewrite pow10_add by lia. change (pow10 1) with 10%N. lia.
Qed.

Lemma pow10_le_mono a b : a <= b -> (pow10 a <= pow10 b)%N.
Proof.
  intros H. unfold pow10. apply N.pow_le_mono_r; [discriminate | lia].
Qed.

Lemma pow10_lt_mono a b : 0 <= a -> a < b -> (pow10 a < pow10 b)%N.
Proof.
  intros Ha H. unfold pow10. apply N.pow_lt_mono_r; lia.
Qed.

Lemma pow10_lt_inv a b : (pow10 a < pow10 b)%N -> a < b.
Proof.
  intros H. destruct (Z_lt_le_dec a b) as [L|L]; [assumption|].
  pose proof (pow10_le_mono b a L). lia.
Qed.

Lemma pow10_sub a b :
  0 <= b <= a -> pow10 (a - b) = (pow10 a / pow10 b)%N.
Proof.
  intros H. replace a with ((a - b) + b) at 2 by lia.
  rewrite pow10_add by lia. rewrite N.div_mul; [reflexivity | apply pow10_neq0].
Qed.

Lemma pow10_divide a b : 0 <= b <= a -> (pow10 a mod pow10 b = 0)%N.
Proof.
  intros H. replace a with ((a - b) + b) by lia.
  rewrite pow10_add by lia. apply N.Div0.mod_mul.
Qed.

(** *** The number of digits *)

Lemma digits_fuel_bounds fuel :
  forall n, (n < 2 ^ N.of_nat fuel)%N ->
    let len := N.of_nat (String.length (digits_fuel fuel n)) in
    (1 <= len /\ n < 10 ^ len /\ (n <> 0 -> 10 ^ (len - 1) <= n))%N.
Proof.
  induction fuel as [|f IH]; intros n Hn; cbn zeta.
  - change (2 ^ N.of_nat 0)%N with 1%N in Hn.
    assert (n = 0%N) by lia. subst n. cbn. lia.
  - cbn [digits_fuel]. destruct (N.ltb_spec n 10) as [L|L].
    + cbn. change (10 ^ 1)%N with 10%N. change (10 ^ (1 - 1))%N with 1%N. lia.
    + assert (Hq : (n / 10 < 2 ^ N.of_nat f)%N).
      { apply N.Div0.div_lt_upper_bound.
        rewrite Nat2N.inj_succ, N.pow_succ_r' in Hn. lia. }
      specialize (IH _ Hq). cbn zeta in IH.
      rewrite length_append. cbn [String.length].
      set (len := N.of_nat (String.length (digits_fuel f (n / 10)))) in *.
      replace (N.of_nat (String.length (digits_fuel f (n / 10)) + 1)) with (len + 1)%N
        by lia.
      destruct IH as (H1 & H2 & H3).
      assert (Hq0 : (n / 10 <> 0)%N).
      { intros E. apply N.div_small_iff in E; lia. }
      specialize (H3 Hq0).
      pose proof (N.div_mod n 10 ltac:(discriminate)) as Hdm.
      pose proof (N.mod_lt n 10 ltac:(discriminate)) as Hml.
      rewrite N.pow_add_r. change (10 ^ 1)%N with 10%N.
      replace (len + 1 - 1)%N with (len - 1 + 1)%N by lia.
      rewrite N.pow_add_r. change (10 ^ 1)%N with 10%N.
      set (X := (10 ^ (len - 1))%N) in *. set (Y := (10 ^ len)%N) in *.
      clearbody X Y len. clear Hn Hq.
      set (q := (n / 10)%N) in *. set (r := (n mod 10)%N) in *.
      clearbody q r. repeat split; lia.
Qed.

Lemma ndigits_pos n : 1 <= ndigits n.
Proof.
  unfold ndigits, digits_of.
  pose proof (digits_fuel_bounds (N.to_nat (N.size n)) n) as H.
  rewrite N2Nat.id in H. specialize (H (N.size_gt n)). cbn zeta in H. lia.
Qed.

Lemma ndigits_bounds n :
  n <> 0%N -> (pow10 (ndigits n - 1) <= n < pow10 (ndigits n))%N.
Proof.
  intros Hn. unfold ndigits, digits_of, pow10.
  pose proof (digits_fuel_bounds (N.to_nat (N.size n)) n) as H.
  rewrite N2Nat.id in H. specialize (H (N.size_gt n)). cbn zeta in H.
  set (l := String.length _) in *.
  replace (Z.to_N (Z.of_nat l - 1)) with (N.of_nat l - 1)%N by lia.
  replace (Z.to_N (Z.of_nat l)) with (N.of_nat l) by lia.
  destruct H as (H1 & H2 & H3). split; [apply H3; assumption | assumption].
Qed.

Lemma ndigits_upper n : (n < pow10 (ndigits n))%N.
Proof.
  destruct (N.eq_dec n 0) as [->|H]; [apply pow10_pos | now apply ndigits_bounds].
Qed.

Lemma ndigits_le n k : n <> 0%N -> (n < pow10 k)%N -> ndigits n <= k.
Proof.
  intros Hn H. pose proof (ndigits_bounds n Hn) as [L _].
  assert (pow10 (ndigits n - 1) < pow10 k)%N by lia.
  apply pow10_lt_inv in H0. lia.
Qed.

Lemma ndigits_ge n k : 0 <= k -> (pow10 k <= n)%N -> k + 1 <= ndigits n.
Proof.
  intros Hk H. pose proof (ndigits_upper n).
  assert (pow10 k < pow10 (ndigits n))%N by lia.
  apply pow10_lt_inv in H1. lia.
Qed.

Lemma ndigits_unique n k :
  1 <= k -> (pow10 (k - 1) <= n < pow10 k)%N -> ndigits n = k.
Proof.
  intros Hk [L U].
  assert (n <> 0%N) by (pose proof (pow10_pos (k - 1)); lia).
  pose proof (ndigits_le n k H U). pose proof (ndigits_ge n (k - 1) ltac:(lia) L).
  lia.
Qed.

Lemma ndigits_mul_pow10 n j :
  n <> 0%N -> 0 <= j -> ndigits (n * pow10 j) = ndigits n + j.
Proof.
  intros Hn Hj. pose proof (ndigits_pos n). pose proof (ndigits_bounds n Hn) as [L U].
  apply ndigits_unique; [lia|].
  replace (ndigits n + j - 1) with ((ndigits n - 1) + j) by lia.
  rewrite !pow10_add by lia. pose proof (pow10_pos j). nia.
Qed.

Lemma ndigits_pow10 k : 0 <= k -> ndigits (pow10 k) = k + 1.
Proof.
  intros Hk. apply ndigits_unique; [lia|].
  replace (k + 1 - 1) with k by lia. split; [lia|].
  apply pow10_lt_mono; lia.
Qed.

Lemma ndigits_1 : ndigits 1 = 1.
Proof. reflexivity. Qed.

(** *** Rounding that loses nothing *)

Lemma div_eucl_exact a b q : b <> 0%N -> a = (q * b)%N -> N.div_eucl a b = (q, 0%N).
Proof.
  intros Hb ->. pose proof (N.div_eucl_spec (q * b) b) as H.
  pose proof (N.mod_lt (q * b) b Hb) as Hlt. unfold N.modulo in Hlt.
  destruct (N.div_eucl (q * b) b) as [q' r']. cbn [snd] in Hlt.
  assert (r' = 0%N /\ q' = q) as [-> ->]; [|reflexivity].
  assert ((q' = q)%N) by nia. subst q'. split; lia.
Qed.

Lemma round_coeff_exact c k q :
  c = (q * pow10 k)%N -> round_coeff c k = q.
Proof.
  intros ->. unfold round_coeff, _round_half_even.
  rewrite N.Div0.mod_mul, N.div_mul by apply pow10_neq0. reflexivity.
Qed.

Lemma fix_zero p s e : _fix p (Dec s 0 e) = Dec s 0 e.
Proof. reflexivity. Qed.

Lemma round_coeff_ge c k : (c / pow10 k <= round_coeff c k)%N.
Proof.
  unfold round_coeff. destruct (0 <? _round_half_even c k); lia.
Qed.

(** [_fix] keeps a non-zero number non-zero. *)
Lemma fix_is_zero p d : 1 <= p -> is_zero (_fix p d) = is_zero d.
Proof.
  intros Hp. unfold _fix. destruct (is_zero d) eqn:Hz; [assumption|].
  unfold is_zero in Hz. apply N.eqb_neq in Hz.
  set (nd := ndigits (dint d)). destruct (Z.ltb_spec (dexp d) (nd + dexp d - p)) as [L|L].
  2:{ unfold is_zero. now apply N.eqb_neq. }
  set (k := nd + dexp d - p - dexp d).
  assert (Hk : 0 < k <= nd - 1) by (unfold k; lia).
  pose proof (ndigits_bounds _ Hz) as [Lo _]. fold nd in Lo.
  assert (H1 : (1 <= dint d / pow10 k)%N).
  { apply N.div_le_lower_bound; [apply pow10_neq0|].
    pose proof (pow10_le_mono k (nd - 1) ltac:(lia)). lia. }
  pose proof (round_coeff_ge (dint d) k) as H2.
  destruct (Z.ltb_spec p (ndigits (round_coeff (dint d) k))) as [M|M];
    unfold is_zero; cbn [dint]; apply N.eqb_neq.
  - assert (H3 : (pow10 1 <= round_coeff (dint d) k)%N).
    { assert (Hr : round_coeff (dint d) k <> 0%N) by lia.
      pose proof (ndigits_bounds _ Hr) as [Lo' _].
      pose proof (pow10_le_mono 1 (ndigits (round_coeff (dint d) k) - 1) ltac:(lia)).
      lia. }
    change (pow10 1) with 10%N in H3.
    intros E. apply N.div_small_iff in E; lia.
  - lia.
Qed.

(** A coefficient with at most [p] significant digits passes [_fix]
    with its value intact. *)
Lemma fix_exact p s c e m j :
  1 <= p -> 0 <= j -> m <> 0%N -> (m < pow10 p)%N -> c = (m * pow10 j)%N ->
  exists C E, _fix p (Dec s c e) = Dec s C E /\ e <= E /\
              (C * pow10 (E - e))%N = c /\ C <> 0%N /\ ndigits C <= p.
Proof.
  intros Hp Hj Hm Hlt ->.
  assert (Hc : (m * pow10 j)%N <> 0%N).
  { pose proof (pow10_pos j). lia. }
  pose proof (ndigits_mul_pow10 m j Hm Hj) as Hnd.
  pose proof (ndigits_le m p Hm Hlt) as Hndm.
  unfold _fix, is_zero. cbn [dint dexp dsign].
  destruct (N.eqb_spec (m * pow10 j) 0) as [E0|_]; [contradiction|].
  rewrite Hnd.
  destruct (Z.ltb_spec e (ndigits m + j + e - p)) as [L|L].
  - set (k := ndigits m + j + e - p - e).
    assert (Hk : 0 < k <= j) by (unfold k; lia).
    assert (Hsplit : (m * pow10 j = (m * pow10 (j - k)) * pow10 k)%N).
    { replace j with ((j - k) + k) at 1 by lia. rewrite pow10_add by lia. lia. }
    rewrite (round_coeff_exact _ k _ Hsplit).
    assert (Hm' : (m * pow10 (j - k))%N <> 0%N).
    { pose proof (pow10_pos (j - k)). lia. }
    rewrite (ndigits_mul_pow10 m (j - k) Hm ltac:(lia)).
    destruct (Z.ltb_spec p (ndigits m + (j - k))) as [M|M]; [unfold k in M; lia|].
    exists (m * pow10 (j - k))%N, (ndigits m + j + e - p).
    split; [reflexivity|]. split; [lia|]. split; [|split].
    + replace (ndigits m + j + e - p - e) with k by (unfold k; lia). lia.
    + assumption.
    + rewrite (ndigits_mul_pow10 m (j - k) Hm ltac:(lia)). lia.
  - exists (m * pow10 j)%N, e.
    split; [reflexivity|]. split; [lia|]. split; [|split].
    + replace (e - e) with 0 by lia. rewrite pow10_0. lia.
    + assumption.
    + rewrite Hnd. lia.
Qed.

Lemma strip_to_spec fuel :
  forall c e ideal c' e',
    strip_to fuel c e ideal = (c', e') ->
    e <= e' /\ (c' * pow10 (e' - e))%N = c /\ (c <> 0%N -> c' <> 0%N).
Proof.
  induction fuel as [|f IH]; intros c e ideal c' e' H; cbn [strip_to] in H.
  - injection H as <- <-. replace (e - e) with 0 by lia. rewrite pow10_0.
    repeat split; [lia | lia | auto].
  - destruct ((e <? ideal) && (c mod 10 =? 0)%N) eqn:T.
    + apply andb_prop in T as [_ T]. apply N.eqb_eq in T.
      apply IH in H as (H1 & H2 & H3).
      assert (Hc : c = (c / 10 * 10)%N).
      { pose proof (N.div_mod c 10 ltac:(discriminate)). lia. }
      repeat split.
      * lia.
      * replace (e' - e) with ((e' - (e + 1)) + 1) by lia.
        rewrite pow10_add by lia. change (pow10 1) with 10%N.
        rewrite N.mul_assoc, H2. lia.
      * intros Hn. apply H3. intros E. rewrite E in Hc. cbn in Hc. contradiction.
    + injection H as <- <-. replace (e - e) with 0 by lia. rewrite pow10_0.
      repeat split; [lia | lia | auto].
Qed.

(** If [C * 10^k] has at most [p] significant digits, so has [C]. *)
Lemma significant_bound p C k m J :
  0 <= k -> 0 <= J -> C <> 0%N -> m <> 0%N -> (m < pow10 p)%N ->
  (C * pow10 k = m * pow10 J)%N ->
  exists m' j', 0 <= j' /\ m' <> 0%N /\ (m' < pow10 p)%N /\ C = (m' * pow10 j')%N.
Proof.
  intros Hk HJ HC Hm Hlt H.
  destruct (Z_le_gt_dec k J) as [L|L].
  - exists m, (J - k). repeat split; try lia; try assumption.
    replace J with ((J - k) + k) in H by lia. rewrite pow10_add in H by lia.
    rewrite N.mul_assoc in H. apply N.mul_cancel_r in H; [assumption | apply pow10_neq0].
  - exists C, 0. rewrite pow10_0. repeat split; try lia.
    replace k with ((k - J) + J) in H by lia. rewrite pow10_add in H by lia.
    rewrite N.mul_assoc in H. apply N.mul_cancel_r in H; [| apply pow10_neq0].
    pose proof (pow10_pos (k - J)). nia.
Qed.

(** *** Values *)

Lemma cmp_of_up L s c1 e1 c2 e2 :
  L <= e1 -> L <= e2 -> up L c1 e1 = up L c2 e2 ->
  cmp (Dec s c1 e1) (Dec s c2 e2) = Eq.
Proof.
  unfold up, cmp, signed. cbn [dsign dint dexp]. intros H1 H2 H.
  set (m := Z.min e1 e2).
  replace (e1 - L) with ((e1 - m) + (m - L)) in H by lia.
  replace (e2 - L) with ((e2 - m) + (m - L)) in H by lia.
  rewrite !pow10_add in H by lia. rewrite !N.mul_assoc in H.
  apply N.mul_cancel_r in H; [|apply pow10_neq0].
  apply Z.compare_eq_iff. destruct s; nia.
Qed.

Lemma eqb_zero d : eqb d (of_int 0) = is_zero d.
Proof.
  unfold eqb, cmp, is_zero, signed. cbn.
  set (P := pow10 _). pose proof (pow10_pos (dexp d - Z.min (dexp d) 0)) as HP.
  fold P in HP. clearbody P.
  destruct (N.eqb_spec (dint d) 0) as [->|Hn].
  - destruct (dsign d); cbn; reflexivity.
  - destruct (dsign d).
    + destruct (Z.compare_spec (- Z.of_N (dint d) * Z.of_N P) 0); try reflexivity; nia.
    + destruct (Z.compare_spec (Z.of_N (dint d) * Z.of_N P) 0); try reflexivity; nia.
Qed.

(** *** [x % 1] *)

Lemma div_eucl_div_mod a b :
  N.div_eucl a b = ((a / b)%N, (a mod b)%N).
Proof. unfold N.div, N.modulo. now destruct (N.div_eucl a b). Qed.

Lemma adjusted_one : adjusted (of_int 1) = 0.
Proof. reflexivity. Qed.

(** [a % 1] signals exactly when the integer part of [a] has more than
    [p] digits; otherwise it is zero exactly when [a] is whole. *)
Lemma rem_one p a :
  1 <= p ->
  if (int_part a <? pow10 p)%N
  then exists r, rem p a (of_int 1) = inr r /\ is_zero r = is_whole a
  else rem p a (of_int 1) = inl DivisionImpossible.
Proof.
  intros Hp. unfold rem. rewrite adjusted_one.
  change (is_zero (of_int 1)) with false. cbn match.
  change (dexp (of_int 1)) with 0. change (dint (of_int 1)) with 1%N.
  unfold int_part, is_whole.
  set (i := Z.min (dexp a) 0). replace (0 - i) with (- i) by lia.
  rewrite N.mul_1_l, div_eucl_div_mod.
  set (op1 := (dint a * pow10 (dexp a - i))%N).
  destruct (is_zero a) eqn:Hz.
  - unfold is_zero in Hz. apply N.eqb_eq in Hz.
    assert (E1 : op1 = 0%N) by (unfold op1; rewrite Hz; reflexivity).
    rewrite E1, N.Div0.div_0_l, N.Div0.mod_0_l. cbn [orb].
    destruct (N.ltb_spec 0 (pow10 p)) as [_|C]; [|pose proof (pow10_pos p); lia].
    eexists. split; [reflexivity|].
    rewrite fix_is_zero by assumption. unfold _rescale, is_zero. rewrite Hz. reflexivity.
  - unfold is_zero in Hz. apply N.eqb_neq in Hz. cbn [orb].
    pose proof (ndigits_bounds _ Hz) as [Lo Hi].
    pose proof (ndigits_pos (dint a)) as Hnd.
    unfold adjusted. destruct (Z.leb_spec (dexp a + ndigits (dint a) - 1 - 0) (-2)) as [S|S].
    + (* |a| < 1/10 *)
      assert (Hi' : i = dexp a) by (unfold i; lia).
      assert (E1 : op1 = dint a).
      { unfold op1. rewrite Hi'. replace (dexp a - dexp a) with 0 by lia.
        rewrite pow10_0. lia. }
      assert (Hsmall : (op1 < pow10 (- i))%N).
      { rewrite E1, Hi'. pose proof (pow10_le_mono (ndigits (dint a)) (- dexp a) ltac:(lia)). lia. }
      rewrite (N.div_small _ _ Hsmall), (N.mod_small _ _ Hsmall).
      destruct (N.ltb_spec 0 (pow10 p)) as [_|C]; [|pose proof (pow10_pos p); lia].
      eexists. split; [reflexivity|].
      rewrite fix_is_zero by assumption.
      unfold _rescale, is_zero. destruct (N.eqb_spec (dint a) 0) as [C|_]; [contradiction|].
      fold i. destruct (Z.leb_spec i (dexp a)) as [_|C]; [|lia].
      cbn [dint]. fold op1. destruct (N.eqb_spec op1 0) as [C|_]; [lia|].
      reflexivity.
    + destruct (Z.leb_spec (dexp a + ndigits (dint a) - 1 - 0) p) as [T|T].
      * destruct (N.ltb_spec (op1 / pow10 (- i)) (pow10 p)) as [Q|Q].
        -- eexists. split; [reflexivity|].
           rewrite fix_is_zero by assumption. reflexivity.
        -- reflexivity.
      * (* the integer part has more than p digits *)
        destruct (N.ltb_spec (op1 / pow10 (- i)) (pow10 p)) as [Q|Q]; [|reflexivity].
        exfalso.
        assert (Hbig : (pow10 p * pow10 (- i) <= op1)%N).
        { unfold op1. destruct (Z_le_gt_dec 0 (dexp a)) as [G|G].
          - assert (Hi' : i = 0) by (unfold i; lia). rewrite Hi'.
            change (pow10 (- 0)) with 1%N. rewrite N.mul_1_r.
            replace (dexp a - 0) with (dexp a) by lia.
            pose proof (pow10_le_mono p (ndigits (dint a) - 1 + dexp a) ltac:(lia)) as M.
            rewrite pow10_add in M by lia.
            pose proof (pow10_pos (dexp a)). nia.
          - assert (Hi' : i = dexp a) by (unfold i; lia). rewrite Hi'.
            replace (dexp a - dexp a) with 0 by lia. rewrite pow10_0, N.mul_1_r.
            rewrite <- pow10_add by lia.
            pose proof (pow10_le_mono (p + - dexp a) (ndigits (dint a) - 1) ltac:(lia)).
            lia. }
        assert (pow10 p <= op1 / pow10 (- i))%N; [|lia].
        apply N.div_le_lower_bound; [apply pow10_neq0 | lia].
Qed.

(** *** Division by a power of ten *)

Lemma div_step p c m j E :
  1 <= p -> 0 <= E -> 0 <= j -> m <> 0%N -> (m < pow10 p)%N ->
  c = (m * pow10 j)%N ->
  let shift := (E + 1) - ndigits c + p + 1 in
  exists C0 J, 0 <= J /\ C0 = (m * pow10 J)%N /\
    (if 0 <=? shift
     then N.div_eucl (c * pow10 shift) (pow10 E)
     else N.div_eucl c (pow10 E * pow10 (- shift))) = (C0, 0%N) /\
    (0 <= shift -> (C0 * pow10 E = c * pow10 shift)%N) /\
    (shift < 0 -> (C0 * pow10 E * pow10 (- shift) = c)%N).
Proof.
  intros Hp HE Hj Hm Hlt Hc shift.
  pose proof (ndigits_le m p Hm Hlt) as Hndm.
  pose proof (ndigits_pos m) as Hnd1.
  assert (Hnd : ndigits c = ndigits m + j).
  { rewrite Hc. now apply ndigits_mul_pow10. }
  set (J := p + 2 - ndigits m).
  assert (HJ : 2 <= J) by (unfold J; lia).
  assert (HJs : J + E = j + shift) by (unfold J, shift; lia).
  exists (m * pow10 J)%N, J.
  split; [lia|]. split; [reflexivity|].
  assert (A : 0 <= shift -> (m * pow10 J * pow10 E = c * pow10 shift)%N).
  { intros Hs. rewrite Hc, <- !N.mul_assoc, <- !pow10_add by lia. now rewrite HJs. }
  assert (B : shift < 0 -> (m * pow10 J * pow10 E * pow10 (- shift) = c)%N).
  { intros Hs. rewrite Hc, <- !N.mul_assoc, <- !pow10_add by lia.
    f_equal. f_equal. lia. }
  split; [|split; assumption].
  destruct (Z.leb_spec 0 shift) as [Hs|Hs].
  - apply div_eucl_exact; [apply pow10_neq0|]. symmetry. now apply A.
  - apply div_eucl_exact.
    + pose proof (pow10_pos E). pose proof (pow10_pos (- shift)). nia.
    + rewrite N.mul_assoc. symmetry. now apply B.
Qed.

(** A number with at most [p] significant digits is divided by a power
    of ten without loss, whatever the representation the quotient takes. *)
Lemma truediv_pow10_exact p a E :
  1 <= p -> 0 <= E -> significant p a ->
  exists R, truediv p a (Dec false (pow10 E) 0) = inr R /\
            dsign R = dsign a /\ is_quotient R a (pow10 E) /\
            significant p R.
Proof.
  intros Hp HE (m & j & Hj & Hlt & Hc).
  unfold truediv. unfold is_zero at 1. cbn [dint dexp dsign].
  destruct (N.eqb_spec (pow10 E) 0) as [C|_]; [now apply pow10_neq0 in C|].
  rewrite xorb_false_r. unfold is_zero.
  destruct (N.eqb_spec (dint a) 0) as [Hz|Hz].
  - rewrite fix_zero. eexists. split; [reflexivity|]. split; [reflexivity|].
    split.
    + unfold is_quotient, scaled. cbn [dsign dint dexp].
      destruct a as [s c q]. cbn [dsign dint dexp] in *. clear Hc. subst c.
      replace (q - 0) with q by lia.
      apply (cmp_of_up q); try lia. unfold up. lia.
    + exists 0%N, 0. split; [lia|]. split; [apply pow10_pos | reflexivity].
  - assert (Hm : m <> 0%N) by (intros ->; rewrite Hc in Hz; now apply Hz).
    rewrite ndigits_pow10 by assumption.
    destruct (div_step p (dint a) m j E Hp HE Hj Hm Hlt Hc)
      as (C0 & J & HJ & HC0 & Hdiv & HA & HB).
    cbn zeta in Hdiv, HA, HB.
    set (shift := E + 1 - ndigits (dint a) + p + 1) in *.
    rewrite Hdiv. cbn [N.eqb]. replace (dexp a - 0) with (dexp a) by lia.
    set (exp0 := dexp a - shift).
    destruct (strip_to (Z.to_nat (dexp a - exp0)) C0 exp0 (dexp a)) as [C1 e1] eqn:Hs.
    apply strip_to_spec in Hs as (Hs1 & Hs2 & Hs3).
    assert (HC0n : C0 <> 0%N).
    { rewrite HC0. pose proof (pow10_pos J). lia. }
    specialize (Hs3 HC0n).
    destruct (significant_bound p C1 (e1 - exp0) m J ltac:(lia) HJ Hs3 Hm Hlt)
      as (m' & j' & Hj' & Hm' & Hlt' & HC1).
    { rewrite Hs2. exact HC0. }
    destruct (fix_exact p (dsign a) C1 e1 m' j' Hp Hj' Hm' Hlt' HC1)
      as (C2 & e2 & Hfix & He2 & HC2 & HC2n & HC2d).
    rewrite Hfix. eexists. split; [reflexivity|]. split; [reflexivity|].
    split.
    + unfold is_quotient, scaled. cbn [dsign dint dexp].
      destruct a as [s c q]. cbn [dsign dint dexp] in *.
      assert (Hup : (C2 * pow10 (e2 - exp0) = C0)%N).
      { replace (e2 - exp0) with ((e2 - e1) + (e1 - exp0)) by lia.
        rewrite pow10_add by lia. rewrite N.mul_assoc, HC2. exact Hs2. }
      destruct (Z_le_gt_dec 0 shift) as [G|G].
      * apply (cmp_of_up exp0); try (unfold exp0; lia).
        unfold up. replace (q - exp0) with shift by (unfold exp0; lia).
        rewrite <- (HA G), <- Hup. ring.
      * apply (cmp_of_up q); try (unfold exp0 in *; lia).
        unfold up. replace (q - q) with 0 by lia. rewrite pow10_0, N.mul_1_r.
        replace (e2 - q) with ((e2 - exp0) + (- shift)) by (unfold exp0; lia).
        rewrite pow10_add by (unfold exp0 in *; lia).
        pose proof (HB ltac:(lia)) as HB'. rewrite <- Hup in HB'.
        rewrite <- HB'. ring.
    + exists C2, 0. rewrite pow10_0, N.mul_1_r.
      split; [lia|]. split; [|reflexivity].
      pose proof (ndigits_upper C2). pose proof (pow10_le_mono (ndigits C2) p HC2d). lia.
Qed.

(** *** Division by a power of ten when every digit fits *)

Lemma ndigits_mono c c' : c' <> 0%N -> (c' <= c)%N -> ndigits c' <= ndigits c.
Proof.
  intros Hn Hle. apply ndigits_le; [assumption|].
  pose proof (ndigits_upper c). lia.
Qed.

Lemma fix_id p d : ndigits (dint d) <= p -> _fix p d = d.
Proof.
  intros H. unfold _fix. destruct (is_zero d); [reflexivity|].
  destruct (Z.ltb_spec (dexp d) (ndigits (dint d) + dexp d - p)); [lia | reflexivity].
Qed.

Lemma strip_to_prefix (k : nat) :
  forall f c e ideal,
    e <= ideal ->
    strip_to (k + f) (c * pow10 (Z.of_nat k)) (e - Z.of_nat k) ideal
      = strip_to f c e ideal.
Proof.
  induction k as [|k IH]; intros f c e ideal He.
  - cbn [Nat.add Z.of_nat]. rewrite pow10_0, N.mul_1_r, Z.sub_0_r. reflexivity.
  - cbn [Nat.add strip_to].
    replace (Z.of_nat (S k)) with (Z.of_nat k + 1) by lia.
    rewrite pow10_succ by lia.
    replace (c * (10 * pow10 (Z.of_nat k)))%N with (c * pow10 (Z.of_nat k) * 10)%N by lia.
    rewrite N.Div0.mod_mul, N.div_mul by discriminate.
    destruct (Z.ltb_spec (e - (Z.of_nat k + 1)) ideal) as [_|C]; [|lia].
    cbn [andb N.eqb].
    replace (e - (Z.of_nat k + 1) + 1) with (e - Z.of_nat k) by lia.
    now apply IH.
Qed.

Lemma strip_to_le fuel :
  forall c e ideal c' e',
    strip_to fuel c e ideal = (c', e') -> e <= ideal -> e' <= ideal.
Proof.
  induction fuel as [|f IH]; intros c e ideal c' e' H He; cbn [strip_to] in H.
  - injection H as _ <-. exact He.
  - destruct (Z.ltb_spec e ideal) as [L|L]; cbn [andb] in H.
    + destruct (c mod 10 =? 0)%N.
      * apply IH in H; [exact H | lia].
      * injection H as _ <-. exact He.
    + injection H as _ <-. exact He.
Qed.

(** The quotient of [a] by [10^E] when the coefficient of [a] has at
    most [p] digits: the coefficient itself, less the trailing zeros
    that bring the exponent back towards that of [a]. *)
Lemma truediv_pow10_fits p a E :
  1 <= p -> 0 <= E -> is_zero a = false -> ndigits (dint a) <= p ->
  truediv p a (Dec false (pow10 E) 0)
    = inr (let (c', e') :=
             strip_to (Z.to_nat E) (dint a) (dexp a - E) (dexp a) in
           Dec (dsign a) c' e').
Proof.
  intros Hp HE Hz Hfit. unfold truediv. unfold is_zero at 1.
  cbn [dint dexp dsign].
  destruct (N.eqb_spec (pow10 E) 0) as [C|_]; [now apply pow10_neq0 in C|].
  rewrite Hz, xorb_false_r, ndigits_pow10 by assumption.
  set (shift := E + 1 - ndigits (dint a) + p + 1).
  pose proof (ndigits_pos (dint a)) as Hnd.
  assert (Hs : E + 2 <= shift) by (unfold shift; lia).
  destruct (Z.leb_spec 0 shift) as [_|C]; [|lia].
  rewrite (div_eucl_exact _ _ (dint a * pow10 (shift - E))%N (pow10_neq0 E)).
  2:{ rewrite <- !N.mul_assoc, <- pow10_add by lia. do 2 f_equal. lia. }
  cbn [N.eqb].
  assert (Hpre : strip_to (Z.to_nat (dexp a - 0 - (dexp a - 0 - shift)))
                   (dint a * pow10 (shift - E)) (dexp a - 0 - shift) (dexp a - 0)
                 = strip_to (Z.to_nat E) (dint a) (dexp a - E) (dexp a)).
  { set (k := Z.to_nat (shift - E)).
    replace (Z.to_nat (dexp a - 0 - (dexp a - 0 - shift)))
      with (k + Z.to_nat E)%nat by lia.
    replace (shift - E) with (Z.of_nat k) by lia.
    replace (dexp a - 0 - shift) with (dexp a - E - Z.of_nat k) by lia.
    replace (dexp a - 0) with (dexp a) by lia.
    apply strip_to_prefix. lia. }
  rewrite Hpre.
  destruct (strip_to (Z.to_nat E) (dint a) (dexp a - E) (dexp a)) as [c' e'] eqn:Hst.
  apply strip_to_spec in Hst as (_ & Hc & Hn).
  unfold is_zero in Hz. apply N.eqb_neq in Hz. specialize (Hn Hz).
  f_equal. apply fix_id. cbn [dint].
  pose proof (ndigits_mono (dint a) c' Hn) as Hm.
  assert (c' <= dint a)%N.
  { pose proof (pow10_pos (e' - (dexp a - E))). nia. }
  lia.
Qed.

Lemma whole_significant p a :
  is_whole a = true -> (int_part a < pow10 p)%N -> significant p a.
Proof.
  unfold is_whole, int_part, significant. set (i := Z.min (dexp a) 0).
  intros Hw Hi. apply N.eqb_eq in Hw.
  destruct (Z_le_gt_dec 0 (dexp a)) as [G|G].
  - assert (E : i = 0) by (unfold i; lia). rewrite E in *.
    change (pow10 (- 0)) with 1%N in Hi. rewrite N.div_1_r in Hi.
    replace (dexp a - 0) with (dexp a) in Hi by lia.
    exists (dint a), 0. rewrite pow10_0, N.mul_1_r.
    split; [lia|]. split; [|reflexivity].
    pose proof (pow10_pos (dexp a)). nia.
  - assert (E : i = dexp a) by (unfold i; lia). rewrite E in *.
    replace (dexp a - dexp a) with 0 in * by lia.
    rewrite pow10_0, N.mul_1_r in *.
    exists (dint a / pow10 (- dexp a))%N, (- dexp a).
    split; [lia|]. split; [assumption|].
    pose proof (N.div_mod (dint a) (pow10 (- dexp a)) (pow10_neq0 _)) as H.
    rewrite Hw in H. lia.
Qed.

(** *** [normalize] and the length of [str] *)

Lemma strip_zeros_nonzero fuel :
  forall c e, c <> 0%N -> fst (strip_zeros fuel c e) <> 0%N.
Proof.
  induction fuel as [|f IH]; intros c e Hc; cbn [strip_zeros]; [exact Hc|].
  destruct (N.eqb_spec (c mod 10) 0) as [E|E]; [|exact Hc].
  apply IH. intros Hq.
  pose proof (N.div_mod c 10 ltac:(discriminate)) as H. rewrite Hq, E in H.
  cbn in H. contradiction.
Qed.

Lemma normalize_is_zero p d : 1 <= p -> is_zero (normalize p d) = is_zero d.
Proof.
  intros Hp. unfold normalize. rewrite <- (fix_is_zero p d Hp).
  destruct (is_zero (_fix p d)) eqn:Hz; [reflexivity|].
  pose proof (strip_zeros_nonzero (N.to_nat (N.size (dint (_fix p d))))
                (dint (_fix p d)) (dexp (_fix p d))) as H.
  destruct (strip_zeros _ _ _) as [c e]. cbn [fst] in H.
  unfold is_zero in *. cbn [dint]. apply N.eqb_neq. apply H. now apply N.eqb_neq.
Qed.

Lemma normalize_zero p d : is_zero d = true -> is_zero (normalize p d) = true.
Proof.
  intros Hz. unfold normalize, _fix. rewrite Hz, Hz. reflexivity.
Qed.

Lemma strip_zeros_spec fuel :
  forall c e c' e',
    strip_zeros fuel c e = (c', e') ->
    e <= e' /\ (c' * pow10 (e' - e))%N = c.
Proof.
  induction fuel as [|f IH]; intros c e c' e' H; cbn [strip_zeros] in H.
  - injection H as <- <-. replace (e - e) with 0 by lia.
    rewrite pow10_0. split; lia.
  - destruct (N.eqb_spec (c mod 10) 0) as [T|T].
    + apply IH in H as (H1 & H2).
      assert (Hc : c = (c / 10 * 10)%N).
      { pose proof (N.div_mod c 10 ltac:(discriminate)). lia. }
      split; [lia|].
      replace (e' - e) with ((e' - (e + 1)) + 1) by lia.
      rewrite pow10_add by lia. change (pow10 1) with 10%N.
      rewrite N.mul_assoc, H2. lia.
    + injection H as <- <-. replace (e - e) with 0 by lia.
      rewrite pow10_0. split; lia.
Qed.

(** [normalize] of a number whose digits fit the precision keeps the
    sign and the value. *)
Lemma normalize_fits p d :
  ndigits (dint d) <= p -> is_zero d = false ->
  exists c e, normalize p d = Dec (dsign d) c e /\ dexp d <= e /\
              (c * pow10 (e - dexp d))%N = dint d /\ c <> 0%N.
Proof.
  intros Hfit Hz. unfold normalize. rewrite (fix_id p d Hfit), Hz.
  destruct (strip_zeros (N.to_nat (N.size (dint d))) (dint d) (dexp d))
    as [c e] eqn:Hs.
  pose proof (strip_zeros_nonzero (N.to_nat (N.size (dint d))) (dint d) (dexp d)) as Hn.
  rewrite Hs in Hn. cbn [fst] in Hn.
  apply strip_zeros_spec in Hs as (H1 & H2).
  exists c, e. split; [reflexivity|]. split; [assumption|]. split; [assumption|].
  apply Hn. unfold is_zero in Hz. now apply N.eqb_neq.
Qed.

Lemma substring_length s :
  forall n m, String.length (substring n m s) = Nat.min m (String.length s - n).
Proof.
  induction s as [|c s IH]; intros n m.
  - destruct n, m; reflexivity.
  - destruct n as [|n]; destruct m as [|m]; cbn [substring String.length].
    + reflexivity.
    + rewrite IH. cbn. now rewrite Nat.sub_0_r.
    + rewrite IH. reflexivity.
    + rewrite IH. reflexivity.
Qed.

Lemma str_len_append a b : str_len (a ++ b) = str_len a + str_len b.
Proof. unfold str_len. rewrite length_append. lia. Qed.

Lemma str_len_nonneg a : 0 <= str_len a.
Proof. unfold str_len. lia. Qed.

Lemma str_len_take k s : 0 <= k <= str_len s -> str_len (take k s) = k.
Proof. unfold str_len, take. rewrite substring_length. lia. Qed.

Lemma str_len_drop k s : 0 <= k <= str_len s -> str_len (drop k s) = str_len s - k.
Proof. unfold str_len, drop. rewrite substring_length. lia. Qed.

(** The text of a decimal shows every digit of its coefficient. *)
Lemma to_str_length d : ndigits (dint d) <= str_len (to_str d).
Proof.
  unfold to_str. change (str_len (digits_of (dint d))) with (ndigits (dint d)).
  set (int := digits_of (dint d)). set (n := ndigits (dint d)).
  assert (Hn : str_len int = n) by reflexivity.
  set (dotplace := if (dexp d <=? 0) && (-6 <? dexp d + n) then dexp d + n else 1).
  pose proof (str_len_nonneg (if dsign d then "-"%string else ""%string)).
  pose proof (str_len_nonneg
                (if dexp d + n =? dotplace then ""%string
                 else ("E" ++ signed_text (dexp d + n - dotplace))%string)).
  pose proof (ndigits_pos (dint d)). fold n in H1.
  destruct (Z.leb_spec dotplace 0) as [L|L].
  - rewrite !str_len_append.
    pose proof (str_len_nonneg (zeros (- dotplace))).
    change (str_len "0") with 1. change (str_len ".") with 1. lia.
  - destruct (Z.leb_spec n dotplace) as [M|M].
    + rewrite !str_len_append.
      pose proof (str_len_nonneg (zeros (dotplace - n))).
      change (str_len "") with 0. lia.
    + rewrite !str_len_append, str_len_take, str_len_drop by lia.
      change (str_len ".") with 1. lia.
Qed.

Lemma to_str_nonempty d : 1 <= str_len (to_str d).
Proof. pose proof (to_str_length d). pose proof (ndigits_pos (dint d)). lia. Qed.

End PyDecimalFacts.

(* ------------------------------------------------------------------ *)
(** ** Properties of [Dinero] *)

Module DineroFacts.

Import PyDecimal Py Reading PyDecimalFacts DineroModel.
Local Open Scope py_scope.

Ltac run_py :=
  unfold bind, ret, raise, check, signal, get_prec, set_prec in *.

Lemma bind_return {A B} (m : M A) (k : A -> M B) a p p' :
  m p = (Return a, p') -> bind m k p = k a p'.
Proof. intros H. unfold bind. now rewrite H. Qed.

Lemma bind_raise {A B} (m : M A) (k : A -> M B) e p p' :
  m p = (Raise e, p') -> bind m k p = (Raise e, p').
Proof. intros H. unfold bind. now rewrite H. Qed.

Lemma numeric_value_valid x v p :
  numeric_value x = Some v ->
  dinero_amount x p = (Return tt, p) /\ to_decimal x p = (Return v, p) /\
  is_dinero x = false.
Proof.
  destruct x; cbn; intros H; try discriminate.
  - injection H as <-. repeat split.
  - rewrite H. repeat split.
  - rewrite H. repeat split.
  - injection H as <-. repeat split.
Qed.

Lemma from_major_numeric x v cur p :
  numeric_value x = Some v ->
  from_major x cur p = (Return {| amount := v; currency := cur |}, p).
Proof.
  intros H. destruct (numeric_value_valid x v p H) as (H1 & H2 & _).
  unfold from_major, __init__, bind. rewrite H1, H2. reflexivity.
Qed.

Lemma get_instance_numeric self x v p :
  numeric_value x = Some v ->
  _get_instance self x p
    = (Return {| amount := v; currency := currency self |}, p).
Proof.
  intros H. unfold _get_instance.
  rewrite (bind_return _ _ {| amount := v; currency := currency self |} p p).
  - unfold code_of. cbn [currency]. unfold check. rewrite String.eqb_refl.
    reflexivity.
  - destruct x; try discriminate H; now apply from_major_numeric.
Qed.

Lemma ten_to_eq e : ten_to e = Dec false (pow10 (Z.of_N e)) 0.
Proof.
  unfold ten_to, of_int, pow10. rewrite N2Z.id, Zabs2N.id.
  destruct (Z.ltb_spec (Z.of_N (10 ^ e)) 0) as [C|_]; [lia | reflexivity].
Qed.

(** What [from_minor] computes when the integer part of the input fits
    the context precision. *)
Lemma from_minor_eval x a cur p :
  1 <= p -> numeric_value x = Some a -> (int_part a < pow10 p)%N ->
  from_minor x cur p
    = if is_whole a then
        match truediv p a (ten_to (exponent cur)) with
        | inr R => (Return {| amount := R; currency := cur |}, p)
        | inl c => (Raise (DecimalException c), p)
        end
      else (Raise ValueError, p).
Proof.
  intros Hp Hx Hi.
  destruct (numeric_value_valid x a p Hx) as (H1 & H2 & _).
  unfold from_minor.
  rewrite (bind_return _ _ _ _ _ H1), (bind_return _ _ _ _ _ H2).
  rewrite (bind_return _ _ _ _ _ (eq_refl : get_prec p = (Return p, p))).
  pose proof (rem_one p a Hp) as Hr.
  apply N.ltb_lt in Hi. rewrite Hi in Hr. destruct Hr as (r & Hr & Hrz).
  rewrite Hr. unfold signal at 1.
  rewrite (bind_return _ _ _ _ _ (eq_refl : ret r p = (Return r, p))).
  rewrite eqb_zero, Hrz.
  destruct (is_whole a); [|reflexivity].
  unfold check.
  rewrite (bind_return _ _ _ _ _ (eq_refl : ret tt p = (Return tt, p))).
  destruct (truediv p a (ten_to (exponent cur))) as [c|R]; reflexivity.
Qed.

(** What [from_fractional_minor] computes when every digit of the input
    fits the context precision. *)
Lemma from_fractional_minor_fits x a cur p :
  1 <= p -> numeric_value x = Some a -> is_zero a = false ->
  ndigits (dint a) <= p ->
  from_fractional_minor x cur p
    = (Return
         {| amount :=
              (let (c', e') :=
                 strip_to (N.to_nat (exponent cur)) (dint a)
                          (dexp a - Z.of_N (exponent cur)) (dexp a) in
               Dec (dsign a) c' e');
            currency := cur |}, p).
Proof.
  intros Hp Hx Hz Hfit.
  destruct (numeric_value_valid x a p Hx) as (H1 & H2 & _).
  unfold from_fractional_minor.
  rewrite (bind_return _ _ _ _ _ H1), (bind_return _ _ _ _ _ H2).
  rewrite (bind_return _ _ _ _ _ (eq_refl : get_prec p = (Return p, p))).
  rewrite ten_to_eq, (truediv_pow10_fits p a _ Hp (N2Z.is_nonneg _) Hz Hfit).
  replace (Z.to_nat (Z.of_N (exponent cur))) with (N.to_nat (exponent cur)) by lia.
  reflexivity.
Qed.

(** [to_minor_units] on an amount whose exponent lies between
    [-exponent] and 0: the amount counted in minor units, exactly. *)
Lemma to_minor_units_exact self p :
  - exponent_of self <= dexp (amount self) <= 0 ->
  to_minor_units self p
    = (Return (signed (Dec (dsign (amount self))
                           (dint (amount self)
                            * pow10 (dexp (amount self) + exponent_of self)) 0)),
       working_precision self).
Proof.
  intros He. unfold to_minor_units.
  set (R := amount self) in *. set (e := exponent_of self) in *.
  set (p' := working_precision self).
  set (M := (dint R * pow10 (dexp R + e))%N).
  assert (Hp' : str_len (to_str R) + e <= p') by (unfold p', working_precision; fold R e; lia).
  pose proof (to_str_length R) as Hlen.
  pose proof (ndigits_pos (dint R)) as Hnd.
  assert (He0 : 0 <= e) by (unfold e, exponent_of; lia).
  (* the quantized amount *)
  assert (Hq : _normalize self true p = (Return (Dec (dsign R) M (- e)), p')).
  { unfold _normalize, bind, set_prec, get_prec. cbn beta iota.
    change (Z.max (precision self) (str_len (to_str (amount self)) + exponent_of self))
      with p'.
    fold R e.
    destruct (is_zero R) eqn:Hz.
    - assert (HM : M = 0%N).
      { unfold M. unfold is_zero in Hz. apply N.eqb_eq in Hz. now rewrite Hz. }
      unfold normalize, _fix. rewrite Hz, Hz.
      unfold quantize, is_zero. cbn [dint dsign dexp N.eqb].
      rewrite HM. reflexivity.
    - destruct (normalize_fits p' R ltac:(lia) Hz) as (c & e' & Hn & He' & Hc & Hcn).
      rewrite Hn. unfold quantize, is_zero, adjusted. cbn [dint dsign dexp].
      destruct (N.eqb_spec c 0) as [C|_]; [contradiction|].
      assert (Hndc : ndigits (dint R) = ndigits c + (e' - dexp R)).
      { rewrite <- Hc. apply ndigits_mul_pow10; [assumption | lia]. }
      destruct (Z.ltb_spec p' (e' + ndigits c - 1 - - e + 1)) as [C|_]; [lia|].
      unfold _rescale, is_zero. cbn [dint dsign dexp].
      destruct (N.eqb_spec c 0) as [C|_]; [contradiction|].
      destruct (Z.leb_spec (- e) e') as [_|C]; [|lia]. cbn [dint].
      assert (HM : (c * pow10 (e' - - e))%N = M).
      { unfold M. rewrite <- Hc, <- N.mul_assoc, <- pow10_add by lia.
        do 2 f_equal. lia. }
      rewrite HM.
      assert (HndM : ndigits M = ndigits (dint R) + (dexp R + e)).
      { unfold M. apply ndigits_mul_pow10; [|lia].
        unfold is_zero in Hz. now apply N.eqb_neq. }
      destruct (Z.ltb_spec p' (ndigits M)) as [C|_]; [lia|].
      unfold signal, ret. rewrite fix_id by (cbn [dint]; lia). reflexivity. }
  rewrite (bind_return _ _ _ _ _ Hq).
  rewrite (bind_return _ _ _ _ _ (eq_refl : get_prec p' = (Return p', p'))).
  unfold ret. f_equal. f_equal.
  rewrite ten_to_eq. unfold mul. cbn [dsign dint dexp].
  rewrite xorb_false_r. unfold exponent_of in e. fold e.
  replace (- e + 0) with (- e) by lia.
  destruct (N.eq_dec M 0) as [HM|HM].
  - rewrite HM. cbn [N.mul]. rewrite fix_zero. unfold to_int, signed.
    cbn [dint dexp dsign].
    destruct (0 <=? - e); cbn; destruct (dsign R); reflexivity.
  - assert (HMlt : (M < pow10 p')%N).
    { unfold M. assert (Hz : dint R <> 0%N) by (intros C; apply HM; unfold M; now rewrite C).
      pose proof (ndigits_mul_pow10 (dint R) (dexp R + e) Hz ltac:(lia)) as HndM.
      fold M in HndM. pose proof (ndigits_upper M).
      pose proof (pow10_le_mono (ndigits M) p' ltac:(lia)). fold M. lia. }
    destruct (fix_exact p' (dsign R) (M * pow10 e) (- e) M e
                ltac:(lia) He0 HM HMlt eq_refl)
      as (C & E' & Hfix & HE' & HC & HCn & _).
    rewrite Hfix. unfold to_int, signed. cbn [dint dexp dsign].
    assert (Hval : (if 0 <=? E' then (C * pow10 E')%N else (C / pow10 (- E'))%N) = M).
    { destruct (Z.leb_spec 0 E') as [G|G].
      - replace (E' - - e) with (E' + e) in HC by lia.
        rewrite pow10_add, N.mul_assoc in HC by lia.
        apply N.mul_cancel_r in HC; [assumption | apply pow10_neq0].
      - replace e with ((- E') + (E' - - e)) in HC at 2 by lia.
        rewrite pow10_add, N.mul_assoc in HC by lia.
        apply N.mul_cancel_r in HC; [|apply pow10_neq0].
        rewrite HC. apply N.div_mul. apply pow10_neq0. }
    rewrite Hval. reflexivity.
Qed.

(** Within the context precision the round trip through minor units is
    the identity, for every currency. *)
Lemma round_trip_within_precision m cur p :
  1 <= p -> Z.abs m < Z.of_N (pow10 p) ->
  exists p', (d <- from_minor (OInt m) cur ;; to_minor_units d) p = (Return m, p').
Proof.
  intros Hp Hm.
  set (a := of_int m).
  assert (Hint : int_part a = Z.abs_N m).
  { unfold int_part, a, of_int. cbn [dint dexp]. cbn [Z.min Z.compare Z.sub Z.opp Z.add].
    rewrite pow10_0, N.mul_1_r. apply N.div_1_r. }
  assert (Hwhole : is_whole a = true).
  { unfold is_whole, a, of_int. cbn [dint dexp]. cbn [Z.min Z.compare Z.sub Z.opp Z.add].
    rewrite pow10_0, N.mod_1_r. reflexivity. }
  assert (Hfit : (int_part a < pow10 p)%N) by (rewrite Hint; lia).
  pose proof (from_minor_eval (OInt m) a cur p Hp eq_refl Hfit) as Hev.
  rewrite Hwhole in Hev.
  set (E := Z.of_N (exponent cur)).
  destruct (Z.eq_dec m 0) as [->|Hnz].
  - change (truediv p a (ten_to (exponent cur)))
      with (truediv p (Dec false 0 0) (ten_to (exponent cur))) in Hev.
    rewrite ten_to_eq in Hev. unfold truediv, is_zero in Hev.
    cbn [dint dexp dsign N.eqb xorb] in Hev.
    destruct (N.eqb_spec (pow10 (Z.of_N (exponent cur))) 0) as [C|_];
      [now apply pow10_neq0 in C|].
    rewrite fix_zero in Hev.
    rewrite (bind_return _ _ _ _ _ Hev).
    rewrite to_minor_units_exact by (unfold exponent_of; cbn; lia).
    eexists. reflexivity.
  - assert (Hz : is_zero a = false).
    { unfold is_zero, a, of_int. cbn [dint]. apply N.eqb_neq. lia. }
    assert (Hnd : ndigits (dint a) <= p).
    { apply ndigits_le; unfold a, of_int; cbn [dint]; lia. }
    rewrite ten_to_eq in Hev. fold E in Hev.
    rewrite (truediv_pow10_fits p a E Hp (N2Z.is_nonneg _) Hz Hnd) in Hev.
    destruct (strip_to (Z.to_nat E) (dint a) (dexp a - E) (dexp a)) as [c' e'] eqn:Hst.
    pose proof (strip_to_le _ _ _ _ _ _ Hst ltac:(unfold E; cbn [dexp a of_int]; lia)) as Hle.
    apply strip_to_spec in Hst as (Hge & Hc & _).
    cbn [dexp dint dsign a of_int] in *.
    rewrite (bind_return _ _ _ _ _ Hev).
    rewrite to_minor_units_exact by (unfold exponent_of; cbn [amount currency dexp]; fold E; lia).
    eexists. f_equal. f_equal. unfold signed, exponent_of.
    cbn [amount currency dsign dint dexp]. fold E.
    replace (e' + E) with (e' - (0 - E)) by lia. rewrite Hc.
    replace (if m <? 0 then - Z.of_N (Z.abs_N m) else Z.of_N (Z.abs_N m)) with m
      by (destruct (Z.ltb_spec m 0); lia).
    reflexivity.
Qed.

(** The currency guard: with different codes, [add], [subtract] and
    [equals_to] raise [DifferentCurrencyError] before any arithmetic; the
    ordering methods do once [self] has been quantized. *)
Lemma get_instance_mismatch a b p :
  code_of a <> code_of b ->
  _get_instance a (ODinero b) p = (Raise DifferentCurrencyError, p).
Proof.
  intros H. unfold _get_instance.
  rewrite (bind_return _ _ _ _ _ (eq_refl : ret b p = (Return b, p))).
  apply bind_raise. unfold check.
  destruct (String.eqb_spec (code_of b) (code_of a)) as [E|_]; [|reflexivity].
  now rewrite E in H.
Qed.

Lemma currency_guard a b p :
  code_of a <> code_of b ->
  add a (ODinero b) p = (Raise DifferentCurrencyError, p) /\
  subtract a (ODinero b) p = (Raise DifferentCurrencyError, p) /\
  equals_to a (ODinero b) p = (Raise DifferentCurrencyError, p) /\
  forall rel n p',
    _normalize a true p = (Return n, p') ->
    ordering rel a (ODinero b) p = (Raise DifferentCurrencyError, p').
Proof.
  intros H. repeat split.
  - unfold add, __add__.
    rewrite (bind_return _ _ _ _ _
               (eq_refl : addition_and_subtraction_amount (ODinero b) p
                          = (Return tt, p))).
    apply bind_raise. now apply get_instance_mismatch.
  - unfold subtract, __sub__.
    rewrite (bind_return _ _ _ _ _
               (eq_refl : addition_and_subtraction_amount (ODinero b) p
                          = (Return tt, p))).
    apply bind_raise. now apply get_instance_mismatch.
  - unfold equals_to, __eq__.
    rewrite (bind_return _ _ _ _ _
               (eq_refl : check (is_dinero (ODinero b)) InvalidOperationError p
                          = (Return tt, p))).
    apply bind_raise. now apply get_instance_mismatch.
  - intros rel n p' Hn. unfold ordering.
    rewrite (bind_return _ _ _ _ _
               (eq_refl : check (is_dinero (ODinero b)) InvalidOperationError p
                          = (Return tt, p))).
    rewrite (bind_return _ _ _ _ _ Hn).
    apply bind_raise. now apply get_instance_mismatch.
Qed.

(** When both quantizations return, [equals_to] compares the quantized
    amounts numerically. *)
Lemma equals_to_quantized a b p n1 n2 p1 p2 :
  code_of b = code_of a ->
  _normalize b true p = (Return n2, p2) ->
  _normalize a true p2 = (Return n1, p1) ->
  equals_to a (ODinero b) p = (Return (PyDecimal.eqb n1 n2), p1).
Proof.
  intros Hc H2 H1. unfold equals_to, __eq__.
  rewrite (bind_return _ _ _ _ _
             (eq_refl : check (is_dinero (ODinero b)) InvalidOperationError p
                        = (Return tt, p))).
  assert (Hg : _get_instance a (ODinero b) p = (Return b, p)).
  { unfold _get_instance.
    rewrite (bind_return _ _ _ _ _ (eq_refl : ret b p = (Return b, p))).
    unfold check. rewrite Hc, String.eqb_refl. reflexivity. }
  rewrite (bind_return _ _ _ _ _ Hg), (bind_return _ _ _ _ _ H2),
    (bind_return _ _ _ _ _ H1).
  reflexivity.
Qed.

(** Amounts that differ below the currency's precision compare equal. *)
Lemma equals_to_below_precision :
  fst (run (a <- from_major (OStr "1.001") USD ;;
            b <- from_major (OStr "1.004") USD ;;
            equals_to a (ODinero b))) = Return true /\
  fst (run (a <- from_major (OStr "1.001") USD ;;
            b <- from_major (OStr "1.006") USD ;;
            equals_to a (ODinero b))) = Return false.
Proof. split; vm_compute; reflexivity. Qed.

(** The sum is rounded to the precision the right operand has set:
    one cent added to 123,456,789,012.34 is lost with the cents. *)
Lemma add_rounds_to_operand_precision :
  fst (run (a <- from_major (OStr "123456789012.34") USD ;;
            s <- add a (OStr "0.01") ;;
            format s false false)) = Return "123,456,789,000.00"%string.
Proof. vm_compute. reflexivity. Qed.

(** The rows of [test_calculate_vat]: each expected amount is the tax
    contained in the gross amount. *)
Lemma vat_test_rows :
  fst (run (a <- from_major (OInt 50) EUR ;;
            net <- divide a (OFloat "1.21") ;;
            v <- subtract a (ODinero net) ;;
            t <- from_major (OStr "8.68") EUR ;;
            equals_to v (ODinero t))) = Return true /\
  fst (run (a <- from_major (OInt 500) CLP ;;
            net <- divide a (OFloat "1.19") ;;
            v <- subtract a (ODinero net) ;;
            t <- from_major (OStr "80") CLP ;;
            equals_to v (ODinero t))) = Return true.
Proof. split; vm_compute; reflexivity. Qed.

Lemma normalize_state self q p :
  snd (_normalize self q p) = working_precision self.
Proof.
  unfold _normalize, working_precision. run_py.
  destruct q; [|reflexivity].
  destruct (quantize _ _ _); reflexivity.
Qed.

Lemma working_precision_pos self : 1 <= working_precision self.
Proof.
  unfold working_precision, exponent_of.
  pose proof (to_str_nonempty (amount self)). lia.
Qed.

Lemma normalize_plain self p :
  _normalize self false p =
  (Return (normalize (working_precision self) (amount self)),
   working_precision self).
Proof. reflexivity. Qed.

End DineroFacts.

(* ------------------------------------------------------------------ *)
(** ** Further facts *)

Module MoreFacts.

Import PyDecimal Py Reading PyDecimalFacts DineroModel DineroFacts DineroOutput.
Local Open Scope py_scope.

(** *** Quantization *)

Lemma rescale_exp d e : dexp (_rescale d e) = e.
Proof.
  unfold _rescale. destruct (is_zero d); [reflexivity|].
  destruct (e <=? dexp d); reflexivity.
Qed.

Lemma rescale_sign d e : dsign (_rescale d e) = dsign d.
Proof.
  unfold _rescale. destruct (is_zero d); [reflexivity|].
  destruct (e <=? dexp d); reflexivity.
Qed.

(** A quantization that returns is the rescaled number, and fits. *)
Lemma quantize_inv p n e q :
  1 <= p -> quantize p n (Dec false 1 e) = inr q ->
  q = _rescale n e /\ ndigits (dint q) <= p.
Proof.
  intros Hp. unfold quantize. cbn [dexp].
  destruct (is_zero n) eqn:Hz.
  - rewrite fix_zero. intros H. injection H as <-.
    unfold _rescale. rewrite Hz. split; [reflexivity|]. cbn [dint].
    change (ndigits 0) with 1. lia.
  - destruct (p <? adjusted n - e + 1); [discriminate|].
    destruct (Z.ltb_spec p (ndigits (dint (_rescale n e)))) as [|L]; [discriminate|].
    intros H. injection H as <-. rewrite fix_id by exact L. split; [reflexivity | exact L].
Qed.

Lemma normalize_any_context self b p p0 :
  _normalize self b p = _normalize self b p0.
Proof. reflexivity. Qed.

(** What [_normalize(quantize=True)] returns, when it returns. *)
Lemma normalize_true_inv self p q p' :
  _normalize self true p = (Return q, p') ->
  p' = working_precision self /\
  q = _rescale (normalize (working_precision self) (amount self))
               (- exponent_of self) /\
  ndigits (dint q) <= working_precision self.
Proof.
  intros H. pose proof (normalize_state self true p) as Hs. rewrite H in Hs.
  cbn [snd] in Hs. split; [exact Hs|].
  unfold _normalize, bind, set_prec, get_prec in H. cbn beta iota in H.
  change (Z.max (precision self) (str_len (to_str (amount self)) + exponent_of self))
    with (working_precision self) in H.
  destruct (quantize (working_precision self)
              (normalize (working_precision self) (amount self))
              (Dec false 1 (- exponent_of self))) as [c|q'] eqn:Hq;
    cbn in H; [discriminate|].
  injection H as <- _.
  apply quantize_inv in Hq; [exact Hq | apply working_precision_pos].
Qed.

Lemma normalize_true_raise self p ex p' :
  _normalize self true p = (Raise ex, p') ->
  ex = DecimalException QuantizeTooManyDigits /\ p' = working_precision self.
Proof.
  intros H. pose proof (normalize_state self true p) as Hs. rewrite H in Hs.
  cbn [snd] in Hs. split; [|exact Hs].
  unfold _normalize, bind, set_prec, get_prec in H. cbn beta iota in H.
  unfold quantize in H.
  destruct (is_zero _); [discriminate|].
  destruct (_ <? _); [cbn in H; now injection H as <- _|].
  destruct (_ <? _); [cbn in H; now injection H as <- _|discriminate].
Qed.

(** On an amount whose exponent lies between [-exponent] and 0 the
    quantization only pads with zeros. *)
Lemma normalize_true_exact self p :
  - exponent_of self <= dexp (amount self) <= 0 ->
  _normalize self true p
    = (Return (Dec (dsign (amount self))
                   (dint (amount self)
                    * pow10 (dexp (amount self) + exponent_of self))
                   (- exponent_of self)),
       working_precision self).
Proof.
  intros He.
  set (p' := working_precision self).
  unfold _normalize, bind, set_prec, get_prec. cbn beta iota.
  change (Z.max (precision self) (str_len (to_str (amount self)) + exponent_of self))
    with p'.
  set (R := amount self) in *. set (e := exponent_of self) in *.
  set (M := (dint R * pow10 (dexp R + e))%N).
  assert (Hp' : str_len (to_str R) + e <= p')
    by (unfold p', working_precision; fold R e; lia).
  pose proof (to_str_length R) as Hlen.
  pose proof (ndigits_pos (dint R)) as Hnd.
  assert (He0 : 0 <= e) by (unfold e, exponent_of; lia).
  destruct (is_zero R) eqn:Hz.
  - assert (HM : M = 0%N).
    { unfold M. unfold is_zero in Hz. apply N.eqb_eq in Hz. now rewrite Hz. }
    unfold normalize, _fix. rewrite Hz, Hz.
    unfold quantize, is_zero. cbn [dint dsign dexp N.eqb].
    rewrite HM. reflexivity.
  - destruct (normalize_fits p' R ltac:(lia) Hz) as (c & e' & Hn & He' & Hc & Hcn).
    rewrite Hn. unfold quantize, is_zero, adjusted. cbn [dint dsign dexp].
    destruct (N.eqb_spec c 0) as [C|_]; [contradiction|].
    assert (Hndc : ndigits (dint R) = ndigits c + (e' - dexp R)).
    { rewrite <- Hc. apply ndigits_mul_pow10; [assumption | lia]. }
    destruct (Z.ltb_spec p' (e' + ndigits c - 1 - - e + 1)) as [C|_]; [lia|].
    unfold _rescale, is_zero. cbn [dint dsign dexp].
    destruct (N.eqb_spec c 0) as [C|_]; [contradiction|].
    destruct (Z.leb_spec (- e) e') as [_|C]; [|lia]. cbn [dint].
    assert (HM : (c * pow10 (e' - - e))%N = M).
    { unfold M. rewrite <- Hc, <- N.mul_assoc, <- pow10_add by lia.
      do 2 f_equal. lia. }
    rewrite HM.
    assert (HndM : ndigits M = ndigits (dint R) + (dexp R + e)).
    { unfold M. apply ndigits_mul_pow10; [|lia].
      unfold is_zero in Hz. now apply N.eqb_neq. }
    destruct (Z.ltb_spec p' (ndigits M)) as [C|_]; [lia|].
    unfold signal, ret. rewrite fix_id by (cbn [dint]; lia). reflexivity.
Qed.

(** Multiplying a quantized amount by [10^e] and truncating gives back
    its coefficient. *)
Lemma mul_ten_to_int p s c e :
  1 <= p -> 0 <= e -> ndigits c <= p ->
  to_int (mul p (Dec s c (- e)) (Dec false (pow10 e) 0))
    = signed (Dec s c 0).
Proof.
  intros Hp He Hnd. unfold mul. cbn [dsign dint dexp].
  rewrite xorb_false_r. replace (- e + 0) with (- e) by lia.
  destruct (N.eq_dec c 0) as [->|Hc].
  - cbn [N.mul]. rewrite fix_zero. unfold to_int, signed. cbn [dint dexp dsign].
    destruct (0 <=? - e); cbn; destruct s; reflexivity.
  - assert (Hlt : (c < pow10 p)%N).
    { pose proof (ndigits_upper c). pose proof (pow10_le_mono (ndigits c) p Hnd). lia. }
    destruct (fix_exact p s (c * pow10 e) (- e) c e Hp He Hc Hlt eq_refl)
      as (C & E' & Hfix & HE' & HC & HCn & _).
    rewrite Hfix. unfold to_int, signed. cbn [dint dexp dsign].
    assert (Hval : (if 0 <=? E' then (C * pow10 E')%N else (C / pow10 (- E'))%N) = c).
    { destruct (Z.leb_spec 0 E') as [G|G].
      - replace (E' - - e) with (E' + e) in HC by lia.
        rewrite pow10_add, N.mul_assoc in HC by lia.
        apply N.mul_cancel_r in HC; [assumption | apply pow10_neq0].
      - replace e with ((- E') + (E' - - e)) in HC at 2 by lia.
        rewrite pow10_add, N.mul_assoc in HC by lia.
        apply N.mul_cancel_r in HC; [|apply pow10_neq0].
        rewrite HC. apply N.div_mul. apply pow10_neq0. }
    rewrite Hval. reflexivity.
Qed.

Lemma to_minor_units_of_quantized self p q p' :
  _normalize self true p = (Return q, p') ->
  to_minor_units self p = (Return (signed (Dec (dsign q) (dint q) 0)), p').
Proof.
  intros H. destruct (normalize_true_inv self p q p' H) as (Hp' & Hq & Hnd).
  unfold to_minor_units. rewrite (bind_return _ _ _ _ _ H).
  rewrite (bind_return _ _ _ _ _ (eq_refl : get_prec p' = (Return p', p'))).
  unfold ret. do 2 f_equal. rewrite ten_to_eq.
  assert (Hd : q = Dec (dsign q) (dint q) (- exponent_of self)).
  { destruct q as [s c x]. cbn [dsign dint]. f_equal.
    change x with (dexp (Dec s c x)). rewrite Hq. apply rescale_exp. }
  rewrite Hd at 1. subst p'.
  apply mul_ten_to_int; [apply working_precision_pos | unfold exponent_of; lia | exact Hnd].
Qed.

(** *** The factories *)

(** [from_minor] on an integer that fits the precision. *)
Lemma from_minor_int_fits m cur p :
  1 <= p -> Z.abs m < Z.of_N (pow10 p) ->
  exists c' e',
    from_minor (OInt m) cur p
      = (Return {| amount := Dec (m <? 0) c' e'; currency := cur |}, p) /\
    - Z.of_N (exponent cur) <= e' <= 0 /\
    (c' * pow10 (e' + Z.of_N (exponent cur)))%N = Z.abs_N m.
Proof.
  intros Hp Hm.
  set (a := of_int m).
  assert (Hint : int_part a = Z.abs_N m).
  { unfold int_part, a, of_int. cbn [dint dexp]. cbn [Z.min Z.compare Z.sub Z.opp Z.add].
    rewrite pow10_0, N.mul_1_r. apply N.div_1_r. }
  assert (Hwhole : is_whole a = true).
  { unfold is_whole, a, of_int. cbn [dint dexp]. cbn [Z.min Z.compare Z.sub Z.opp Z.add].
    rewrite pow10_0, N.mod_1_r. reflexivity. }
  assert (Hfit : (int_part a < pow10 p)%N) by (rewrite Hint; lia).
  pose proof (from_minor_eval (OInt m) a cur p Hp eq_refl Hfit) as Hev.
  rewrite Hwhole in Hev.
  set (E := Z.of_N (exponent cur)) in *.
  assert (HE : 0 <= E) by (unfold E; lia).
  destruct (Z.eq_dec m 0) as [->|Hnz].
  - change (truediv p a (ten_to (exponent cur)))
      with (truediv p (Dec false 0 0) (ten_to (exponent cur))) in Hev.
    rewrite ten_to_eq in Hev. unfold truediv, is_zero in Hev.
    cbn [dint dexp dsign N.eqb xorb] in Hev.
    destruct (N.eqb_spec (pow10 (Z.of_N (exponent cur))) 0) as [C|_];
      [now apply pow10_neq0 in C|].
    rewrite fix_zero in Hev.
    exists 0%N, 0. split; [exact Hev|]. split; [lia | reflexivity].
  - assert (Hz : is_zero a = false).
    { unfold is_zero, a, of_int. cbn [dint]. apply N.eqb_neq. lia. }
    assert (Hnd : ndigits (dint a) <= p).
    { apply ndigits_le; unfold a, of_int; cbn [dint]; lia. }
    rewrite ten_to_eq in Hev. fold E in Hev.
    rewrite (truediv_pow10_fits p a E Hp HE Hz Hnd) in Hev.
    destruct (strip_to (Z.to_nat E) (dint a) (dexp a - E) (dexp a)) as [c' e'] eqn:Hst.
    pose proof (strip_to_le _ _ _ _ _ _ Hst ltac:(cbn [dexp a of_int]; lia)) as Hle.
    apply strip_to_spec in Hst as (Hge & Hc & _).
    cbn [dexp dint dsign a of_int] in *.
    exists c', e'. split; [exact Hev|]. split; [lia|].
    replace (e' + E) with (e' - (0 - E)) by lia. exact Hc.
Qed.

(** *** Rounding to the currency's places *)

Lemma round_coeff_le c k : (round_coeff c k <= c / pow10 k + 1)%N.
Proof. unfold round_coeff. destruct (0 <? _round_half_even c k); lia. Qed.

Lemma round_coeff_digits c k :
  c <> 0%N -> 1 <= k -> ndigits (round_coeff c k) <= ndigits c.
Proof.
  intros Hc Hk.
  destruct (N.eq_dec (round_coeff c k) 0) as [E|E].
  - rewrite E. change (ndigits 0) with 1. apply ndigits_pos.
  - apply ndigits_mono; [exact E|].
    pose proof (round_coeff_le c k) as H.
    assert (c / pow10 k <= c / 10)%N.
    { apply N.div_le_compat_l. split; [lia|].
      pose proof (pow10_le_mono 1 k Hk). exact H0. }
    assert (c / 10 + 1 <= c)%N; [|lia].
    pose proof (N.div_mod c 10 ltac:(discriminate)).
    set (q := (c / 10)%N) in *. set (r := (c mod 10)%N) in *. clearbody q r.
    lia.
Qed.

(** An amount written without a positive exponent can always be
    quantized. *)
Lemma normalize_true_plain self p :
  dexp (amount self) <= 0 ->
  exists q, _normalize self true p = (Return q, working_precision self).
Proof.
  intros Hx.
  set (p' := working_precision self).
  unfold _normalize, bind, set_prec, get_prec. cbn beta iota.
  change (Z.max (precision self) (str_len (to_str (amount self)) + exponent_of self))
    with p'.
  set (R := amount self) in *. set (e := exponent_of self) in *.
  assert (Hp' : str_len (to_str R) + e <= p')
    by (unfold p', working_precision; fold R e; lia).
  pose proof (to_str_length R) as Hlen.
  pose proof (ndigits_pos (dint R)) as Hnd.
  assert (He0 : 0 <= e) by (unfold e, exponent_of; lia).
  destruct (is_zero R) eqn:Hz.
  - unfold normalize, _fix. rewrite Hz, Hz.
    unfold quantize, is_zero. cbn [dint dsign dexp N.eqb].
    eexists. reflexivity.
  - destruct (normalize_fits p' R ltac:(lia) Hz) as (c & e' & Hn & He' & Hc & Hcn).
    rewrite Hn. unfold quantize, is_zero, adjusted. cbn [dint dsign dexp].
    destruct (N.eqb_spec c 0) as [C|_]; [contradiction|].
    assert (Hndc : ndigits (dint R) = ndigits c + (e' - dexp R)).
    { rewrite <- Hc. apply ndigits_mul_pow10; [assumption | lia]. }
    destruct (Z.ltb_spec p' (e' + ndigits c - 1 - - e + 1)) as [C|_]; [lia|].
    assert (Hfit : ndigits (dint (_rescale (Dec (dsign R) c e') (- e))) <= p').
    { unfold _rescale, is_zero. cbn [dint dsign dexp].
      destruct (N.eqb_spec c 0) as [C|_]; [contradiction|].
      destruct (Z.leb_spec (- e) e') as [L|L]; cbn [dint].
      - rewrite ndigits_mul_pow10 by (assumption || lia). lia.
      - pose proof (round_coeff_digits c (- e - e') Hcn ltac:(lia)). lia. }
    destruct (Z.ltb_spec p' (ndigits (dint (_rescale (Dec (dsign R) c e') (- e)))))
      as [C|_]; [lia|].
    eexists. reflexivity.
Qed.

(** *** Comparison of decimals *)

Lemma cmp_antisym a b : cmp b a = CompOpp (cmp a b).
Proof.
  unfold cmp. rewrite (Z.min_comm (dexp b) (dexp a)). apply Z.compare_antisym.
Qed.

Lemma eqb_sym a b : PyDecimal.eqb a b = PyDecimal.eqb b a.
Proof. unfold PyDecimal.eqb. rewrite (cmp_antisym a b). destruct (cmp a b); reflexivity. Qed.

Lemma leb_ltb a b : PyDecimal.leb a b = PyDecimal.ltb a b || PyDecimal.eqb a b.
Proof. unfold PyDecimal.leb, PyDecimal.ltb, PyDecimal.eqb. destruct (cmp a b); reflexivity. Qed.

Lemma geb_gtb a b : PyDecimal.leb b a = PyDecimal.ltb b a || PyDecimal.eqb a b.
Proof.
  unfold PyDecimal.leb, PyDecimal.ltb, PyDecimal.eqb. rewrite (cmp_antisym a b).
  destruct (cmp a b); reflexivity.
Qed.

Lemma cmp_trichotomy a b :
  match cmp a b with
  | Lt => PyDecimal.ltb a b = true /\ PyDecimal.eqb a b = false /\ PyDecimal.ltb b a = false
  | Eq => PyDecimal.ltb a b = false /\ PyDecimal.eqb a b = true /\ PyDecimal.ltb b a = false
  | Gt => PyDecimal.ltb a b = false /\ PyDecimal.eqb a b = false /\ PyDecimal.ltb b a = true
  end.
Proof.
  unfold PyDecimal.ltb, PyDecimal.eqb. rewrite (cmp_antisym a b).
  destruct (cmp a b); repeat split.
Qed.

(** *** The ordering methods *)

Lemma get_instance_same a b p :
  code_of b = code_of a ->
  _get_instance a (ODinero b) p = (Return b, p).
Proof.
  intros Hc. unfold _get_instance.
  rewrite (bind_return _ _ _ _ _ (eq_refl : ret b p = (Return b, p))).
  unfold check. rewrite Hc, String.eqb_refl. reflexivity.
Qed.

Lemma get_instance_inv a b p r p' :
  _get_instance a (ODinero b) p = (Return r, p') -> code_of b = code_of a.
Proof.
  unfold _get_instance, bind, ret, check. cbn beta iota.
  destruct (String.eqb_spec (code_of b) (code_of a)) as [E|_]; [auto|].
  cbn. discriminate.
Qed.

Lemma ordering_eval rel a b p n1 n2 :
  code_of b = code_of a ->
  _normalize a true p = (Return n1, working_precision a) ->
  _normalize b true p = (Return n2, working_precision b) ->
  ordering rel a (ODinero b) p = (Return (rel n1 n2), working_precision b).
Proof.
  intros Hc H1 H2. unfold ordering.
  rewrite (bind_return _ _ _ _ _
             (eq_refl : check (is_dinero (ODinero b)) InvalidOperationError p
                        = (Return tt, p))).
  rewrite (bind_return _ _ _ _ _ H1).
  rewrite (bind_return _ _ _ _ _ (get_instance_same a b _ Hc)).
  rewrite (normalize_any_context b true p (working_precision a)) in H2.
  rewrite (bind_return _ _ _ _ _ H2).
  reflexivity.
Qed.

Lemma ordering_inv rel a b p r p' :
  ordering rel a (ODinero b) p = (Return r, p') ->
  exists n1 n2,
    code_of b = code_of a /\
    _normalize a true p = (Return n1, working_precision a) /\
    _normalize b true p = (Return n2, working_precision b) /\
    r = rel n1 n2.
Proof.
  unfold ordering.
  rewrite (bind_return _ _ _ _ _
             (eq_refl : check (is_dinero (ODinero b)) InvalidOperationError p
                        = (Return tt, p))).
  destruct (_normalize a true p) as [[n1|ex] p1] eqn:H1.
  2:{ rewrite (bind_raise _ _ _ _ _ H1). discriminate. }
  rewrite (bind_return _ _ _ _ _ H1).
  destruct (_get_instance a (ODinero b) p1) as [[o|ex] p2] eqn:Hg.
  2:{ rewrite (bind_raise _ _ _ _ _ Hg). discriminate. }
  pose proof (get_instance_inv _ _ _ _ _ Hg) as Hc.
  rewrite (get_instance_same a b p1 Hc) in Hg. injection Hg as <- <-.
  rewrite (bind_return _ _ _ _ _ (get_instance_same a b p1 Hc)).
  destruct (_normalize b true p1) as [[n2|ex] p3] eqn:H2.
  2:{ rewrite (bind_raise _ _ _ _ _ H2). discriminate. }
  rewrite (bind_return _ _ _ _ _ H2).
  intros H. injection H as <- <-.
  exists n1, n2. split; [exact Hc|].
  destruct (normalize_true_inv a p n1 p1 H1) as (-> & _).
  rewrite (normalize_any_context b true p (working_precision a)), H2.
  destruct (normalize_true_inv b _ n2 p3 H2) as (-> & _).
  repeat split.
Qed.

Lemma equals_to_inv a b p r p' :
  equals_to a (ODinero b) p = (Return r, p') ->
  exists n1 n2,
    code_of b = code_of a /\
    _normalize a true p = (Return n1, working_precision a) /\
    _normalize b true p = (Return n2, working_precision b) /\
    r = PyDecimal.eqb n1 n2.
Proof.
  unfold equals_to, __eq__.
  rewrite (bind_return _ _ _ _ _
             (eq_refl : check (is_dinero (ODinero b)) InvalidOperationError p
                        = (Return tt, p))).
  destruct (_get_instance a (ODinero b) p) as [[o|ex] p2] eqn:Hg.
  2:{ rewrite (bind_raise _ _ _ _ _ Hg). discriminate. }
  pose proof (get_instance_inv _ _ _ _ _ Hg) as Hc.
  rewrite (get_instance_same a b p Hc) in Hg. injection Hg as <- <-.
  rewrite (bind_return _ _ _ _ _ (get_instance_same a b p Hc)).
  destruct (_normalize b true p) as [[n2|ex] p3] eqn:H2.
  2:{ rewrite (bind_raise _ _ _ _ _ H2). discriminate. }
  rewrite (bind_return _ _ _ _ _ H2).
  destruct (_normalize a true p3) as [[n1|ex] p1] eqn:H1.
  2:{ rewrite (bind_raise _ _ _ _ _ H1). discriminate. }
  rewrite (bind_return _ _ _ _ _ H1).
  intros H. injection H as <- <-.
  exists n1, n2. split; [exact Hc|].
  destruct (normalize_true_inv b p n2 p3 H2) as (-> & _).
  rewrite (normalize_any_context a true p (working_precision b)), H1.
  destruct (normalize_true_inv a _ n1 p1 H1) as (-> & _).
  repeat split.
Qed.

(** *** Subtraction and rounding *)

Lemma sub_self p n : PyDecimal.sub p n n = Dec false 0 (dexp n).
Proof.
  unfold PyDecimal.sub, PyDecimal.add, copy_negate, signed, is_zero.
  cbn [dsign dint dexp]. rewrite Z.min_id.
  replace (dexp n - dexp n) with 0 by lia. rewrite pow10_0.
  assert (Hs : (if dsign n then - Z.of_N (dint n) else Z.of_N (dint n)) * Z.of_N 1
               + (if negb (dsign n) then - Z.of_N (dint n) else Z.of_N (dint n)) * Z.of_N 1
               = 0) by (destruct (dsign n); cbn [negb]; lia).
  rewrite Hs. cbn [Z.eqb Z.abs_N].
  rewrite andb_negb_r. destruct ((dint n =? 0)%N && (dint n =? 0)%N); apply fix_zero.
Qed.

(** [round_coeff] is the nearest multiple, a tie going to the even one. *)
Lemma round_coeff_nearest c k :
  let M := round_coeff c k in
  2 * Z.abs (Z.of_N c - Z.of_N M * Z.of_N (pow10 k)) <= Z.of_N (pow10 k) /\
  ((2 * (c mod pow10 k) = pow10 k)%N -> N.even M = true).
Proof.
  cbv zeta. unfold round_coeff, _round_half_even.
  pose proof (pow10_pos k) as HP. set (P := pow10 k) in *.
  pose proof (N.div_mod c P ltac:(lia)) as Hdm.
  pose proof (N.mod_lt c P ltac:(lia)) as Hml.
  set (q := (c / P)%N) in *. set (r := (c mod P)%N) in *.
  assert (Hc : Z.of_N c = Z.of_N P * Z.of_N q + Z.of_N r) by lia.
  clearbody q r P.
  destruct (N.eqb_spec r 0) as [E|E].
  - cbn [Z.ltb Z.compare]. split; [nia | lia].
  - destruct (N.eqb_spec (2 * r) P) as [T|T]; cbn [andb].
    + destruct (N.even q) eqn:Hev.
      * cbn [Z.ltb Z.compare]. split; [nia | auto].
      * destruct (N.leb_spec P (2 * r)) as [_|C]; [|lia].
        cbn [Z.ltb Z.compare]. split; [nia|]. intros _.
        rewrite N.even_add, Hev. reflexivity.
    + destruct (N.leb_spec P (2 * r)) as [L|L]; cbn [Z.ltb Z.compare].
      * split; [nia | lia].
      * split; [nia | lia].
Qed.

(** The quantized amount is the amount rounded to the currency's places,
    to the nearest, a tie going to the even digit. *)
Lemma quantized_nearest_even (d : Dinero) (p p' : context) (q : decimal) :
  _normalize d true p = (Return q, p') ->
  let c := dint (amount d) in
  let x := dexp (amount d) in
  let e := exponent_of d in
  dsign q = dsign (amount d) /\ dexp q = - e /\
  (- e <= x -> dint q = (c * pow10 (x + e))%N) /\
  (x < - e ->
   2 * Z.abs (Z.of_N c - Z.of_N (dint q) * Z.of_N (pow10 (- e - x)))
     <= Z.of_N (pow10 (- e - x)) /\
   ((2 * (c mod pow10 (- e - x)) = pow10 (- e - x))%N ->
    N.even (dint q) = true)).
Proof.
  intros H. cbv zeta.
  destruct (normalize_true_inv d p q p' H) as (_ & Hq & _). clear H.
  set (R := amount d) in *. set (e := exponent_of d) in *.
  set (w := working_precision d) in *.
  assert (He0 : 0 <= e) by (unfold e, exponent_of; lia).
  assert (Hfit : ndigits (dint R) <= w).
  { pose proof (to_str_length R). unfold w, working_precision. fold R e. lia. }
  split; [|split; [rewrite Hq; apply rescale_exp|]].
  { rewrite Hq, rescale_sign. unfold normalize. rewrite (fix_id w R Hfit).
    destruct (is_zero R); [reflexivity|].
    destruct (strip_zeros _ _ _); reflexivity. }
  destruct (is_zero R) eqn:Hz.
  - assert (Hc0 : dint R = 0%N) by (unfold is_zero in Hz; now apply N.eqb_eq).
    assert (Hq0 : dint q = 0%N).
    { rewrite Hq. unfold normalize. rewrite (fix_id w R Hfit), Hz. reflexivity. }
    rewrite Hq0, Hc0. split.
    + intros _. reflexivity.
    + intros _. pose proof (pow10_pos (- e - dexp R)). split.
      * cbn. lia.
      * rewrite N.Div0.mod_0_l. lia.
  - destruct (normalize_fits w R Hfit Hz) as (cn & en & Hn & Hen & Hcn & Hcnz).
    rewrite Hn in Hq. unfold _rescale, is_zero in Hq. cbn [dint dsign dexp] in Hq.
    destruct (N.eqb_spec cn 0) as [C|_]; [contradiction|].
    destruct (Z.leb_spec (- e) en) as [L|L].
    + (* only zeros are appended or removed *)
      assert (Hdq : dint q = (cn * pow10 (en - - e))%N) by (rewrite Hq; reflexivity).
      split.
      * intros Hx. rewrite Hdq, <- Hcn, <- N.mul_assoc, <- pow10_add by lia.
        do 2 f_equal. lia.
      * intros Hx.
        assert (Hc : dint R = (dint q * pow10 (- e - dexp R))%N).
        { rewrite Hdq, <- Hcn, <- N.mul_assoc, <- pow10_add by lia.
          do 2 f_equal. lia. }
        pose proof (pow10_pos (- e - dexp R)). split.
        -- rewrite Hc. rewrite N2Z.inj_mul.
           replace (Z.of_N (dint q) * Z.of_N (pow10 (- e - dexp R))
                    - Z.of_N (dint q) * Z.of_N (pow10 (- e - dexp R))) with 0 by lia.
           cbn. lia.
        -- rewrite Hc, N.Div0.mod_mul. lia.
    + (* digits are dropped *)
      assert (Hdq : dint q = round_coeff cn (- e - en)) by (rewrite Hq; reflexivity).
      split; [intros Hx; lia|]. intros Hx.
      set (k' := - e - en) in *. set (j := en - dexp R) in *.
      assert (Hk : - e - dexp R = k' + j) by (unfold k', j; lia).
      destruct (round_coeff_nearest cn k') as (Hnear & Htie).
      rewrite <- Hdq in Hnear, Htie.
      rewrite Hk, pow10_add by (unfold k', j; lia).
      pose proof (pow10_pos j) as HJ. pose proof (pow10_pos k') as HK.
      rewrite <- Hcn. fold j.
      set (J := pow10 j) in *. set (K := pow10 k') in *.
      split.
      * rewrite !N2Z.inj_mul.
        replace (Z.of_N cn * Z.of_N J - Z.of_N (dint q) * (Z.of_N K * Z.of_N J))
          with ((Z.of_N cn - Z.of_N (dint q) * Z.of_N K) * Z.of_N J) by ring.
        rewrite Z.abs_mul, (Z.abs_eq (Z.of_N J)) by lia.
        clearbody J K. nia.
      * intros T. apply Htie.
        rewrite N.Div0.mul_mod_distr_r in T.
        rewrite N.mul_assoc in T. apply N.mul_cancel_r in T; [exact T | lia].
Qed.

End MoreFacts.

(* ------------------------------------------------------------------ *)
(** ** Text of a decimal, read back *)

Module TextFacts.

Import PyDecimal PyDecimalFacts.

Local Abbreviation chars := list_ascii_of_string.
Local Abbreviation digit := (fun c : ascii => is_digit c = true).

Lemma chars_append a b : chars (a ++ b) = (chars a ++ chars b)%list.
Proof. induction a as [|c a IH]; cbn; [reflexivity | now rewrite IH]. Qed.

Lemma chars_length s : List.length (chars s) = String.length s.
Proof. induction s as [|c s IH]; cbn; [reflexivity | now rewrite IH]. Qed.

Lemma digit_char_spec k :
  (k < 10)%N -> is_digit (digit_char k) = true /\ digit_val (digit_char k) = k.
Proof.
  intros H. unfold is_digit, digit_val, digit_char.
  rewrite N_ascii_embedding by lia. split; [|lia].
  apply andb_true_intro. split; apply N.leb_le; lia.
Qed.

Lemma digits_value_snoc l c :
  digits_value (l ++ [c]) = (10 * digits_value l + digit_val c)%N.
Proof. unfold digits_value. rewrite fold_left_app. reflexivity. Qed.

Lemma digits_fuel_chars fuel :
  forall n, (n < 2 ^ N.of_nat fuel)%N ->
    Forall digit (chars (digits_fuel fuel n)) /\
    digits_value (chars (digits_fuel fuel n)) = n.
Proof.
  induction fuel as [|f IH]; intros n Hn.
  - change (2 ^ N.of_nat 0)%N with 1%N in Hn.
    assert (n = 0%N) by lia. subst n. cbn. split; [|reflexivity].
    constructor; [reflexivity | constructor].
  - cbn [digits_fuel]. destruct (N.ltb_spec n 10) as [L|L].
    + destruct (digit_char_spec n L) as (D & V). cbn [list_ascii_of_string].
      split; [constructor; [exact D | constructor]|].
      unfold digits_value. cbn [fold_left]. rewrite V. lia.
    + assert (Hq : (n / 10 < 2 ^ N.of_nat f)%N).
      { apply N.Div0.div_lt_upper_bound.
        rewrite Nat2N.inj_succ, N.pow_succ_r' in Hn. lia. }
      destruct (IH _ Hq) as (F & V).
      pose proof (N.mod_lt n 10 ltac:(discriminate)) as Hml.
      destruct (digit_char_spec _ Hml) as (D & Vd).
      rewrite chars_append. cbn [list_ascii_of_string]. split.
      * apply Forall_app. split; [exact F | constructor; [exact D | constructor]].
      * rewrite digits_value_snoc, V, Vd.
        pose proof (N.div_mod n 10 ltac:(discriminate)). lia.
Qed.

Lemma digits_of_chars n :
  Forall digit (chars (digits_of n)) /\ digits_value (chars (digits_of n)) = n.
Proof.
  unfold digits_of. apply digits_fuel_chars. rewrite N2Nat.id. apply N.size_gt.
Qed.

Lemma digits_of_nonempty n : chars (digits_of n) <> [].
Proof.
  intros E. pose proof (ndigits_pos n) as H. unfold ndigits in H.
  rewrite <- chars_length, E in H. cbn in H. lia.
Qed.

Lemma digits_value_acc l :
  forall acc,
    fold_left (fun a c => (10 * a + digit_val c)%N) l acc
    = (acc * 10 ^ N.of_nat (List.length l)
       + fold_left (fun a c => (10 * a + digit_val c)%N) l 0)%N.
Proof.
  induction l as [|c l IH]; intros acc.
  - cbn. lia.
  - cbn [fold_left List.length]. rewrite (IH (10 * acc + digit_val c)%N).
    rewrite (IH (10 * 0 + digit_val c)%N).
    rewrite Nat2N.inj_succ, N.pow_succ_r'. lia.
Qed.

Lemma digits_value_app l1 l2 :
  digits_value (l1 ++ l2)
  = (digits_value l1 * 10 ^ N.of_nat (List.length l2) + digits_value l2)%N.
Proof. unfold digits_value. rewrite fold_left_app. apply digits_value_acc. Qed.

Lemma digits_value_zeros k l :
  digits_value (repeat "0"%char k ++ l) = digits_value l.
Proof.
  rewrite digits_value_app.
  assert (H : digits_value (repeat "0"%char k) = 0%N).
  { induction k as [|k IH]; [reflexivity|].
    change (repeat "0"%char (S k)) with (["0"%char] ++ repeat "0"%char k)%list.
    rewrite digits_value_app, IH. reflexivity. }
  rewrite H. lia.
Qed.

Lemma zeros_digits k : Forall digit (repeat "0"%char k).
Proof. induction k; constructor; [reflexivity | assumption]. Qed.

Lemma chars_zeros k : chars (zeros k) = repeat "0"%char (Z.to_nat k).
Proof. unfold zeros. apply list_ascii_of_string_of_list_ascii. Qed.

Lemma span_digits_app ds rest :
  Forall digit ds ->
  match rest with [] => True | c :: _ => is_digit c = false end ->
  span_digits (ds ++ rest) = (ds, rest).
Proof.
  intros F R. induction F as [|c ds Hc F IH].
  - cbn [app]. destruct rest as [|c r]; [reflexivity|]. cbn [span_digits].
    now rewrite R.
  - cbn [app span_digits]. rewrite Hc, IH. reflexivity.
Qed.

Lemma chars_substring_firstn s :
  forall m, chars (substring 0 m s) = firstn m (chars s).
Proof.
  induction s as [|c s IH]; intros m; destruct m; cbn; try reflexivity.
  now rewrite IH.
Qed.

Lemma chars_substring_skipn s :
  forall n, chars (substring n (String.length s - n) s) = skipn n (chars s).
Proof.
  induction s as [|c s IH]; intros n.
  - destruct n; reflexivity.
  - destruct n as [|n].
    + cbn [String.length Nat.sub substring skipn list_ascii_of_string].
      rewrite chars_substring_firstn, <- chars_length. now rewrite firstn_all.
    + cbn [String.length Nat.sub substring skipn list_ascii_of_string]. apply IH.
Qed.

Lemma chars_take k s : chars (take k s) = firstn (Z.to_nat k) (chars s).
Proof. apply chars_substring_firstn. Qed.

Lemma chars_drop k s : chars (drop k s) = skipn (Z.to_nat k) (chars s).
Proof. apply chars_substring_skipn. Qed.

Lemma take_sign_digit c r : is_digit c = true -> take_sign (c :: r) = (false, c :: r).
Proof.
  destruct c as [[|] [|] [|] [|] [|] [|] [|] [|]]; intros H;
    first [reflexivity | (vm_compute in H; discriminate H)].
Qed.

Lemma chars_signed_text z :
  chars (signed_text z)
  = (if z <? 0 then "-"%char else "+"%char) :: chars (digits_of (Z.abs_N z)).
Proof.
  unfold signed_text. rewrite chars_append. destruct (z <? 0); reflexivity.
Qed.

Lemma parse_exponent_text z :
  parse_exponent (if z =? 0 then [] else "E"%char :: chars (signed_text z)) = Some z.
Proof.
  destruct (Z.eqb_spec z 0) as [->|Hz]; [reflexivity|].
  rewrite chars_signed_text. cbn [parse_exponent]. cbn [Ascii.eqb Bool.eqb orb andb].
  destruct (digits_of_chars (Z.abs_N z)) as (F & V).
  pose proof (digits_of_nonempty (Z.abs_N z)) as Hne.
  assert (Hs : span_digits (chars (digits_of (Z.abs_N z)))
               = (chars (digits_of (Z.abs_N z)), [])).
  { rewrite <- (List.app_nil_r (chars (digits_of (Z.abs_N z)))) at 1.
    apply span_digits_app; [exact F | exact I]. }
  destruct (Z.ltb_spec z 0) as [L|L]; cbn [take_sign]; rewrite Hs;
    destruct (chars (digits_of (Z.abs_N z))) as [|c l] eqn:E;
    try contradiction; rewrite V; f_equal; lia.
Qed.

Lemma frac_absent (l : list ascii) :
  match l with [] => True | c :: _ => c <> "."%char end ->
  match l with
  | "."%char :: r => span_digits r
  | _ => ([], l)
  end = ([], l).
Proof.
  destruct l as [|c r]; [reflexivity|].
  destruct c as [[|] [|] [|] [|] [|] [|] [|] [|]]; intros H;
    first [reflexivity | now contradiction H].
Qed.

(** Reading a numeral made of an optional sign, an integer part, an
    optional fraction and an optional exponent. *)
Lemma of_string_parts s (neg : bool) ip fp (dot : bool) z :
  chars s = ((if neg then ["-"%char] else [])
             ++ ip ++ (if dot then "."%char :: fp else [])
             ++ (if z =? 0 then [] else "E"%char :: chars (signed_text z)))%list ->
  Forall digit ip -> Forall digit fp -> ip <> [] -> (dot = false -> fp = []) ->
  of_string s
  = Some (Dec neg (digits_value (ip ++ fp)) (z - Z.of_nat (List.length fp))).
Proof.
  intros Hs Fi Ff Hne Hdot. unfold of_string. rewrite Hs.
  set (ex := if z =? 0 then [] else "E"%char :: chars (signed_text z)).
  assert (Hex : match ex with [] => True | c :: _ => is_digit c = false end).
  { unfold ex. destruct (z =? 0); [exact I | reflexivity]. }
  assert (Hsign : take_sign ((if neg then ["-"%char] else [])
                             ++ ip ++ (if dot then "."%char :: fp else []) ++ ex)
                  = (neg, (ip ++ (if dot then "."%char :: fp else []) ++ ex)%list)).
  { destruct neg; [reflexivity|]. cbn [app].
    destruct ip as [|c ip]; [contradiction|]. inversion Fi; subst.
    cbn [app]. now apply take_sign_digit. }
  rewrite Hsign.
  assert (Hip : span_digits (ip ++ (if dot then "."%char :: fp else []) ++ ex)
                = (ip, ((if dot then "."%char :: fp else []) ++ ex)%list)).
  { apply span_digits_app; [exact Fi|].
    destruct dot; [reflexivity|]. cbn [app]. exact Hex. }
  rewrite Hip.
  assert (Hp : parse_exponent ex = Some z) by apply parse_exponent_text.
  destruct dot.
  - cbn [app]. rewrite (span_digits_app fp ex Ff Hex).
    destruct (ip ++ fp)%list as [|c l] eqn:E.
    { destruct ip; [contradiction | discriminate E]. }
    rewrite Hp. reflexivity.
  - rewrite (Hdot eq_refl). cbn [app]. rewrite frac_absent.
    2:{ unfold ex. destruct (z =? 0); [exact I | discriminate]. }
    destruct (ip ++ [])%list as [|c l] eqn:E.
    { destruct ip; [contradiction | discriminate E]. }
    rewrite Hp. reflexivity.
Qed.

(** [Decimal(str(d)) == d], with the same sign, digits and exponent. *)
Lemma of_string_to_str d : of_string (to_str d) = Some d.
Proof.
  destruct d as [sg c x].
  set (int := digits_of c). set (n := ndigits c).
  destruct (digits_of_chars c) as (F & V). fold int in F, V.
  pose proof (digits_of_nonempty c) as Hne. fold int in Hne.
  pose proof (ndigits_pos c) as Hn. fold n in Hn.
  assert (Hlen : Z.of_nat (List.length (chars int)) = n).
  { rewrite chars_length. reflexivity. }
  assert (Hsl : str_len int = n) by reflexivity.
  set (dotplace := if (x <=? 0) && (-6 <? x + n) then x + n else 1).
  set (z := x + n - dotplace).
  assert (Hshape :
    exists ip fp (dot : bool),
      chars (to_str (Dec sg c x))
      = ((if sg then ["-"%char] else [])
         ++ ip ++ (if dot then "."%char :: fp else [])
         ++ (if z =? 0 then [] else "E"%char :: chars (signed_text z)))%list /\
      Forall digit ip /\ Forall digit fp /\ ip <> [] /\ (dot = false -> fp = []) /\
      digits_value (ip ++ fp) = c /\ z - Z.of_nat (List.length fp) = x).
  { unfold to_str. cbn [dsign dint dexp]. fold int. rewrite Hsl. fold dotplace.
    assert (Hexp : chars (if x + n =? dotplace then ""%string
                          else ("E" ++ signed_text (x + n - dotplace))%string)
                   = if z =? 0 then [] else "E"%char :: chars (signed_text z)).
    { unfold z. destruct (Z.eqb_spec (x + n) dotplace) as [E|E].
      - destruct (Z.eqb_spec (x + n - dotplace) 0); [reflexivity | lia].
      - destruct (Z.eqb_spec (x + n - dotplace) 0); [lia | reflexivity]. }
    assert (Hsg : chars (if sg then "-"%string else ""%string)
                  = if sg then ["-"%char] else []) by (destruct sg; reflexivity).
    destruct (Z.leb_spec dotplace 0) as [L|L].
    - (* 0.000ddd *)
      exists ["0"%char], (repeat "0"%char (Z.to_nat (- dotplace)) ++ chars int)%list, true.
      rewrite !chars_append, Hsg, Hexp, chars_zeros.
      split; [reflexivity|].
      split; [constructor; [reflexivity | constructor]|].
      split; [apply Forall_app; split; [apply zeros_digits | exact F]|].
      split; [discriminate|]. split; [discriminate|]. split.
      + change (["0"%char] ++ repeat "0"%char (Z.to_nat (- dotplace)) ++ chars int)%list
          with (repeat "0"%char (S (Z.to_nat (- dotplace))) ++ chars int)%list.
        rewrite digits_value_zeros. exact V.
      + rewrite length_app, repeat_length.
        assert (dotplace = x + n).
        { unfold dotplace in *. destruct ((x <=? 0) && (-6 <? x + n)); lia. }
        unfold z. lia.
    - destruct (Z.leb_spec n dotplace) as [M|M].
      + (* ddd or d with an exponent *)
        exists (chars int), [], false.
        rewrite !chars_append, Hsg, Hexp, chars_zeros.
        assert (Hz0 : Z.to_nat (dotplace - n) = 0%nat).
        { unfold dotplace in *.
          destruct (Z.leb_spec x 0); destruct (Z.ltb_spec (-6) (x + n));
            cbn [andb] in *; lia. }
        rewrite Hz0. cbn [repeat]. rewrite !List.app_nil_r.
        split; [cbn [list_ascii_of_string]; now rewrite List.app_nil_l|].
        split; [exact F|]. split; [constructor|]. split; [exact Hne|].
        split; [reflexivity|]. split; [exact V|].
        cbn [List.length]. unfold z, dotplace in *.
        destruct (Z.leb_spec x 0); destruct (Z.ltb_spec (-6) (x + n));
          cbn [andb] in *; lia.
      + (* ddd.ddd, with an exponent or not *)
        exists (firstn (Z.to_nat dotplace) (chars int)),
               (skipn (Z.to_nat dotplace) (chars int)), true.
        rewrite !chars_append, Hsg, Hexp, chars_take, chars_drop.
        pose proof (firstn_skipn (Z.to_nat dotplace) (chars int)) as Hfs.
        assert (Hboth : Forall digit (firstn (Z.to_nat dotplace) (chars int)
                                      ++ skipn (Z.to_nat dotplace) (chars int)))
          by (rewrite Hfs; exact F).
        apply Forall_app in Hboth as (F1 & F2).
        split; [reflexivity|]. split; [exact F1|]. split; [exact F2|].
        split.
        { intros E. assert (Hl : List.length (firstn (Z.to_nat dotplace) (chars int)) = 0%nat)
            by (rewrite E; reflexivity).
          rewrite length_firstn in Hl. lia. }
        split; [discriminate|]. split; [rewrite Hfs; exact V|].
        rewrite length_skipn. unfold z. lia. }
  destruct Hshape as (ip & fp & dot & Hs & Fi & Ff & Hi & Hd & Hv & Hx).
  rewrite (of_string_parts _ sg ip fp dot z Hs Fi Ff Hi Hd), Hv, Hx. reflexivity.
Qed.

End TextFacts.

(* ------------------------------------------------------------------ *)
(** ** Exact arithmetic on minor units *)

Module ArithFacts.

Import PyDecimal Py Reading PyDecimalFacts DineroModel DineroFacts.
Import DineroOutput MoreFacts.
Local Open Scope py_scope.

Lemma pow10_Z k : 0 <= k -> Z.of_N (pow10 k) = 10 ^ k.
Proof.
  intros H. unfold pow10. rewrite N2Z.inj_pow, Z2N.id by lia. reflexivity.
Qed.

Lemma signed_abs d : Z.abs (signed d) = Z.of_N (dint d).
Proof. unfold signed. destruct (dsign d); lia. Qed.

Lemma signed_of_int n : signed (of_int n) = n.
Proof.
  unfold signed, of_int. cbn [dsign dint]. rewrite N2Z.inj_abs_N.
  destruct (Z.ltb_spec n 0); lia.
Qed.

Lemma signed_make (s : Z) (sg : bool) X :
  (s <> 0 -> sg = (s <? 0)) -> signed (Dec sg (Z.abs_N s) X) = s.
Proof.
  intros H. unfold signed. cbn [dsign dint]. rewrite N2Z.inj_abs_N.
  destruct (Z.eq_dec s 0) as [->|N]; [destruct sg; reflexivity|].
  rewrite (H N). destruct (Z.ltb_spec s 0); lia.
Qed.

(** A coefficient below [10^P] is not rounded. *)
Lemma fix_small P d : 1 <= P -> Z.of_N (dint d) < 10 ^ P -> _fix P d = d.
Proof.
  intros HP H. destruct (N.eq_dec (dint d) 0) as [E|E].
  - destruct d as [s c x]. cbn [dint] in E. subst c. apply fix_zero.
  - apply fix_id. apply ndigits_le; [exact E|].
    apply N2Z.inj_lt. rewrite pow10_Z by lia. exact H.
Qed.

(** [normalize] keeps the value of a number whose digits fit. *)
Lemma normalize_value P R e :
  ndigits (dint R) <= P -> - e <= dexp R -> 0 <= e ->
  - e <= dexp (normalize P R) /\
  signed (normalize P R) * 10 ^ (dexp (normalize P R) + e)
  = signed R * 10 ^ (dexp R + e).
Proof.
  intros Hfit Hx He. destruct (is_zero R) eqn:Hz.
  - unfold normalize, _fix. rewrite Hz, Hz. cbn [dexp]. split; [lia|].
    unfold is_zero in Hz. apply N.eqb_eq in Hz.
    unfold signed. cbn [dsign dint]. rewrite Hz.
    destruct (dsign R); reflexivity.
  - destruct (normalize_fits P R Hfit Hz) as (c & x & Hn & Hx' & Hc & _).
    rewrite Hn. cbn [dexp]. split; [lia|]. unfold signed. cbn [dsign dint].
    assert (HZ : Z.of_N (dint R) = Z.of_N c * 10 ^ (x - dexp R)).
    { rewrite <- Hc, N2Z.inj_mul, pow10_Z by lia. reflexivity. }
    rewrite HZ. replace (x + e) with ((x - dexp R) + (dexp R + e)) by lia.
    rewrite Z.pow_add_r by lia. destruct (dsign R); ring.
Qed.

Lemma working_precision_fits d :
  ndigits (dint (amount d)) <= working_precision d.
Proof.
  unfold working_precision, exponent_of.
  pose proof (to_str_length (amount d)). lia.
Qed.

Lemma precision_le_working d : precision d <= working_precision d.
Proof. unfold working_precision. lia. Qed.

(** The quantization of an amount, in any notation, whose count of minor
    units is below [10^base]. *)
Lemma normalize_true_bounded self p :
  - exponent_of self <= dexp (amount self) ->
  Z.of_N (dint (amount self)) * 10 ^ (dexp (amount self) + exponent_of self)
    < 10 ^ precision self ->
  _normalize self true p
    = (Return (Dec (dsign (amount self))
                   (dint (amount self)
                    * pow10 (dexp (amount self) + exponent_of self))
                   (- exponent_of self)),
       working_precision self).
Proof.
  intros He Hb.
  pose proof (precision_le_working self) as Hpw.
  pose proof (working_precision_fits self) as Hfit.
  set (p' := working_precision self) in *.
  unfold _normalize, bind, set_prec, get_prec. cbn beta iota.
  change (Z.max (precision self) (str_len (to_str (amount self)) + exponent_of self))
    with p'.
  set (R := amount self) in *. set (e := exponent_of self) in *.
  set (M := (dint R * pow10 (dexp R + e))%N).
  assert (He0 : 0 <= e) by (unfold e, exponent_of; lia).
  destruct (is_zero R) eqn:Hz.
  - assert (HM : M = 0%N).
    { unfold M. unfold is_zero in Hz. apply N.eqb_eq in Hz. now rewrite Hz. }
    unfold normalize, _fix. rewrite Hz, Hz.
    unfold quantize, is_zero. cbn [dint dsign dexp N.eqb].
    rewrite HM. reflexivity.
  - destruct (normalize_fits p' R Hfit Hz) as (c & e' & Hn & He' & Hc & Hcn).
    rewrite Hn. unfold quantize, is_zero, adjusted. cbn [dint dsign dexp].
    destruct (N.eqb_spec c 0) as [C|_]; [contradiction|].
    assert (HRn : dint R <> 0%N) by (unfold is_zero in Hz; now apply N.eqb_neq).
    assert (Hndc : ndigits (dint R) = ndigits c + (e' - dexp R)).
    { rewrite <- Hc. apply ndigits_mul_pow10; [assumption | lia]. }
    assert (HndM : ndigits M = ndigits (dint R) + (dexp R + e)).
    { unfold M. apply ndigits_mul_pow10; [exact HRn | lia]. }
    assert (HMb : ndigits M <= p').
    { assert (Hk : 0 <= 10 ^ (dexp R + e)) by (apply Z.pow_nonneg; lia).
      assert (Hbase : 0 <= precision self).
      { destruct (Z.le_gt_cases 0 (precision self)) as [G|G]; [exact G|].
        rewrite (Z.pow_neg_r 10 (precision self)) in Hb by lia.
        assert (0 <= Z.of_N (dint R) * 10 ^ (dexp R + e))
          by (apply Z.mul_nonneg_nonneg; lia).
        lia. }
      assert (ndigits M <= precision self); [|lia].
      apply ndigits_le.
      - unfold M. apply N.neq_mul_0. split; [exact HRn | apply pow10_neq0].
      - apply N2Z.inj_lt. unfold M. rewrite N2Z.inj_mul, !pow10_Z by lia.
        exact Hb. }
    destruct (Z.ltb_spec p' (e' + ndigits c - 1 - - e + 1)) as [C|_]; [lia|].
    unfold _rescale, is_zero. cbn [dint dsign dexp].
    destruct (N.eqb_spec c 0) as [C|_]; [contradiction|].
    destruct (Z.leb_spec (- e) e') as [_|C]; [|lia]. cbn [dint].
    assert (HM : (c * pow10 (e' - - e))%N = M).
    { unfold M. rewrite <- Hc, <- N.mul_assoc, <- pow10_add by lia.
      do 2 f_equal. lia. }
    rewrite HM.
    destruct (Z.ltb_spec p' (ndigits M)) as [C|_]; [lia|].
    unfold signal, ret. rewrite fix_id by (cbn [dint]; lia). reflexivity.
Qed.

Lemma to_minor_units_bounded self p :
  - exponent_of self <= dexp (amount self) ->
  Z.abs (minor_value self) < 10 ^ precision self ->
  to_minor_units self p = (Return (minor_value self), working_precision self).
Proof.
  intros He Hb.
  assert (Hk : 0 <= dexp (amount self) + exponent_of self) by lia.
  assert (Hb' : Z.of_N (dint (amount self))
                * 10 ^ (dexp (amount self) + exponent_of self)
                < 10 ^ precision self).
  { unfold minor_value in Hb. rewrite Z.abs_mul, signed_abs in Hb.
    rewrite (Z.abs_eq (10 ^ _)) in Hb by (apply Z.pow_nonneg; lia). exact Hb. }
  rewrite (to_minor_units_of_quantized self p _ _
             (normalize_true_bounded self p He Hb')).
  do 2 f_equal. unfold signed, minor_value, signed. cbn [dsign dint].
  rewrite N2Z.inj_mul, pow10_Z by lia. destruct (dsign (amount self)); ring.
Qed.

(** What the operators compute. *)
Lemma add_eval a b p :
  code_of b = code_of a ->
  add a (ODinero b) p
  = (Return {| amount := PyDecimal.add (working_precision b)
                           (normalize (working_precision a) (amount a))
                           (normalize (working_precision b) (amount b));
               currency := currency a |}, working_precision b).
Proof.
  intros Hc. unfold add, __add__.
  rewrite (bind_return _ _ _ _ _
             (eq_refl : addition_and_subtraction_amount (ODinero b) p
                        = (Return tt, p))).
  rewrite (bind_return _ _ _ _ _ (get_instance_same a b p Hc)). reflexivity.
Qed.

Lemma subtract_eval a b p :
  code_of b = code_of a ->
  subtract a (ODinero b) p
  = (Return {| amount := PyDecimal.sub (working_precision b)
                           (normalize (working_precision a) (amount a))
                           (normalize (working_precision b) (amount b));
               currency := currency a |}, working_precision b).
Proof.
  intros Hc. unfold subtract, __sub__.
  rewrite (bind_return _ _ _ _ _
             (eq_refl : addition_and_subtraction_amount (ODinero b) p
                        = (Return tt, p))).
  rewrite (bind_return _ _ _ _ _ (get_instance_same a b p Hc)). reflexivity.
Qed.

Lemma multiply_int_eval a n p :
  let o := {| amount := of_int n; currency := currency a |} in
  multiply a (OInt n) p
  = (Return {| amount := PyDecimal.mul (working_precision o)
                           (normalize (working_precision a) (amount a))
                           (normalize (working_precision o) (of_int n));
               currency := currency a |}, working_precision o).
Proof.
  cbv zeta. unfold multiply, __mul__.
  rewrite (bind_return _ _ _ _ _
             (eq_refl : multiplication_and_division_amount (OInt n) p
                        = (Return tt, p))).
  rewrite (bind_return _ _ _ _ _
             (get_instance_numeric a (OInt n) (of_int n) p eq_refl)).
  reflexivity.
Qed.

(** A sum whose count of units at [10^-e] is below [10^P] is exact. *)
Lemma add_exact P a b e :
  1 <= P -> 0 <= e -> - e <= dexp a -> - e <= dexp b ->
  Z.abs (signed a * 10 ^ (dexp a + e) + signed b * 10 ^ (dexp b + e)) < 10 ^ P ->
  - e <= dexp (PyDecimal.add P a b) /\
  signed (PyDecimal.add P a b) * 10 ^ (dexp (PyDecimal.add P a b) + e)
  = signed a * 10 ^ (dexp a + e) + signed b * 10 ^ (dexp b + e).
Proof.
  intros HP He Ha Hb Hbound. unfold PyDecimal.add.
  set (X := Z.min (dexp a) (dexp b)).
  assert (HX : - e <= X /\ X <= dexp a /\ X <= dexp b) by (unfold X; lia).
  rewrite !pow10_Z by lia.
  set (s := signed a * 10 ^ (dexp a - X) + signed b * 10 ^ (dexp b - X)).
  set (sg := if s =? 0
             then (if is_zero a && is_zero b then dsign a && dsign b else false)
             else s <? 0).
  assert (Hs : s * 10 ^ (X + e)
               = signed a * 10 ^ (dexp a + e) + signed b * 10 ^ (dexp b + e)).
  { unfold s. rewrite Z.mul_add_distr_r, <- !Z.mul_assoc, <- !Z.pow_add_r by lia.
    do 2 f_equal; f_equal; lia. }
  assert (HT : 1 <= 10 ^ (X + e)).
  { assert (0 < 10 ^ (X + e)) by (apply Z.pow_pos_nonneg; lia). lia. }
  assert (Hsmall : Z.abs s < 10 ^ P).
  { rewrite <- Hs, Z.abs_mul, (Z.abs_eq (10 ^ (X + e))) in Hbound by lia.
    assert (0 <= Z.abs s) by lia. nia. }
  rewrite fix_small by (cbn [dint]; rewrite ?N2Z.inj_abs_N; lia).
  cbn [dexp]. split; [lia|].
  rewrite signed_make; [exact Hs|].
  intros Hn. unfold sg. destruct (Z.eqb_spec s 0); [contradiction | reflexivity].
Qed.

(** A product whose count of units at [10^-e] is below [10^P] is exact. *)
Lemma mul_exact P a b e :
  1 <= P -> 0 <= e -> - e <= dexp a -> 0 <= dexp b ->
  Z.abs (signed a * 10 ^ (dexp a + e) * (signed b * 10 ^ dexp b)) < 10 ^ P ->
  - e <= dexp (PyDecimal.mul P a b) /\
  signed (PyDecimal.mul P a b) * 10 ^ (dexp (PyDecimal.mul P a b) + e)
  = signed a * 10 ^ (dexp a + e) * (signed b * 10 ^ dexp b).
Proof.
  intros HP He Ha Hb Hbound. unfold PyDecimal.mul.
  assert (H1 : 1 <= 10 ^ (dexp a + e)).
  { assert (0 < 10 ^ (dexp a + e)) by (apply Z.pow_pos_nonneg; lia). lia. }
  assert (H2 : 1 <= 10 ^ dexp b).
  { assert (0 < 10 ^ dexp b) by (apply Z.pow_pos_nonneg; lia). lia. }
  assert (Hsmall : Z.of_N (dint a * dint b) < 10 ^ P).
  { rewrite !Z.abs_mul, !signed_abs in Hbound.
    rewrite (Z.abs_eq (10 ^ (dexp a + e))), (Z.abs_eq (10 ^ dexp b)) in Hbound by lia.
    rewrite N2Z.inj_mul.
    set (A := Z.of_N (dint a)) in *. set (B := Z.of_N (dint b)) in *.
    assert (0 <= A) by (unfold A; lia). assert (0 <= B) by (unfold B; lia).
    set (T1 := 10 ^ (dexp a + e)) in *. set (T2 := 10 ^ dexp b) in *.
    clearbody A B T1 T2.
    assert (A * B <= A * T1 * (B * T2)); [|lia].
    apply Z.mul_le_mono_nonneg; nia. }
  rewrite fix_small by (cbn [dint]; lia).
  cbn [dexp]. split; [lia|].
  replace (dexp a + dexp b + e) with ((dexp a + e) + dexp b) by lia.
  rewrite Z.pow_add_r by lia.
  unfold signed. cbn [dsign dint]. rewrite N2Z.inj_mul.
  destruct (dsign a), (dsign b); cbn [xorb]; ring.
Qed.

End ArithFacts.

(* ------------------------------------------------------------------ *)
(** ** The formatted text, read back *)

Module FormatFacts.

Import PyDecimal Py PyDecimalFacts DineroModel DineroFacts.
Import DineroOutput MoreFacts TextFacts.

Local Abbreviation chars := list_ascii_of_string.
Local Abbreviation digit := (fun c : ascii => is_digit c = true).
Local Abbreviation not_sep := (fun c : ascii => negb (Ascii.eqb c ","%char)).

Lemma digit_not_sep c : is_digit c = true -> not_sep c = true.
Proof.
  intros H. cbv beta. destruct (Ascii.eqb_spec c ","%char) as [->|_]; [|reflexivity].
  vm_compute in H. discriminate H.
Qed.

Lemma filter_digits l : Forall digit l -> filter not_sep l = l.
Proof.
  induction 1 as [|c l Hc F IH]; [reflexivity|].
  cbn [filter]. rewrite (digit_not_sep c Hc), IH. reflexivity.
Qed.

Lemma filter_insert_sep l :
  Forall digit l -> forall k, filter not_sep (insert_sep k l) = l.
Proof.
  induction 1 as [|c l Hc F IH]; intros k; [reflexivity|].
  destruct k as [|k]; cbn [insert_sep].
  - change (filter not_sep (","%char :: c :: insert_sep 2 l))
      with (filter not_sep (c :: insert_sep 2 l)).
    cbn [filter]. rewrite (digit_not_sep c Hc), IH. reflexivity.
  - cbn [filter]. rewrite (digit_not_sep c Hc), IH. reflexivity.
Qed.

Lemma chars_group_thousands s :
  Forall digit (chars s) -> filter not_sep (chars (group_thousands s)) = chars s.
Proof.
  intros F. unfold group_thousands.
  rewrite list_ascii_of_string_of_list_ascii, filter_rev.
  rewrite filter_insert_sep by (apply Forall_rev; exact F).
  apply rev_involutive.
Qed.

Lemma rescale_same s c x : _rescale (Dec s c x) x = Dec s c x.
Proof.
  unfold _rescale, is_zero. cbn [dsign dint dexp].
  destruct (N.eqb_spec c 0) as [->|_]; [reflexivity|].
  rewrite Z.leb_refl, Z.sub_diag, pow10_0, N.mul_1_r. reflexivity.
Qed.

Lemma append_empty_r (s : string) : (s ++ "")%string = s.
Proof. induction s as [|c s IH]; cbn; [reflexivity | now rewrite IH]. Qed.

(** The shape of [format(q, ",.{e}f")] for a number with exactly [e]
    fractional digits: a sign, the grouped digits of the integer part,
    and a point followed by [e] digits when [e] is not zero. *)
Lemma format_f_shape q e :
  0 <= e -> dexp q = - e ->
  exists ip fp : string,
    format_f e q
    = ((if dsign q then "-" else "")
       ++ group_thousands ip
       ++ (if (e =? 0)%Z then "" else "." ++ fp))%string /\
    Forall digit (chars ip) /\ Forall digit (chars fp) /\ chars ip <> [] /\
    Z.of_nat (String.length fp) = e /\
    digits_value (chars ip ++ chars fp) = dint q.
Proof.
  intros He Hx. destruct q as [sg c x]. cbn [dexp] in Hx. subst x.
  set (int := digits_of c). set (n := ndigits c).
  destruct (digits_of_chars c) as (F & V). fold int in F, V.
  pose proof (digits_of_nonempty c) as Hne. fold int in Hne.
  pose proof (ndigits_pos c) as Hn. fold n in Hn.
  assert (Hlen : Z.of_nat (List.length (chars int)) = n).
  { rewrite chars_length. reflexivity. }
  assert (Hsl : str_len int = n) by reflexivity.
  assert (Hshape :
    exists ip fp,
      format_f e (Dec sg c (- e))
      = ((if sg then "-" else "")
         ++ group_thousands ip
         ++ (if (String.length fp =? 0)%nat then "" else "." ++ fp))%string /\
      Forall digit (chars ip) /\ Forall digit (chars fp) /\ chars ip <> [] /\
      Z.of_nat (List.length (chars fp)) = e /\
      digits_value (chars ip ++ chars fp) = c).
  { unfold format_f. rewrite rescale_same. cbn [dsign dint dexp].
    fold int. rewrite Hsl.
    destruct (Z.ltb_spec (- e + n) 0) as [L|L].
    - exists "0"%string, (zeros (- (- e + n)) ++ int)%string.
      split; [reflexivity|].
      rewrite chars_append, chars_zeros.
      split; [constructor; [reflexivity | constructor]|].
      split; [apply Forall_app; split; [apply zeros_digits | exact F]|].
      split; [discriminate|]. split.
      + rewrite length_app, repeat_length. lia.
      + change (chars "0" ++ repeat "0"%char (Z.to_nat (- (- e + n))) ++ chars int)%list
          with (repeat "0"%char (S (Z.to_nat (- (- e + n)))) ++ chars int)%list.
        rewrite digits_value_zeros. exact V.
    - destruct (Z.ltb_spec n (- e + n)) as [M|M]; [lia|].
      destruct (Z.eqb_spec (- e + n) 0) as [Z0|Z0].
      + exists "0"%string, (drop (- e + n) int).
        split; [reflexivity|].
        rewrite chars_drop, Z0. cbn [Z.to_nat skipn].
        split; [constructor; [reflexivity | constructor]|].
        split; [exact F|]. split; [discriminate|]. split; [lia|].
        change (chars "0" ++ chars int)%list
          with (repeat "0"%char 1 ++ chars int)%list.
        rewrite digits_value_zeros. exact V.
      + exists (take (- e + n) int), (drop (- e + n) int).
        split; [reflexivity|].
        rewrite chars_take, chars_drop.
        pose proof (firstn_skipn (Z.to_nat (- e + n)) (chars int)) as Hfs.
        assert (Hboth : Forall digit (firstn (Z.to_nat (- e + n)) (chars int)
                                      ++ skipn (Z.to_nat (- e + n)) (chars int)))
          by (rewrite Hfs; exact F).
        apply Forall_app in Hboth as (F1 & F2).
        split; [exact F1|]. split; [exact F2|]. split.
        { intros E.
          assert (Hl : List.length (firstn (Z.to_nat (- e + n)) (chars int)) = 0%nat)
            by (rewrite E; reflexivity).
          rewrite length_firstn in Hl. lia. }
        split; [rewrite length_skipn; lia|]. rewrite Hfs. exact V. }
  destruct Hshape as (ip & fp & Hs & Fi & Ff & Hi & Hl & Hv).
  rewrite chars_length in Hl.
  exists ip, fp. cbn [dsign dint]. split; [|auto].
  rewrite Hs. do 2 f_equal.
  destruct (Nat.eqb_spec (String.length fp) 0) as [E|E];
    destruct (Z.eqb_spec e 0) as [E'|E']; try reflexivity; lia.
Qed.

(** [format(q, ",.{e}f")] of a number with exactly [e] fractional digits,
    its separators removed, is a numeral of [q]. *)
Lemma format_f_reads_back q e :
  0 <= e -> dexp q = - e ->
  of_string (without_separators (format_f e q)) = Some q.
Proof.
  intros He Hx.
  destruct (format_f_shape q e He Hx) as (ip & fp & Hs & Fi & Ff & Hi & Hl & Hv).
  destruct q as [sg c x]. cbn [dexp dsign dint] in *. subst x.
  rewrite <- Hv at 2.
  replace (- e) with (0 - Z.of_nat (List.length (chars fp))) at 2
    by (rewrite chars_length; lia).
  apply (of_string_parts _ sg (chars ip) (chars fp) (negb (e =? 0)) 0);
    try assumption.
  - unfold without_separators. rewrite list_ascii_of_string_of_list_ascii.
    rewrite Hs, !chars_append, !filter_app, (chars_group_thousands ip Fi).
    cbn [Z.eqb]. rewrite List.app_nil_r. f_equal; [destruct sg; reflexivity|].
    f_equal. destruct (e =? 0); cbn [negb]; [reflexivity|].
    rewrite chars_append.
    change (filter not_sep (chars "." ++ chars fp))
      with ("."%char :: filter not_sep (chars fp)).
    now rewrite (filter_digits _ Ff).
  - intros Hd. apply negb_false_iff, Z.eqb_eq in Hd.
    rewrite <- chars_length in Hl. apply length_zero_iff_nil. lia.
Qed.

(** Counting from the right, every fourth character of the grouped
    digits, and no other, is a separator. *)
Lemma insert_sep_places l :
  Forall digit l ->
  forall (k i : nat) (c : ascii),
    (k <= 3)%nat -> nth_error (insert_sep k l) i = Some c ->
    (c = ","%char <-> (k <= i)%nat /\ ((i - k) mod 4 = 0)%nat).
Proof.
  induction 1 as [|c0 l Hc F IH]; intros k i c Hk Hn.
  - destruct i; discriminate Hn.
  - assert (Hd : c0 <> ","%char).
    { intros ->. vm_compute in Hc. discriminate Hc. }
    destruct k as [|k]; cbn [insert_sep] in Hn.
    + destruct i as [|[|i]]; cbn [nth_error] in Hn.
      * injection Hn as <-. split; [intros _; split; [lia | reflexivity] | reflexivity].
      * injection Hn as <-. split; [contradiction|]. intros (_ & E). discriminate E.
      * rewrite (IH 2%nat i c ltac:(lia) Hn).
        replace (S (S i) - 0)%nat with (S (S i)) by lia.
        destruct (Nat.le_gt_cases 2 i) as [G|G].
        -- replace (S (S i)) with ((i - 2) + 1 * 4)%nat by lia.
           rewrite Nat.Div0.mod_add. split; [intros (_ & E); split; [lia | exact E]
                                       | intros (_ & E); split; [exact G | exact E]].
        -- split; [intros (C & _); lia|]. intros (_ & E).
           destruct i as [|[|i]]; [discriminate E | discriminate E | lia].
    + destruct i as [|i]; cbn [nth_error] in Hn.
      * injection Hn as <-. split; [contradiction | intros (C & _); lia].
      * rewrite (IH k i c ltac:(lia) Hn).
        replace (S i - S k)%nat with (i - k)%nat by lia.
        split; intros (A & B); (split; [lia | exact B]).
Qed.

Lemma group_thousands_places ip :
  Forall digit (chars ip) ->
  forall (i : nat) (c : ascii),
    nth_error (rev (chars (group_thousands ip))) i = Some c ->
    (c = ","%char <-> (i mod 4 = 3)%nat).
Proof.
  intros F i c Hn. unfold group_thousands in Hn.
  rewrite list_ascii_of_string_of_list_ascii, rev_involutive in Hn.
  rewrite (insert_sep_places _ (Forall_rev F) 3%nat i c ltac:(lia) Hn).
  destruct (Nat.le_gt_cases 3 i) as [G|G].
  - replace i with ((i - 3) + 3)%nat at 3 by lia.
    split.
    + intros (_ & E).
      rewrite Nat.Div0.add_mod, E. reflexivity.
    + intros E. split; [exact G|].
      replace (i - 3)%nat with ((i - 3 + 3) + 1 - 1 * 4)%nat by lia.
      replace (i - 3 + 3)%nat with i in * by lia.
      pose proof (Nat.div_mod_eq i 4) as Hdm. rewrite E in Hdm.
      rewrite Hdm at 1.
      replace (4 * (i / 4) + 3 + 1 - 1 * 4)%nat with ((i / 4) * 4)%nat by lia.
      apply Nat.Div0.mod_mul.
  - split; [intros (C & _); lia|]. intros E.
    rewrite Nat.mod_small in E by lia. lia.
Qed.

Lemma ungroup_thousands ip :
  Forall digit (chars ip) -> without_separators (group_thousands ip) = ip.
Proof.
  intros F. unfold without_separators.
  rewrite (chars_group_thousands ip F). apply string_of_list_ascii_of_string.
Qed.

End FormatFacts.

(* ------------------------------------------------------------------ *)
(** ** The claims *)

Module Claims.

Import PyDecimal Py Reading PyDecimalFacts DineroModel DineroFacts.
Import DineroOutput MoreFacts TextFacts ArithFacts FormatFacts.
Local Open Scope py_scope.

(** C9. Reverse addition [x + d] with any left operand [x] that is not a
    [Dinero] returns [d] itself: [__radd__] ignores its argument and the
    decimal context. *)
Theorem radd_returns_self (d : Dinero) (x : operand) (p : context) :
  __radd__ d x p = (Return d, p).
Proof. reflexivity. Qed.

(** C10. The [precision] property is the currency's [base], whatever the
    amount; and after [_normalize] (quantizing or not, returning or
    raising) the context precision is
    [max(base, len(str(amount)) + exponent)], so never below [base]. *)
Theorem precision_is_base (d : Dinero) (q : bool) (p : context) :
  precision d = base (currency d) /\
  snd (_normalize d q p)
    = Z.max (base (currency d))
            (str_len (to_str (amount d)) + Z.of_N (exponent (currency d))) /\
  base (currency d) <= snd (_normalize d q p).
Proof.
  split; [reflexivity|]. rewrite normalize_state.
  unfold working_precision, precision, exponent_of. split; [reflexivity | lia].
Qed.

(** C4. Quantization rounds half to even.  Whenever [raw_amount]
    returns [q], [q] is the amount rounded to the currency's [exponent]
    places: it keeps the sign, has exactly [exponent] fractional digits,
    is the amount itself when no digit is dropped, and otherwise lies
    within half a unit of the last place of the amount, with an even last
    digit when the amount is exactly halfway; [format()] shows [q] and
    [to_minor_units()] counts it.  [raw_amount] returns for every amount
    written without a positive exponent.  So
    [from_fractional_minor(10.505, USD).format()] is ["0.11"],
    [from_fractional_minor(1050.5, USD).format()] is ["10.50"], the tie
    [10.505] going down to the even digit, and
    [from_fractional_minor(1051.5, USD).format()] is ["10.52"], the tie
    [10.515] going up to the even digit; in a fresh interpreter and under
    every context precision that holds the five digits of the input. *)
Theorem format_rounds_half_even :
  (forall (d : Dinero) (p p' : context) (q : decimal),
     raw_amount d p = (Return q, p') ->
     let c := dint (amount d) in
     let x := dexp (amount d) in
     let e := exponent_of d in
     (dsign q = dsign (amount d) /\ dexp q = - e /\
      (- e <= x -> dint q = (c * pow10 (x + e))%N) /\
      (x < - e ->
       2 * Z.abs (Z.of_N c - Z.of_N (dint q) * Z.of_N (pow10 (- e - x)))
         <= Z.of_N (pow10 (- e - x)) /\
       ((2 * (c mod pow10 (- e - x)) = pow10 (- e - x))%N ->
        N.even (dint q) = true))) /\
     (exists text,
        format d false false p = (Return text, p') /\
        of_string (without_separators text) = Some q) /\
     to_minor_units d p = (Return (signed (Dec (dsign q) (dint q) 0)), p')) /\
  (forall (d : Dinero) (p : context),
     dexp (amount d) <= 0 ->
     exists q, raw_amount d p = (Return q, working_precision d)) /\
  fst (run (d <- from_fractional_minor (OFloat "10.505") USD ;;
            format d false false)) = Return "0.11"%string /\
  fst (run (d <- from_fractional_minor (OFloat "1050.5") USD ;;
            format d false false)) = Return "10.50"%string /\
  fst (run (d <- from_fractional_minor (OFloat "1051.5") USD ;;
            format d false false)) = Return "10.52"%string /\
  forall p : context, 5 <= p ->
    fst ((d <- from_fractional_minor (OFloat "10.505") USD ;;
          format d false false) p) = Return "0.11"%string /\
    fst ((d <- from_fractional_minor (OFloat "1050.5") USD ;;
          format d false false) p) = Return "10.50"%string /\
    fst ((d <- from_fractional_minor (OFloat "1051.5") USD ;;
          format d false false) p) = Return "10.52"%string.
Proof.
  split.
  { intros d p p' q H. cbv zeta. unfold raw_amount in H.
    split; [exact (quantized_nearest_even d p p' q H)|].
    split; [|exact (to_minor_units_of_quantized d p q p' H)].
    destruct (normalize_true_inv d p q p' H) as (Hp' & Hq & _).
    assert (Hx : dexp q = - exponent_of d) by (rewrite Hq; apply rescale_exp).
    assert (Hf : _formatted_amount d p
                 = (Return (format_f (exponent_of d) q), p')).
    { unfold _formatted_amount. rewrite (bind_return _ _ _ _ _ H). reflexivity. }
    exists (format_f (exponent_of d) q). split.
    - unfold format. rewrite (bind_return _ _ _ _ _ Hf). unfold ret.
      cbn [append]. now rewrite append_empty_r.
    - apply format_f_reads_back; [unfold exponent_of; lia | exact Hx]. }
  split; [intros d p Hx; exact (normalize_true_plain d p Hx)|].
  split; [vm_compute; reflexivity|]. split; [vm_compute; reflexivity|].
  split; [vm_compute; reflexivity|].
  intros p Hp.
  assert (Hd : ndigits 10505 = 5) by (vm_compute; reflexivity).
  assert (Hd' : ndigits 10515 = 5) by (vm_compute; reflexivity).
  split; [|split].
  - rewrite (bind_return _ _ _ _ _
               (from_fractional_minor_fits (OFloat "10.505") (Dec false 10505 (-3))
                  USD p ltac:(lia) eq_refl eq_refl ltac:(cbn [dint]; lia))).
    vm_compute. reflexivity.
  - rewrite (bind_return _ _ _ _ _
               (from_fractional_minor_fits (OFloat "1050.5") (Dec false 10505 (-1))
                  USD p ltac:(lia) eq_refl eq_refl ltac:(cbn [dint]; lia))).
    vm_compute. reflexivity.
  - rewrite (bind_return _ _ _ _ _
               (from_fractional_minor_fits (OFloat "1051.5") (Dec false 10515 (-1))
                  USD p ltac:(lia) eq_refl eq_refl ltac:(cbn [dint]; lia))).
    vm_compute. reflexivity.
Qed.

Lemma format_rounds_half_even_witness :
  (2 * (10515 mod pow10 1) = pow10 1)%N /\
  N.even 1052 = true /\
  (exists text,
     format {| amount := Dec false 10515 (-3); currency := USD |} false false
            default_prec = (Return text, 10) /\
     of_string (without_separators text) = Some (Dec false 1052 (-2))) /\
  to_minor_units {| amount := Dec false 10515 (-3); currency := USD |}
                 default_prec = (Return 1052, 10).
Proof.
  destruct (proj1 format_rounds_half_even
              {| amount := Dec false 10515 (-3); currency := USD |}
              default_prec 10 (Dec false 1052 (-2))
              ltac:(vm_compute; reflexivity)) as ((_ & _ & _ & Hr) & Hf & Hm).
  destruct (Hr ltac:(cbn; lia)) as (_ & Hev).
  assert (Ht : (2 * (10515 mod pow10 1) = pow10 1)%N) by (vm_compute; reflexivity).
  split; [exact Ht|]. split; [exact (Hev Ht)|]. split; [exact Hf | exact Hm].
Defined.

(** C1. The round trip [from_minor(m, c).to_minor_units() == m] breaks
    for a whole [m] with more digits than the context precision in force
    when [from_minor] runs: [m % 1] raises [decimal.InvalidOperation].
    In a fresh interpreter that is [m = 10**28]; once a small amount has
    been formatted the precision is 10 and [m = 12345678901] is enough. *)
Theorem round_trip_breaks_beyond_precision :
  run (d <- from_minor (OInt (10 ^ 28)) USD ;; to_minor_units d)
    = (Raise (DecimalException DivisionImpossible), 28) /\
  run (one <- from_major (OInt 1) USD ;;
       format one false false ;;;
       d <- from_minor (OInt 12345678901) USD ;;
       to_minor_units d)
    = (Raise (DecimalException DivisionImpossible), 10).
Proof. split; vm_compute; reflexivity. Qed.

(** C2. For [a = from_major("1E+9", USD)] and [b = from_major(1, EUR)],
    each of [less_than], [less_than_or_equal], [greater_than] and
    [greater_than_or_equal] raises [decimal.InvalidOperation] from the
    quantization of [a], which runs before the currencies are compared;
    [add], [subtract] and [equals_to] raise [DifferentCurrencyError].
    The sum [from_major(500000000, USD).add(500000000)] is such an [a]. *)
Theorem ordering_misses_currency_guard :
  let a := {| amount := Dec false 1 9; currency := USD |} in
  let b := {| amount := of_int 1; currency := EUR |} in
  from_major (OStr "1E+9") USD default_prec = (Return a, default_prec) /\
  from_major (OInt 1) EUR default_prec = (Return b, default_prec) /\
  fst (run (less_than a (ODinero b)))
    = Raise (DecimalException QuantizeTooManyDigits) /\
  fst (run (less_than_or_equal a (ODinero b)))
    = Raise (DecimalException QuantizeTooManyDigits) /\
  fst (run (greater_than a (ODinero b)))
    = Raise (DecimalException QuantizeTooManyDigits) /\
  fst (run (greater_than_or_equal a (ODinero b)))
    = Raise (DecimalException QuantizeTooManyDigits) /\
  fst (run (add a (ODinero b))) = Raise DifferentCurrencyError /\
  fst (run (subtract a (ODinero b))) = Raise DifferentCurrencyError /\
  fst (run (equals_to a (ODinero b))) = Raise DifferentCurrencyError /\
  fst (run (h <- from_major (OInt 500000000) USD ;;
            s <- add h (OInt 500000000) ;;
            less_than s (ODinero b)))
    = Raise (DecimalException QuantizeTooManyDigits).
Proof. cbv zeta. repeat split; vm_compute; reflexivity. Qed.

(** C3. [equals_to] does not return for two equal amounts whose text is
    shorter than their integer part: [from_major("1E+9", USD)] compared
    with itself raises [decimal.InvalidOperation], and so does the sum
    [from_major(500000000, USD).add(500000000)] compared with itself. *)
Theorem equals_to_raises_on_large_amount :
  fst (run (a <- from_major (OStr "1E+9") USD ;; equals_to a (ODinero a)))
    = Raise (DecimalException QuantizeTooManyDigits) /\
  fst (run (a <- from_major (OInt 500000000) USD ;;
            s <- add a (OInt 500000000) ;;
            equals_to s (ODinero s)))
    = Raise (DecimalException QuantizeTooManyDigits).
Proof. split; vm_compute; reflexivity. Qed.

(** C6. [add] promotes the operand and adds, but the sum is rounded to
    the precision that the right operand's normalization has set, not
    kept whole: [from_major("100000000.01", USD).add("1")] holds
    [100000001.0], one cent short of the sum, and is not equal to
    [from_major("100000001.01", USD)]; the same two amounts added the
    other way round give [100000001.01], so [a.add(b)] and [b.add(a)]
    differ.  The scenario of the spec,
    [from_major("24.5", USD).add("1") == from_major("25.50", USD)],
    holds. *)
Theorem add_loses_cent_on_large_amount :
  run (a <- from_major (OStr "100000000.01") USD ;;
       s <- add a (OStr "1") ;;
       ret (amount s))
    = (Return (Dec false 1000000010 (-1)), 10) /\
  fst (run (a <- from_major (OStr "100000000.01") USD ;;
            s <- add a (OStr "1") ;;
            to_minor_units s)) = Return 10000000100 /\
  fst (run (a <- from_major (OStr "100000000.01") USD ;;
            s <- add a (OStr "1") ;;
            t <- from_major (OStr "100000001.01") USD ;;
            equals_to s (ODinero t))) = Return false /\
  fst (run (b <- from_major (OStr "1") USD ;;
            s <- add b (OStr "100000000.01") ;;
            to_minor_units s)) = Return 10000000101 /\
  fst (run (a <- from_major (OStr "100000000.01") USD ;;
            b <- from_major (OStr "1") USD ;;
            s <- add a (ODinero b) ;;
            t <- add b (ODinero a) ;;
            equals_to s (ODinero t))) = Return false /\
  fst (run (a <- from_major (OStr "24.5") USD ;;
            s <- add a (OStr "1") ;;
            t <- from_major (OStr "25.50") USD ;;
            equals_to s (ODinero t))) = Return true.
Proof. repeat split; vm_compute; reflexivity. Qed.

(** C7. Dividing by an operand whose value is zero never yields a
    [Dinero]: [divide] raises [decimal.DivisionByZero], or
    [decimal.InvalidOperation] (division undefined) when the dividend is
    zero as well. *)
Theorem divide_by_zero_fails (d : Dinero) (x : operand) (v : decimal)
    (p : context) :
  numeric_value x = Some v -> is_zero v = true ->
  exists p',
    divide d x p
      = (Raise (DecimalException
                  (if is_zero (amount d) then DivisionUndefined
                   else DivisionByZero)), p').
Proof.
  intros Hx Hz.
  destruct (numeric_value_valid x v p Hx) as (H1 & H2 & H3).
  set (other := {| amount := v; currency := currency d |}).
  exists (working_precision other).
  unfold divide, __truediv__, multiplication_and_division_amount.
  rewrite (bind_return _ _ _ _ _ H1).
  rewrite (bind_return _ _ _ _ _ (get_instance_numeric d x v p Hx)).
  unfold arith.
  rewrite (bind_return _ _ _ _ _ (normalize_plain d p)).
  rewrite (bind_return _ _ _ _ _ (normalize_plain other _)).
  rewrite (bind_return _ _ _ _ _ (eq_refl : get_prec _ = (Return _, _))).
  apply bind_raise.
  unfold signal, truediv. cbn [amount other].
  rewrite (normalize_zero _ v Hz).
  rewrite (normalize_is_zero _ (amount d) (working_precision_pos d)).
  destruct (is_zero (amount d)); reflexivity.
Qed.

Lemma divide_by_zero_fails_witness :
  exists p',
    divide {| amount := Dec false 232 (-2); currency := USD |} (OInt 0)
           default_prec
      = (Raise (DecimalException DivisionByZero), p').
Proof.
  exact (divide_by_zero_fails
           {| amount := Dec false 232 (-2); currency := USD |}
           (OInt 0) (of_int 0) default_prec eq_refl eq_refl).
Defined.

(** C8, as stated, fails: for a currency of base 5 and exponent 1,
    [from_minor(5, c)] holds 0.5 major units, which is 5 / 10 and not
    5 / base^exponent. *)
Lemma from_minor_ignores_base :
  exists d, run (from_minor (OInt 5) MGA) = (Return d, default_prec) /\
            amount d = Dec false 5 (-1) /\
            ~ is_quotient (amount d) (of_int 5)
                (Z.to_N (base MGA) ^ exponent MGA).
Proof.
  eexists. split; [vm_compute; reflexivity|]. split; [reflexivity|].
  vm_compute. discriminate.
Qed.

(** C8, amended. For a numeric input [x] whose integer part has at most
    as many digits as the context precision, [from_minor(x, c)] raises
    [ValueError] exactly when [x] is not whole; when [x] is whole it
    returns a [Dinero] in currency [c] whose amount is exactly
    [x / 10^exponent], and leaves the context as it was. *)
Theorem from_minor_whole_check (x : operand) (a : decimal) (cur : Currency)
    (p : context) :
  1 <= p -> numeric_value x = Some a -> (int_part a < pow10 p)%N ->
  (fst (from_minor x cur p) = Raise ValueError <-> is_whole a = false) /\
  (is_whole a = true ->
   exists d, from_minor x cur p = (Return d, p) /\ currency d = cur /\
             is_quotient (amount d) a (10 ^ exponent cur)).
Proof.
  intros Hp Hx Hi.
  rewrite (from_minor_eval x a cur p Hp Hx Hi).
  destruct (is_whole a) eqn:Hw.
  - destruct (truediv_pow10_exact p a (Z.of_N (exponent cur)) Hp
                (N2Z.is_nonneg _) (whole_significant p a Hw Hi))
      as (R & HR & _ & HQ & _).
    rewrite ten_to_eq, HR. split.
    + split; discriminate.
    + intros _. exists {| amount := R; currency := cur |}.
      split; [reflexivity|]. split; [reflexivity|].
      cbn [amount]. unfold pow10 in HQ. now rewrite N2Z.id in HQ.
  - split; [|discriminate]. split; reflexivity.
Qed.

Lemma from_minor_whole_check_witness :
  exists d, from_minor (OInt 10025) USD default_prec = (Return d, default_prec) /\
            currency d = USD /\
            is_quotient (amount d) (of_int 10025) (10 ^ exponent USD).
Proof.
  refine (proj2 (from_minor_whole_check (OInt 10025) (of_int 10025) USD
                   default_prec _ eq_refl _) eq_refl).
  - unfold default_prec. lia.
  - vm_compute. reflexivity.
Defined.




End Claims.

(* ------------------------------------------------------------------ *)
(** ** Further properties of the class *)

Module Extras.

Import PyDecimal Py Reading PyDecimalFacts DineroModel DineroFacts.
Import DineroOutput MoreFacts TextFacts ArithFacts FormatFacts.
Local Open Scope py_scope.

(** X1. For a whole number [m] with no more digits than the context
    precision, and any currency, [from_minor(m, c).to_minor_units()] is
    [m]. *)
Theorem minor_units_round_trip (m : Z) (cur : Currency) (p : context) :
  1 <= p -> Z.abs m < Z.of_N (pow10 p) ->
  fst ((d <- from_minor (OInt m) cur ;; to_minor_units d) p) = Return m.
Proof.
  intros Hp Hm. destruct (round_trip_within_precision m cur p Hp Hm) as (p' & H).
  rewrite H. reflexivity.
Qed.

Lemma minor_units_round_trip_witness :
  fst ((d <- from_minor (OInt (-10025)) USD ;; to_minor_units d) default_prec)
    = Return (-10025).
Proof.
  apply minor_units_round_trip; [unfold default_prec; lia | vm_compute; reflexivity].
Defined.

(** X2. When the currency codes of [a] and [b] differ, [add], [subtract]
    and [equals_to] raise [DifferentCurrencyError] and leave the context
    untouched; the four ordering methods raise it too whenever the
    amount of [a] is written without a positive exponent. *)
Theorem mismatched_currencies_rejected (a b : Dinero) (p : context) :
  code_of a <> code_of b ->
  add a (ODinero b) p = (Raise DifferentCurrencyError, p) /\
  subtract a (ODinero b) p = (Raise DifferentCurrencyError, p) /\
  equals_to a (ODinero b) p = (Raise DifferentCurrencyError, p) /\
  (dexp (amount a) <= 0 ->
   fst (less_than a (ODinero b) p) = Raise DifferentCurrencyError /\
   fst (less_than_or_equal a (ODinero b) p) = Raise DifferentCurrencyError /\
   fst (greater_than a (ODinero b) p) = Raise DifferentCurrencyError /\
   fst (greater_than_or_equal a (ODinero b) p) = Raise DifferentCurrencyError).
Proof.
  intros Hc. destruct (currency_guard a b p Hc) as (H1 & H2 & H3 & H4).
  split; [exact H1|]. split; [exact H2|]. split; [exact H3|].
  intros Hx. destruct (normalize_true_plain a p Hx) as (q & Hq).
  unfold less_than, less_than_or_equal, greater_than, greater_than_or_equal,
    __lt__, __le__, __gt__, __ge__.
  rewrite !(H4 _ q _ Hq). repeat split.
Qed.

Lemma mismatched_currencies_rejected_witness :
  add {| amount := Dec false 245 (-1); currency := USD |}
      (ODinero {| amount := of_int 1; currency := EUR |}) default_prec
    = (Raise DifferentCurrencyError, default_prec).
Proof.
  refine (proj1 (mismatched_currencies_rejected
                   {| amount := Dec false 245 (-1); currency := USD |}
                   {| amount := of_int 1; currency := EUR |} default_prec _)).
  vm_compute. discriminate.
Defined.

(** X3. [from_fractional_minor(x, c)] holds exactly [x / 10^exponent]
    whenever [x] has no more significant digits than the context
    precision; nothing is rounded at construction. *)
Theorem fractional_minor_is_exact (x : operand) (a : decimal) (cur : Currency)
    (p : context) :
  1 <= p -> numeric_value x = Some a -> significant p a ->
  exists d, from_fractional_minor x cur p = (Return d, p) /\
            currency d = cur /\
            is_quotient (amount d) a (10 ^ exponent cur).
Proof.
  intros Hp Hx Hs.
  destruct (numeric_value_valid x a p Hx) as (H1 & H2 & _).
  destruct (truediv_pow10_exact p a (Z.of_N (exponent cur)) Hp (N2Z.is_nonneg _) Hs)
    as (R & HR & _ & HQ & _).
  exists {| amount := R; currency := cur |}.
  split; [|split; [reflexivity|]].
  - unfold from_fractional_minor.
    rewrite (bind_return _ _ _ _ _ H1), (bind_return _ _ _ _ _ H2).
    rewrite (bind_return _ _ _ _ _ (eq_refl : get_prec p = (Return p, p))).
    rewrite ten_to_eq, HR. reflexivity.
  - cbn [amount]. unfold pow10 in HQ. now rewrite N2Z.id in HQ.
Qed.

Lemma fractional_minor_is_exact_witness :
  exists d, from_fractional_minor (OFloat "12.25") USD default_prec
              = (Return d, default_prec) /\
            currency d = USD /\
            is_quotient (amount d) (Dec false 1225 (-2)) (10 ^ exponent USD).
Proof.
  refine (fractional_minor_is_exact (OFloat "12.25") (Dec false 1225 (-2)) USD
            default_prec _ eq_refl _).
  - unfold default_prec. lia.
  - exists 1225%N, 0. split; [lia|]. split; vm_compute; reflexivity.
Defined.

(** X4. Whatever [from_minor] returns, [from_fractional_minor] returns
    the same object for the same input: the two factories differ only
    in the whole-number check. *)
Theorem minor_agrees_with_fractional (x : operand) (cur : Currency)
    (p p' : context) (d : Dinero) :
  from_minor x cur p = (Return d, p') ->
  from_fractional_minor x cur p = (Return d, p').
Proof.
  unfold from_minor, from_fractional_minor, bind.
  destruct (dinero_amount x p) as [[[]|ex] p1]; [|discriminate].
  destruct (to_decimal x p1) as [[a|ex] p2]; [|discriminate].
  unfold get_prec.
  destruct (signal (rem p2 a (of_int 1)) p2) as [[r|ex] p3] eqn:Hr; [|discriminate].
  assert (p3 = p2).
  { unfold signal, raise, ret in Hr. destruct (rem p2 a (of_int 1)); congruence. }
  subst p3.
  destruct (check (PyDecimal.eqb r (of_int 0)) ValueError p2) as [[[]|ex] p4] eqn:Hc;
    [|discriminate].
  assert (p4 = p2).
  { unfold check, raise, ret in Hc. destruct (PyDecimal.eqb r (of_int 0)); congruence. }
  subst p4. auto.
Qed.

Lemma minor_agrees_with_fractional_witness :
  from_fractional_minor (OInt 1050) USD default_prec
    = (Return {| amount := Dec false 105 (-1); currency := USD |}, default_prec).
Proof.
  apply minor_agrees_with_fractional. vm_compute. reflexivity.
Defined.

(** X5. [to_minor_units] is the coefficient of the quantized amount
    [raw_amount], with its sign; it raises exactly when the quantization
    raises, and leaves the same context. *)
Theorem minor_units_of_raw_amount (d : Dinero) (p : context) :
  to_minor_units d p
    = match raw_amount d p with
      | (Return q, p') =>
          (Return (if dsign q then - Z.of_N (dint q) else Z.of_N (dint q)), p')
      | (Raise ex, p') => (Raise ex, p')
      end.
Proof.
  unfold raw_amount. destruct (_normalize d true p) as [[q|ex] p'] eqn:H.
  - apply (to_minor_units_of_quantized d p q p' H).
  - unfold to_minor_units. apply bind_raise. exact H.
Qed.

(** X6. Quantization is idempotent: the quantized amount of a [Dinero],
    taken as the amount of a [Dinero] of the same currency, quantizes
    to itself, digit for digit. *)
Theorem quantization_is_idempotent (d : Dinero) (p p' p2 : context)
    (q : decimal) :
  raw_amount d p = (Return q, p') ->
  fst (raw_amount {| amount := q; currency := currency d |} p2) = Return q.
Proof.
  unfold raw_amount. intros H.
  destruct (normalize_true_inv d p q p' H) as (_ & Hq & _).
  assert (Hx : dexp q = - exponent_of d) by (rewrite Hq; apply rescale_exp).
  set (d2 := {| amount := q; currency := currency d |}).
  rewrite (normalize_true_exact d2 p2).
  - cbn [fst amount d2]. unfold exponent_of at 1 2. cbn [currency d2].
    fold (exponent_of d). rewrite Hx.
    replace (- exponent_of d + exponent_of d) with 0 by lia.
    rewrite pow10_0, N.mul_1_r. destruct q as [s c x]. cbn [dexp] in Hx.
    cbn [dsign dint]. now rewrite Hx.
  - unfold exponent_of in *. cbn [amount currency d2]. lia.
Qed.

Lemma quantization_is_idempotent_witness :
  fst (raw_amount {| amount := Dec false 333326 (-2); currency := USD |} 28)
    = Return (Dec false 333326 (-2)).
Proof.
  apply (quantization_is_idempotent
           {| amount := Dec false 3333259 (-3); currency := USD |}
           default_prec 10 28 (Dec false 333326 (-2))).
  vm_compute. reflexivity.
Defined.

(** X7. An amount written without a positive exponent can always be
    displayed and exported: [raw_amount], [format], [to_minor_units],
    [to_dict], [to_db_dict] and [__str__] all return, and each leaves
    the context precision at [max(base, len(str(amount)) + exponent)]. *)
Theorem plain_amount_always_exports (d : Dinero) (p : context) :
  dexp (amount d) <= 0 ->
  (exists q, raw_amount d p = (Return q, working_precision d)) /\
  (forall sy cu, exists s, format d sy cu p = (Return s, working_precision d)) /\
  (exists m, to_minor_units d p = (Return m, working_precision d)) /\
  (forall awf, exists r, to_dict d awf p = (Return r, working_precision d)) /\
  (exists r, to_db_dict d p = (Return r, working_precision d)) /\
  (exists s, __str__ d p = (Return s, working_precision d)).
Proof.
  intros Hx. destruct (normalize_true_plain d p Hx) as (q & Hq).
  assert (Hq' : forall p0, _normalize d true p0 = (Return q, working_precision d)).
  { intros p0. rewrite (normalize_any_context d true p0 p). exact Hq. }
  assert (Hf : forall p0, _formatted_amount d p0
                          = (Return (format_f (exponent_of d) q), working_precision d)).
  { intros p0. unfold _formatted_amount. rewrite (bind_return _ _ _ _ _ (Hq' p0)).
    reflexivity. }
  assert (Hfmt : forall sy cu, exists s,
             format d sy cu p = (Return s, working_precision d)).
  { intros sy cu. eexists. unfold format.
    rewrite (bind_return _ _ _ _ _ (Hf p)). reflexivity. }
  assert (Hm : exists m, to_minor_units d p = (Return m, working_precision d)).
  { eexists. apply (to_minor_units_of_quantized d p q _ Hq). }
  split; [exists q; exact Hq|]. split; [exact Hfmt|]. split; [exact Hm|].
  split; [|split].
  - intros awf. unfold to_dict. rewrite (bind_return _ _ _ _ _ Hq).
    destruct awf.
    + eexists. rewrite (bind_return _ _ _ _ _ (Hf _)). reflexivity.
    + eexists. reflexivity.
  - destruct Hm as (m & Hm). eexists. unfold to_db_dict.
    rewrite (bind_return _ _ _ _ _ Hm). reflexivity.
  - apply Hfmt.
Qed.

Lemma plain_amount_always_exports_witness :
  exists s, format {| amount := Dec false 3333259 (-3); currency := USD |}
                   true true default_prec = (Return s, 10).
Proof.
  apply (proj1 (proj2 (plain_amount_always_exports
                         {| amount := Dec false 3333259 (-3); currency := USD |}
                         default_prec ltac:(cbn; lia)))).
Defined.

(** X8. The five comparisons of one receiver agree: when [less_than]
    returns, so do the other four, exactly one of less, equal and
    greater holds, [less_than_or_equal] is less or equal and
    [greater_than_or_equal] is greater or equal. *)
Theorem comparisons_agree (a b : Dinero) (p : context) (lt : bool) :
  fst (less_than a (ODinero b) p) = Return lt ->
  exists eq gt,
    fst (equals_to a (ODinero b) p) = Return eq /\
    fst (greater_than a (ODinero b) p) = Return gt /\
    fst (less_than_or_equal a (ODinero b) p) = Return (lt || eq) /\
    fst (greater_than_or_equal a (ODinero b) p) = Return (gt || eq) /\
    ((lt = true /\ eq = false /\ gt = false) \/
     (lt = false /\ eq = true /\ gt = false) \/
     (lt = false /\ eq = false /\ gt = true)).
Proof.
  intros H. destruct (less_than a (ODinero b) p) as [[r|ex] p1] eqn:Hlt;
    cbn [fst] in H; [|discriminate]. injection H as ->.
  destruct (ordering_inv _ a b p lt p1 Hlt) as (n1 & n2 & Hc & H1 & H2 & Hr).
  exists (PyDecimal.eqb n1 n2), (PyDecimal.ltb n2 n1).
  unfold greater_than, less_than_or_equal, greater_than_or_equal, __gt__, __le__, __ge__.
  rewrite !(ordering_eval _ a b p n1 n2 Hc H1 H2).
  assert (H1' : _normalize a true (working_precision b)
                = (Return n1, working_precision a))
    by (rewrite (normalize_any_context a true _ p); exact H1).
  rewrite (equals_to_quantized a b p n1 n2 _ _ Hc H2 H1').
  cbn [fst]. subst lt.
  split; [reflexivity|]. split; [reflexivity|].
  split; [now rewrite leb_ltb|]. split; [now rewrite geb_gtb|].
  pose proof (cmp_trichotomy n1 n2) as T.
  destruct (cmp n1 n2); destruct T as (T1 & T2 & T3); rewrite T1, T2, T3; tauto.
Qed.

Lemma comparisons_agree_witness :
  exists eq gt,
    fst (equals_to {| amount := of_int 24; currency := USD |}
                   (ODinero {| amount := of_int 25; currency := USD |})
                   default_prec) = Return eq /\
    fst (greater_than {| amount := of_int 24; currency := USD |}
                      (ODinero {| amount := of_int 25; currency := USD |})
                      default_prec) = Return gt /\
    fst (less_than_or_equal {| amount := of_int 24; currency := USD |}
                            (ODinero {| amount := of_int 25; currency := USD |})
                            default_prec) = Return (true || eq) /\
    fst (greater_than_or_equal {| amount := of_int 24; currency := USD |}
                               (ODinero {| amount := of_int 25; currency := USD |})
                               default_prec) = Return (gt || eq) /\
    ((true = true /\ eq = false /\ gt = false) \/
     (true = false /\ eq = true /\ gt = false) \/
     (true = false /\ eq = false /\ gt = true)).
Proof.
  apply (comparisons_agree {| amount := of_int 24; currency := USD |}
           {| amount := of_int 25; currency := USD |} default_prec true).
  vm_compute. reflexivity.
Defined.

(** X9. Swapping the operands mirrors the comparisons: when
    [a.less_than(b)] returns [r], [b.greater_than(a)] returns [r] and
    [b.less_than_or_equal(a)] returns its negation, and [equals_to]
    gives the same answer in both directions. *)
Theorem comparisons_mirror (a b : Dinero) (p : context) (r : bool) :
  fst (less_than a (ODinero b) p) = Return r ->
  fst (greater_than b (ODinero a) p) = Return r /\
  fst (less_than_or_equal b (ODinero a) p) = Return (negb r) /\
  fst (equals_to b (ODinero a) p) = fst (equals_to a (ODinero b) p).
Proof.
  intros H. destruct (less_than a (ODinero b) p) as [[r0|ex] p1] eqn:Hlt;
    cbn [fst] in H; [|discriminate]. injection H as ->.
  destruct (ordering_inv _ a b p r p1 Hlt) as (n1 & n2 & Hc & H1 & H2 & Hr).
  unfold greater_than, less_than_or_equal, __gt__, __le__.
  rewrite !(ordering_eval _ b a p n2 n1 (eq_sym Hc) H2 H1).
  assert (H1' : _normalize a true (working_precision b)
                = (Return n1, working_precision a))
    by (rewrite (normalize_any_context a true _ p); exact H1).
  assert (H2' : _normalize b true (working_precision a)
                = (Return n2, working_precision b))
    by (rewrite (normalize_any_context b true _ p); exact H2).
  rewrite (equals_to_quantized a b p n1 n2 _ _ Hc H2 H1').
  rewrite (equals_to_quantized b a p n2 n1 _ _ (eq_sym Hc) H1 H2').
  cbn [fst]. subst r. split; [reflexivity|]. split.
  - f_equal. unfold PyDecimal.leb, PyDecimal.ltb. rewrite (cmp_antisym n1 n2).
    destruct (cmp n1 n2); reflexivity.
  - f_equal. apply eqb_sym.
Qed.

Lemma comparisons_mirror_witness :
  fst (greater_than {| amount := of_int 25; currency := USD |}
                    (ODinero {| amount := of_int 24; currency := USD |})
                    default_prec) = Return true.
Proof.
  apply (proj1 (comparisons_mirror {| amount := of_int 24; currency := USD |}
                  {| amount := of_int 25; currency := USD |} default_prec true
                  ltac:(vm_compute; reflexivity))).
Defined.

(** X10. Subtracting a [Dinero] from itself always gives an amount of
    zero minor units, however large or long the amount is. *)
Theorem subtract_self_is_zero (d : Dinero) (p : context) :
  fst ((z <- subtract d (ODinero d) ;; to_minor_units z) p) = Return 0.
Proof.
  set (x := dexp (normalize (working_precision d) (amount d))).
  set (z := {| amount := Dec false 0 x; currency := currency d |}).
  assert (Hs : subtract d (ODinero d) p = (Return z, working_precision d)).
  { unfold subtract, __sub__.
    rewrite (bind_return _ _ _ _ _
               (eq_refl : addition_and_subtraction_amount (ODinero d) p
                          = (Return tt, p))).
    rewrite (bind_return _ _ _ _ _ (get_instance_same d d p eq_refl)).
    unfold arith.
    rewrite (bind_return _ _ _ _ _ (normalize_plain d p)).
    rewrite (bind_return _ _ _ _ _ (normalize_plain d _)).
    rewrite (bind_return _ _ _ _ _ (eq_refl : get_prec _ = (Return _, _))).
    rewrite (bind_return _ _ _ _ _ (eq_refl : ret _ _ = (Return _, _))).
    rewrite sub_self. reflexivity. }
  rewrite (bind_return _ _ _ _ _ Hs).
  assert (Hq : _normalize z true (working_precision d)
               = (Return (Dec false 0 (- exponent_of z)), working_precision z))
    by reflexivity.
  rewrite (to_minor_units_of_quantized z _ _ _ Hq). reflexivity.
Qed.

(** X11. The storage form round-trips: whenever [to_db_dict] returns,
    [from_minor] applied right after to its amount and its currency
    rebuilds a [Dinero] that [equals_to] the original. *)
Theorem storage_round_trip (d : Dinero) (p p1 : context) (r : dict Z) :
  to_db_dict d p = (Return r, p1) ->
  fst ((d' <- from_minor (OInt (d_amount r)) (d_currency r) ;;
        equals_to d' (ODinero d)) p1) = Return true.
Proof.
  intros H. unfold to_db_dict in H.
  destruct (_normalize d true p) as [[q|ex] p'] eqn:Hq.
  2:{ assert (Hm : to_minor_units d p = (Raise ex, p'))
        by (unfold to_minor_units; apply bind_raise; exact Hq).
      rewrite (bind_raise _ _ _ _ _ Hm) in H. discriminate. }
  rewrite (bind_return _ _ _ _ _ (to_minor_units_of_quantized d p q p' Hq)) in H.
  unfold ret, signed in H. cbn [dsign dint] in H.
  injection H as <- <-. cbn [d_amount d_currency].
  destruct (normalize_true_inv d p q p' Hq) as (-> & Hqr & Hnd).
  assert (Hx : dexp q = - exponent_of d) by (rewrite Hqr; apply rescale_exp).
  destruct q as [sq cq xq]. cbn [dsign dint dexp] in *. subst xq. clear Hqr.
  set (m := if sq then - Z.of_N cq else Z.of_N cq).
  set (cur' := currency_with_symbol d).
  pose proof (working_precision_pos d) as Hp.
  assert (Hm : Z.abs m < Z.of_N (pow10 (working_precision d))).
  { pose proof (ndigits_upper cq).
    pose proof (pow10_le_mono (ndigits cq) (working_precision d) Hnd).
    unfold m. destruct sq; lia. }
  destruct (from_minor_int_fits m cur' (working_precision d) Hp Hm)
    as (c' & e' & Hfm & He' & Hc').
  rewrite (bind_return _ _ _ _ _ Hfm).
  set (d' := {| amount := Dec (m <? 0) c' e'; currency := cur' |}).
  assert (Hed : exponent_of d' = exponent_of d) by reflexivity.
  assert (Habs : Z.abs_N m = cq) by (unfold m; destruct sq; lia).
  assert (H1 : _normalize d' true (working_precision d)
               = (Return (Dec (m <? 0) cq (- exponent_of d)), working_precision d')).
  { rewrite (normalize_true_exact d' (working_precision d)).
    - cbn [amount d' dsign dint dexp]. rewrite Hed.
      change (exponent_of d) with (Z.of_N (exponent cur')) at 1.
      rewrite Hc', Habs. reflexivity.
    - rewrite Hed. unfold exponent_of. cbn [amount d' dexp].
      cbn [cur' currency_with_symbol exponent] in He'. lia. }
  assert (H2 : _normalize d true (working_precision d)
               = (Return (Dec sq cq (- exponent_of d)), working_precision d))
    by (rewrite (normalize_any_context d true _ p); exact Hq).
  rewrite (equals_to_quantized d' d (working_precision d) _ _ _ _ eq_refl H2 H1).
  cbn [fst]. f_equal.
  unfold PyDecimal.eqb, cmp, signed. cbn [dsign dint dexp].
  rewrite Z.min_id. replace (- exponent_of d - - exponent_of d) with 0 by lia.
  rewrite pow10_0.
  assert (Hcmp : (if m <? 0 then - Z.of_N cq else Z.of_N cq) * Z.of_N 1
                 = (if sq then - Z.of_N cq else Z.of_N cq) * Z.of_N 1).
  { unfold m. destruct sq; destruct (Z.ltb_spec (- Z.of_N cq) 0);
      destruct (Z.ltb_spec (Z.of_N cq) 0); lia. }
  rewrite Hcmp, Z.compare_refl. reflexivity.
Qed.

Lemma storage_round_trip_witness :
  fst ((d' <- from_minor (OInt 333326) USD ;;
        equals_to d' (ODinero {| amount := Dec false 3333259 (-3);
                                 currency := USD |})) 10) = Return true.
Proof.
  apply (storage_round_trip
           {| amount := Dec false 3333259 (-3); currency := USD |}
           default_prec 10 {| d_amount := 333326; d_currency := USD |}).
  vm_compute. reflexivity.
Defined.

(** X12. [raw_amount] is the amount rounded to the currency's places,
    to the nearest, a tie going to the even digit: it keeps the sign and
    has exactly [exponent] fractional digits; an amount with no more
    fractional digits than that is kept exactly; otherwise the result
    is within half a unit of the last place, and even on a tie. *)
Theorem raw_amount_rounds_to_nearest (d : Dinero) (p p' : context)
    (q : decimal) :
  raw_amount d p = (Return q, p') ->
  let c := dint (amount d) in
  let x := dexp (amount d) in
  let e := exponent_of d in
  dsign q = dsign (amount d) /\ dexp q = - e /\
  (- e <= x -> dint q = (c * pow10 (x + e))%N) /\
  (x < - e ->
   2 * Z.abs (Z.of_N c - Z.of_N (dint q) * Z.of_N (pow10 (- e - x)))
     <= Z.of_N (pow10 (- e - x)) /\
   ((2 * (c mod pow10 (- e - x)) = pow10 (- e - x))%N ->
    N.even (dint q) = true)).
Proof.
  unfold raw_amount. exact (quantized_nearest_even d p p' q).
Qed.

Lemma raw_amount_rounds_to_nearest_witness :
  2 * Z.abs (Z.of_N 10505 - Z.of_N 1050 * Z.of_N (pow10 1))
    <= Z.of_N (pow10 1) /\
  ((2 * (10505 mod pow10 1) = pow10 1)%N -> N.even 1050 = true).
Proof.
  apply (proj2 (proj2 (proj2 (raw_amount_rounds_to_nearest
                  {| amount := Dec false 10505 (-3); currency := USD |}
                  default_prec 10 (Dec false 1050 (-2))
                  ltac:(vm_compute; reflexivity))))).
  cbn. lia.
Defined.

(** X13. For an amount with no positive exponent and at most
    [exponent] fractional digits, [to_minor_units] returns the amount
    times [10^exponent] exactly, whatever its size. *)
Theorem minor_units_of_plain_amount (d : Dinero) (p : context) :
  - exponent_of d <= dexp (amount d) <= 0 ->
  fst (to_minor_units d p)
    = Return (let n := Z.of_N (dint (amount d)
                               * pow10 (dexp (amount d) + exponent_of d)) in
              if dsign (amount d) then - n else n).
Proof.
  intros H. rewrite (to_minor_units_exact d p H). reflexivity.
Qed.

Lemma minor_units_of_plain_amount_witness :
  fst (to_minor_units {| amount := Dec false 245 (-1); currency := USD |}
                      default_prec) = Return 2450.
Proof.
  apply (minor_units_of_plain_amount
           {| amount := Dec false 245 (-1); currency := USD |} default_prec).
  cbn. lia.
Defined.

(** X14. For every integer [n], of any size, and every currency,
    [from_major(n, c).to_minor_units()] is [n * 10^exponent]: unlike
    [from_minor], [from_major] does no arithmetic under the ambient
    precision. *)
Theorem major_integer_to_minor_units (n : Z) (cur : Currency) (p : context) :
  fst ((d <- from_major (OInt n) cur ;; to_minor_units d) p)
    = Return (n * 10 ^ Z.of_N (exponent cur)).
Proof.
  rewrite (bind_return _ _ _ _ _ (from_major_numeric (OInt n) (of_int n) cur p eq_refl)).
  rewrite to_minor_units_exact
    by (unfold exponent_of; cbn [amount currency of_int dexp]; lia).
  cbn [fst]. f_equal. unfold signed, exponent_of.
  cbn [amount currency of_int dsign dint dexp].
  replace (0 + Z.of_N (exponent cur)) with (Z.of_N (exponent cur)) by lia.
  unfold pow10. rewrite N2Z.id, N2Z.inj_mul, N2Z.inj_pow.
  change (Z.of_N 10) with 10.
  destruct (Z.ltb_spec n 0); lia.
Qed.

(** X15. A comparison with anything that is not a [Dinero] raises
    [InvalidOperationError] before the amounts are looked at and leaves
    the context untouched: no number, text or other value is promoted. *)
Theorem comparison_needs_dinero (d : Dinero) (x : operand) (p : context) :
  is_dinero x = false ->
  equals_to d x p = (Raise InvalidOperationError, p) /\
  less_than d x p = (Raise InvalidOperationError, p) /\
  less_than_or_equal d x p = (Raise InvalidOperationError, p) /\
  greater_than d x p = (Raise InvalidOperationError, p) /\
  greater_than_or_equal d x p = (Raise InvalidOperationError, p).
Proof.
  intros H.
  assert (Hc : check (is_dinero x) InvalidOperationError p
               = (Raise InvalidOperationError, p)) by (rewrite H; reflexivity).
  unfold equals_to, less_than, less_than_or_equal, greater_than,
    greater_than_or_equal, __eq__, __lt__, __le__, __gt__, __ge__, ordering.
  repeat split; apply bind_raise; exact Hc.
Qed.

Lemma comparison_needs_dinero_witness :
  equals_to {| amount := of_int 24; currency := USD |} (OInt 24) default_prec
    = (Raise InvalidOperationError, default_prec).
Proof.
  exact (proj1 (comparison_needs_dinero
                  {| amount := of_int 24; currency := USD |} (OInt 24)
                  default_prec eq_refl)).
Defined.

(** X16. The three factories never change the decimal context, whether
    they return or raise: only the methods that normalize write the
    precision. *)
Theorem factories_keep_context (x : operand) (cur : Currency) (p : context) :
  snd (from_major x cur p) = p /\
  snd (from_minor x cur p) = p /\
  snd (from_fractional_minor x cur p) = p.
Proof.
  assert (Hv : forall y q, snd (dinero_amount y q) = q).
  { intros y q. destruct y; cbn; try reflexivity.
    unfold check. destruct (is_some (of_string s)); reflexivity. }
  assert (Ht : forall y q, snd (to_decimal y q) = q).
  { intros y q. destruct y; cbn; try reflexivity;
      destruct (of_string _); reflexivity. }
  assert (Hi : forall y q, snd (__init__ y cur q) = q).
  { intros y q. unfold __init__, bind.
    pose proof (Hv y q) as V. destruct (dinero_amount y q) as [[[]|ex] q1];
      cbn [snd] in V; subst q1; [|reflexivity].
    pose proof (Ht y q) as T. destruct (to_decimal y q) as [[a|ex] q1];
      cbn [snd] in T; subst q1; reflexivity. }
  split; [apply Hi|]. split.
  - unfold from_minor, bind.
    pose proof (Hv x p) as V. destruct (dinero_amount x p) as [[[]|ex] q1];
      cbn [snd] in V; subst q1; [|reflexivity].
    pose proof (Ht x p) as T. destruct (to_decimal x p) as [[a|ex] q1];
      cbn [snd] in T; subst q1; [|reflexivity].
    unfold get_prec, signal.
    destruct (rem p a (of_int 1)) as [c|r]; [reflexivity|]. unfold ret at 1.
    unfold check. destruct (PyDecimal.eqb r (of_int 0)); [|reflexivity].
    unfold ret at 1.
    destruct (truediv p a (ten_to (exponent cur))) as [c|R]; [reflexivity|].
    unfold ret at 1. apply Hi.
  - unfold from_fractional_minor, bind.
    pose proof (Hv x p) as V. destruct (dinero_amount x p) as [[[]|ex] q1];
      cbn [snd] in V; subst q1; [|reflexivity].
    pose proof (Ht x p) as T. destruct (to_decimal x p) as [[a|ex] q1];
      cbn [snd] in T; subst q1; [|reflexivity].
    unfold get_prec, signal.
    destruct (truediv p a (ten_to (exponent cur))) as [c|R]; [reflexivity|].
    unfold ret at 1. apply Hi.
Qed.

(** X17. Two amounts of one currency code, both written without a
    positive exponent, can always be compared: [equals_to] and the four
    ordering methods return; and every such amount equals itself. *)
Theorem plain_amounts_compare (a b : Dinero) (p : context) :
  code_of b = code_of a -> dexp (amount a) <= 0 -> dexp (amount b) <= 0 ->
  (exists r, fst (equals_to a (ODinero b) p) = Return r) /\
  (exists r, fst (less_than a (ODinero b) p) = Return r) /\
  (exists r, fst (less_than_or_equal a (ODinero b) p) = Return r) /\
  (exists r, fst (greater_than a (ODinero b) p) = Return r) /\
  (exists r, fst (greater_than_or_equal a (ODinero b) p) = Return r) /\
  fst (equals_to a (ODinero a) p) = Return true.
Proof.
  intros Hc Ha Hb.
  destruct (normalize_true_plain a p Ha) as (n1 & H1).
  destruct (normalize_true_plain b p Hb) as (n2 & H2).
  assert (H1' : forall p0, _normalize a true p0 = (Return n1, working_precision a))
    by (intros p0; rewrite (normalize_any_context a true p0 p); exact H1).
  unfold less_than, less_than_or_equal, greater_than, greater_than_or_equal,
    __lt__, __le__, __gt__, __ge__.
  rewrite !(ordering_eval _ a b p n1 n2 Hc H1 H2).
  rewrite (equals_to_quantized a b p n1 n2 _ _ Hc H2 (H1' _)).
  rewrite (equals_to_quantized a a p n1 n1 _ _ eq_refl H1 (H1' _)).
  cbn [fst]. repeat split; try (eexists; reflexivity).
  f_equal. unfold PyDecimal.eqb, cmp. now rewrite Z.compare_refl.
Qed.

Lemma plain_amounts_compare_witness :
  fst (equals_to {| amount := Dec false 3333259 (-3); currency := USD |}
                 (ODinero {| amount := Dec false 3333259 (-3); currency := USD |})
                 default_prec) = Return true.
Proof.
  apply (plain_amounts_compare
           {| amount := Dec false 3333259 (-3); currency := USD |}
           {| amount := of_int 1; currency := USD |} default_prec eq_refl
           ltac:(cbn; lia) ltac:(cbn; lia)).
Defined.

(** X18. Major and minor units agree: for every integer [n] whose count
    of minor units [n * 10^exponent] fits the context precision,
    [from_major(n, c)] equals [from_minor(n * 10^exponent, c)]. *)
Theorem major_equals_minor (n : Z) (cur : Currency) (p : context) :
  1 <= p ->
  Z.abs (n * 10 ^ Z.of_N (exponent cur)) < Z.of_N (pow10 p) ->
  fst ((a <- from_major (OInt n) cur ;;
        b <- from_minor (OInt (n * 10 ^ Z.of_N (exponent cur))) cur ;;
        equals_to a (ODinero b)) p) = Return true.
Proof.
  intros Hp Hm.
  set (E := Z.of_N (exponent cur)) in *.
  set (m := n * 10 ^ E) in *.
  rewrite (bind_return _ _ _ _ _ (from_major_numeric (OInt n) (of_int n) cur p eq_refl)).
  destruct (from_minor_int_fits m cur p Hp Hm) as (c' & e' & Hfm & He' & Hc').
  rewrite (bind_return _ _ _ _ _ Hfm). fold E in He', Hc'.
  set (a := {| amount := of_int n; currency := cur |}).
  set (b := {| amount := Dec (m <? 0) c' e'; currency := cur |}).
  assert (HE : 0 <= E) by (unfold E; lia).
  assert (Hb : _normalize b true p
               = (Return (Dec (m <? 0) (Z.abs_N m) (- E)), working_precision b)).
  { rewrite (normalize_true_exact b p).
    - cbn [amount b dsign dint dexp]. change (exponent_of b) with E.
      rewrite Hc'. reflexivity.
    - change (exponent_of b) with E. cbn [amount b dexp]. lia. }
  assert (Ha : _normalize a true (working_precision b)
               = (Return (Dec (n <? 0) (Z.abs_N n * pow10 E) (- E)),
                  working_precision a)).
  { rewrite (normalize_true_exact a _).
    - cbn [amount a of_int dsign dint dexp]. change (exponent_of a) with E.
      replace (0 + E) with E by lia. reflexivity.
    - change (exponent_of a) with E. cbn [amount a of_int dexp]. lia. }
  rewrite (equals_to_quantized a b p _ _ _ _ eq_refl Hb Ha).
  cbn [fst]. f_equal.
  unfold PyDecimal.eqb, cmp, signed. cbn [dsign dint dexp].
  rewrite Z.min_id. replace (- E - - E) with 0 by lia. rewrite pow10_0.
  assert (HP : Z.of_N (pow10 E) = 10 ^ E).
  { unfold pow10. rewrite N2Z.inj_pow, Z2N.id by lia. reflexivity. }
  assert (H10 : 0 < 10 ^ E) by (apply Z.pow_pos_nonneg; lia).
  assert (Hcmp : (if n <? 0 then - Z.of_N (Z.abs_N n * pow10 E)
                  else Z.of_N (Z.abs_N n * pow10 E)) * Z.of_N 1
                 = (if m <? 0 then - Z.of_N (Z.abs_N m) else Z.of_N (Z.abs_N m))
                   * Z.of_N 1).
  { rewrite N2Z.inj_mul, HP, !N2Z.inj_abs_N. unfold m.
    destruct (Z.ltb_spec n 0); destruct (Z.ltb_spec (n * 10 ^ E) 0); nia. }
  rewrite Hcmp, Z.compare_refl. reflexivity.
Qed.

Lemma major_equals_minor_witness :
  fst ((a <- from_major (OInt 10) USD ;;
        b <- from_minor (OInt (10 * 10 ^ Z.of_N (exponent USD))) USD ;;
        equals_to a (ODinero b)) default_prec) = Return true.
Proof.
  apply major_equals_minor; [unfold default_prec; lia | vm_compute; reflexivity].
Defined.

(** X19. The text export reads back: when [to_dict()] returns, its
    ["amount"] is the text of [raw_amount], [from_major] on that text and
    the exported currency builds a [Dinero] holding [raw_amount] digit for
    digit, and that [Dinero] [equals_to] the original. *)
Theorem text_round_trip (d : Dinero) (p p1 : context) (r : dict string) :
  to_dict d false p = (Return r, p1) ->
  (exists q,
     raw_amount d p = (Return q, p1) /\
     d_amount r = to_str q /\
     from_major (OStr (d_amount r)) (d_currency r) p1
       = (Return {| amount := q; currency := d_currency r |}, p1)) /\
  fst ((d' <- from_major (OStr (d_amount r)) (d_currency r) ;;
        equals_to d' (ODinero d)) p1) = Return true.
Proof.
  intros H. unfold to_dict in H.
  destruct (_normalize d true p) as [[q|ex] p'] eqn:Hq.
  2:{ rewrite (bind_raise _ _ _ _ _ Hq) in H. discriminate. }
  rewrite (bind_return _ _ _ _ _ Hq) in H. unfold bind, ret in H.
  injection H as <- <-. cbn [d_amount d_currency].
  set (cur' := currency_with_symbol d).
  assert (Hfm : from_major (OStr (to_str q)) cur' p'
                = (Return {| amount := q; currency := cur' |}, p')).
  { apply from_major_numeric. cbn [numeric_value]. apply of_string_to_str. }
  split.
  { exists q. split; [exact Hq|]. split; [reflexivity | exact Hfm]. }
  rewrite (bind_return _ _ _ _ _ Hfm).
  destruct (normalize_true_inv d p q p' Hq) as (-> & Hqr & _).
  assert (Hx : dexp q = - exponent_of d) by (rewrite Hqr; apply rescale_exp).
  clear Hqr Hfm.
  set (d' := {| amount := q; currency := cur' |}).
  assert (Hed : exponent_of d' = exponent_of d) by reflexivity.
  assert (H1 : _normalize d' true (working_precision d)
               = (Return q, working_precision d')).
  { rewrite (normalize_true_exact d' (working_precision d)).
    - cbn [amount d']. rewrite Hed, Hx.
      replace (- exponent_of d + exponent_of d) with 0 by lia.
      rewrite pow10_0, N.mul_1_r. destruct q as [sq cq xq].
      cbn [dsign dint dexp] in *. now rewrite Hx.
    - rewrite Hed. cbn [amount d']. unfold exponent_of in *. lia. }
  assert (H2 : _normalize d true (working_precision d)
               = (Return q, working_precision d))
    by (rewrite (normalize_any_context d true _ p); exact Hq).
  rewrite (equals_to_quantized d' d (working_precision d) _ _ _ _ eq_refl H2 H1).
  cbn [fst]. f_equal. unfold PyDecimal.eqb, cmp. now rewrite Z.compare_refl.
Qed.

Lemma text_round_trip_witness :
  (exists q,
     raw_amount {| amount := Dec false 3333259 (-3); currency := USD |} default_prec
       = (Return q, 10) /\
     "3333.26"%string = to_str q /\
     from_major (OStr "3333.26") USD 10
       = (Return {| amount := q; currency := USD |}, 10)) /\
  fst ((d' <- from_major (OStr "3333.26") USD ;;
        equals_to d' (ODinero {| amount := Dec false 3333259 (-3);
                                 currency := USD |})) 10) = Return true.
Proof.
  apply (text_round_trip
           {| amount := Dec false 3333259 (-3); currency := USD |}
           default_prec 10 {| d_amount := "3333.26"%string; d_currency := USD |}).
  vm_compute. reflexivity.
Defined.

(** X20. Addition and subtraction are exact on minor units: for two
    amounts of one currency, neither with a digit below the minor unit,
    whose counts of minor units together stay below [10^base],
    [to_minor_units] of [a.add(b)] is the sum of the two counts and of
    [a.subtract(b)] their difference. *)
Theorem addition_is_exact (a b : Dinero) (p : context) :
  code_of b = code_of a -> exponent_of b = exponent_of a ->
  precision b = precision a ->
  - exponent_of a <= dexp (amount a) -> - exponent_of b <= dexp (amount b) ->
  Z.abs (minor_value a) + Z.abs (minor_value b) < 10 ^ precision a ->
  fst (to_minor_units a p) = Return (minor_value a) /\
  fst (to_minor_units b p) = Return (minor_value b) /\
  fst ((s <- add a (ODinero b) ;; to_minor_units s) p)
    = Return (minor_value a + minor_value b) /\
  fst ((s <- subtract a (ODinero b) ;; to_minor_units s) p)
    = Return (minor_value a - minor_value b).
Proof.
  intros Hc He Hbase Hxa Hxb Hbound.
  assert (He0 : 0 <= exponent_of a) by (unfold exponent_of; lia).
  split; [rewrite to_minor_units_bounded by lia; reflexivity|].
  split; [rewrite to_minor_units_bounded by (rewrite ?Hbase; lia); reflexivity|].
  pose proof (working_precision_pos b) as Hpb.
  pose proof (precision_le_working b) as Hpw.
  destruct (normalize_value (working_precision a) (amount a) (exponent_of a)
              (working_precision_fits a) Hxa He0) as (Ha1 & Ha2).
  destruct (normalize_value (working_precision b) (amount b) (exponent_of a)
              (working_precision_fits b) ltac:(lia) He0) as (Hb1 & Hb2).
  fold (minor_value a) in Ha2.
  rewrite <- He in Hb2 at 2. fold (minor_value b) in Hb2.
  set (a' := normalize (working_precision a) (amount a)) in *.
  set (b' := normalize (working_precision b) (amount b)) in *.
  assert (Hpow : 10 ^ precision a <= 10 ^ working_precision b).
  { apply Z.pow_le_mono_r; lia. }
  split.
  - rewrite (bind_return _ _ _ _ _ (add_eval a b p Hc)). fold a' b'.
    destruct (add_exact (working_precision b) a' b' (exponent_of a)
                Hpb He0 Ha1 Hb1 ltac:(rewrite Ha2, Hb2; lia)) as (R1 & R2).
    set (r := PyDecimal.add (working_precision b) a' b') in *.
    rewrite Ha2, Hb2 in R2.
    rewrite to_minor_units_bounded.
    + cbn [fst]. f_equal. exact R2.
    + exact R1.
    + unfold minor_value. cbn [amount]. change (exponent_of _) with (exponent_of a).
      change (precision _) with (precision a). rewrite R2. lia.
  - rewrite (bind_return _ _ _ _ _ (subtract_eval a b p Hc)). fold a' b'.
    unfold PyDecimal.sub.
    assert (Hn : signed (copy_negate b')
                 * 10 ^ (dexp (copy_negate b') + exponent_of a)
                 = - minor_value b).
    { rewrite <- Hb2. unfold signed, copy_negate. cbn [dsign dint dexp].
      destruct (dsign b'); cbn [negb]; ring. }
    destruct (add_exact (working_precision b) a' (copy_negate b') (exponent_of a)
                Hpb He0 Ha1 Hb1 ltac:(rewrite Ha2, Hn; lia)) as (R1 & R2).
    set (r := PyDecimal.add (working_precision b) a' (copy_negate b')) in *.
    rewrite Ha2, Hn in R2.
    rewrite to_minor_units_bounded.
    + cbn [fst]. f_equal. rewrite <- Z.add_opp_r. exact R2.
    + exact R1.
    + unfold minor_value. cbn [amount]. change (exponent_of _) with (exponent_of a).
      change (precision _) with (precision a). rewrite R2. lia.
Qed.

Lemma addition_is_exact_witness :
  fst (to_minor_units {| amount := Dec false 245 (-1); currency := USD |}
         default_prec) = Return 2450 /\
  fst (to_minor_units {| amount := Dec false 1 2; currency := USD |}
         default_prec) = Return 10000 /\
  fst ((s <- add {| amount := Dec false 245 (-1); currency := USD |}
                 (ODinero {| amount := Dec false 1 2; currency := USD |}) ;;
        to_minor_units s) default_prec) = Return 12450 /\
  fst ((s <- subtract {| amount := Dec false 245 (-1); currency := USD |}
                      (ODinero {| amount := Dec false 1 2; currency := USD |}) ;;
        to_minor_units s) default_prec) = Return (-7550).
Proof.
  apply (addition_is_exact
           {| amount := Dec false 245 (-1); currency := USD |}
           {| amount := Dec false 1 2; currency := USD |} default_prec);
    try reflexivity; cbn; lia.
Defined.

(** X21. Multiplying by an integer is exact on minor units: for an
    amount with no digit below the minor unit and an integer [n] such
    that [n] times its count of minor units stays below [10^base],
    [to_minor_units] of [a.multiply(n)] is that product. *)
Theorem integer_multiple_is_exact (a : Dinero) (n : Z) (p : context) :
  - exponent_of a <= dexp (amount a) ->
  Z.abs (n * minor_value a) < 10 ^ precision a ->
  fst ((s <- multiply a (OInt n) ;; to_minor_units s) p)
    = Return (n * minor_value a).
Proof.
  intros Hxa Hbound.
  assert (He0 : 0 <= exponent_of a) by (unfold exponent_of; lia).
  pose proof (multiply_int_eval a n p) as Hm. cbv zeta in Hm.
  set (o := {| amount := of_int n; currency := currency a |}) in *.
  rewrite (bind_return _ _ _ _ _ Hm). clear Hm.
  pose proof (working_precision_pos o) as Hpo.
  pose proof (precision_le_working o) as Hpw.
  change (precision o) with (precision a) in Hpw.
  destruct (normalize_value (working_precision a) (amount a) (exponent_of a)
              (working_precision_fits a) Hxa He0) as (Ha1 & Ha2).
  destruct (normalize_value (working_precision o) (of_int n) 0
              (working_precision_fits o) ltac:(cbn; lia) ltac:(lia))
    as (Hn1 & Hn2).
  fold (minor_value a) in Ha2.
  rewrite signed_of_int in Hn2. cbn [of_int dexp] in Hn2.
  rewrite !Z.add_0_r in Hn2. change (10 ^ 0) with 1 in Hn2.
  rewrite Z.mul_1_r in Hn2.
  set (a' := normalize (working_precision a) (amount a)) in *.
  set (n' := normalize (working_precision o) (of_int n)) in *.
  assert (Hpow : 10 ^ precision a <= 10 ^ working_precision o).
  { apply Z.pow_le_mono_r; lia. }
  destruct (mul_exact (working_precision o) a' n' (exponent_of a)
              Hpo He0 Ha1 ltac:(lia)
              ltac:(rewrite Ha2, Hn2, Z.mul_comm; lia)) as (R1 & R2).
  set (r := PyDecimal.mul (working_precision o) a' n') in *.
  rewrite Ha2, Hn2 in R2.
  rewrite to_minor_units_bounded.
  - cbn [fst]. f_equal. unfold minor_value at 1. cbn [amount].
    change (exponent_of {| amount := r; currency := currency a |})
      with (exponent_of a).
    rewrite R2. apply Z.mul_comm.
  - exact R1.
  - unfold minor_value at 1. cbn [amount].
    change (exponent_of {| amount := r; currency := currency a |})
      with (exponent_of a).
    change (precision {| amount := r; currency := currency a |})
      with (precision a).
    rewrite R2, Z.mul_comm. exact Hbound.
Qed.

Lemma integer_multiple_is_exact_witness :
  fst ((s <- multiply {| amount := Dec false 245 (-1); currency := USD |}
                      (OInt (-3)) ;;
        to_minor_units s) default_prec) = Return (-7350).
Proof.
  apply (integer_multiple_is_exact
           {| amount := Dec false 245 (-1); currency := USD |} (-3) default_prec);
    cbn; lia.
Defined.

(** X22. The display shows the quantized amount in plain notation: when
    [raw_amount] returns [q], [format()] returns a text made of the sign
    of [q], the digits of its integer part with a separator between
    groups, and, when the currency's exponent is not zero, a point
    followed by exactly [exponent] digits; there is no exponent part.
    The digits read in order are the coefficient of [q]; removing the
    separators from the grouped integer part gives back its digits, and
    counting from the right every fourth character of it, and no other,
    is a separator; the whole text, its separators removed, is a numeral
    of [q] itself.
    [to_dict(amount_with_format=True)] carries the same text. *)
Theorem formatted_amount_reads_back (d : Dinero) (p p' : context)
    (q : decimal) :
  raw_amount d p = (Return q, p') ->
  exists ip fp : string,
    let text :=
      ((if dsign q then "-" else "")
       ++ group_thousands ip
       ++ (if (exponent_of d =? 0)%Z then "" else "." ++ fp))%string in
    format d false false p = (Return text, p') /\
    fst (to_dict d true p)
      = Return {| d_amount := text; d_currency := currency_with_symbol d |} /\
    Forall (fun c => is_digit c = true) (list_ascii_of_string ip) /\
    ip <> ""%string /\
    Forall (fun c => is_digit c = true) (list_ascii_of_string fp) /\
    Z.of_nat (String.length fp) = exponent_of d /\
    digits_value (list_ascii_of_string ip ++ list_ascii_of_string fp)
      = dint q /\
    without_separators (group_thousands ip) = ip /\
    (forall (i : nat) (c : ascii),
       nth_error (rev (list_ascii_of_string (group_thousands ip))) i = Some c ->
       (c = ","%char <-> (i mod 4 = 3)%nat)) /\
    of_string (without_separators text) = Some q.
Proof.
  unfold raw_amount. intros H. cbv zeta.
  destruct (normalize_true_inv d p q p' H) as (-> & Hq & _).
  assert (Hx : dexp q = - exponent_of d) by (rewrite Hq; apply rescale_exp).
  assert (He : 0 <= exponent_of d) by (unfold exponent_of; lia).
  assert (Hf : _formatted_amount d p
               = (Return (format_f (exponent_of d) q), working_precision d)).
  { unfold _formatted_amount. rewrite (bind_return _ _ _ _ _ H). reflexivity. }
  destruct (format_f_shape q (exponent_of d) He Hx)
    as (ip & fp & Hs & Fi & Ff & Hi & Hl & Hv).
  exists ip, fp. rewrite <- Hs.
  split; [|split; [|split; [exact Fi|split; [|split; [exact Ff|split;
    [exact Hl|split; [exact Hv|split; [|split]]]]]]]].
  - unfold format. rewrite (bind_return _ _ _ _ _ Hf). unfold ret.
    cbn [append]. now rewrite append_empty_r.
  - unfold to_dict. rewrite (bind_return _ _ _ _ _ H).
    assert (Hf' : _formatted_amount d (working_precision d)
                  = (Return (format_f (exponent_of d) q), working_precision d))
      by exact Hf.
    rewrite (bind_return _ _ _ _ _ Hf'). reflexivity.
  - intros E. apply Hi. rewrite E. reflexivity.
  - apply ungroup_thousands. exact Fi.
  - apply group_thousands_places. exact Fi.
  - apply format_f_reads_back; assumption.
Qed.

Lemma formatted_amount_reads_back_witness :
  exists ip fp : string,
    let text :=
      ((if false then "-" else "")
       ++ group_thousands ip
       ++ (if (exponent_of {| amount := Dec false 3333259 (-3);
                              currency := USD |} =? 0)%Z
           then "" else "." ++ fp))%string in
    format {| amount := Dec false 3333259 (-3); currency := USD |} false false
           default_prec = (Return text, 10) /\
    fst (to_dict {| amount := Dec false 3333259 (-3); currency := USD |} true
           default_prec)
      = Return {| d_amount := text;
                  d_currency := currency_with_symbol
                    {| amount := Dec false 3333259 (-3); currency := USD |} |} /\
    Forall (fun c => is_digit c = true) (list_ascii_of_string ip) /\
    ip <> ""%string /\
    Forall (fun c => is_digit c = true) (list_ascii_of_string fp) /\
    Z.of_nat (String.length fp)
      = exponent_of {| amount := Dec false 3333259 (-3); currency := USD |} /\
    digits_value (list_ascii_of_string ip ++ list_ascii_of_string fp) = 333326%N /\
    without_separators (group_thousands ip) = ip /\
    (forall (i : nat) (c : ascii),
       nth_error (rev (list_ascii_of_string (group_thousands ip))) i = Some c ->
       (c = ","%char <-> (i mod 4 = 3)%nat)) /\
    of_string (without_separators text) = Some (Dec false 333326 (-2)).
Proof.
  apply (formatted_amount_reads_back
           {| amount := Dec false 3333259 (-3); currency := USD |}
           default_prec 10 (Dec false 333326 (-2))).
  vm_compute. reflexivity.
Defined.

End Extras.
